(** * Pharmacy booking backend: a shallow embedding of [api/index.py]

    The development follows the Python module top-down: the datetime
    helpers first, then the external collaborators (calendar, ledger,
    parsers and formatters) as an interface, then the handlers written in
    a small state-and-exception monad over an explicit world, and finally
    the properties of the handlers. *)

From Stdlib Require Import ZArith Lia Ascii String.
From stdpp Require Import base tactics option list strings pretty sorting.

Local Open Scope Z_scope.

(** ** Datetimes

    A [datetime] carries the fields Python's [datetime.datetime] exposes.
    The date part is kept as the proleptic Gregorian ordinal
    ([date.toordinal()]): Python's dates run from 0001-01-01, ordinal 1,
    to 9999-12-31, ordinal 3652059, and a sum that leaves this range
    raises [OverflowError]. [tzinfo] is the UTC offset, in minutes, of
    the attached time zone object, or [None] for a naive datetime. A
    [timedelta] is a number of microseconds. *)

Record datetime := mkdt {
  ordinal : Z;
  hour : Z;
  minute : Z;
  second : Z;
  microsecond : Z;
  tzinfo : option Z
}.

(** [date.min.toordinal()] and [date.max.toordinal()] *)
Definition min_ordinal : Z := 1.
Definition max_ordinal : Z := 3652059.

(** A time of day within its bounds. *)
Definition wf_time (d : datetime) : Prop :=
  0 <= hour d < 24 /\ 0 <= minute d < 60 /\ 0 <= second d < 60 /\
  0 <= microsecond d < 1000000.

(** The values of Python's [datetime]: the time of day within its
    bounds and the date within the calendar. *)
Definition wf_datetime (d : datetime) : Prop :=
  0 <= hour d < 24 /\ 0 <= minute d < 60 /\ 0 <= second d < 60 /\
  0 <= microsecond d < 1000000 /\
  min_ordinal <= ordinal d <= max_ordinal.

Definition timedelta := Z.

Definition td_microseconds (n : Z) : timedelta := n.
Definition td_minutes (n : Z) : timedelta := n * 60000000.
Definition td_hours (n : Z) : timedelta := n * 3600000000.
Definition td_days (n : Z) : timedelta := n * 86400000000.

(** Wall-clock microseconds since midnight before ordinal 0. *)
Definition to_us (d : datetime) : Z :=
  (((ordinal d * 24 + hour d) * 60 + minute d) * 60 + second d) * 1000000
  + microsecond d.

Definition of_us (tz : option Z) (n : Z) : datetime :=
  {| ordinal := n / 86400000000;
     hour := (n / 3600000000) mod 24;
     minute := (n / 60000000) mod 60;
     second := (n / 1000000) mod 60;
     microsecond := n mod 1000000;
     tzinfo := tz |}.

(** The wall-clock sum of a datetime and a timedelta, before the check
    of the date; the tzinfo is carried over. *)
Definition shift (d : datetime) (delta : timedelta) : datetime :=
  of_us (tzinfo d) (to_us d + delta).

Definition in_calendar (d : datetime) : bool :=
  (min_ordinal <=? ordinal d) && (ordinal d <=? max_ordinal).

(** [dt + delta]: the wall-clock sum, or [None] for the [OverflowError]
    Python raises when the date of the sum is not in the calendar. *)
Definition dt_add (d : datetime) (delta : timedelta) : option datetime :=
  let r := shift d delta in
  if in_calendar r then Some r else None.

(** [dt.replace(minute=m, second=s, microsecond=us)] *)
Definition replace_minute (d : datetime) (m s us : Z) : datetime :=
  {| ordinal := ordinal d; hour := hour d; minute := m; second := s;
     microsecond := us; tzinfo := tzinfo d |}.

(** [dt.replace(hour=h, minute=m, second=s, microsecond=us)] *)
Definition replace_hour (d : datetime) (h m s us : Z) : datetime :=
  {| ordinal := ordinal d; hour := h; minute := m; second := s;
     microsecond := us; tzinfo := tzinfo d |}.

(** [dt.weekday()]: Monday is 0, Sunday is 6; ordinal 1 is a Monday. *)
Definition weekday (d : datetime) : Z := (ordinal d + 6) mod 7.

(** The instant on the UTC time line: two aware datetimes compare by
    their UTC instants (which is the wall-clock order when the tzinfo is
    shared), two naive ones by their wall clocks. *)
Definition utc_us (d : datetime) : Z :=
  to_us d - default 0 (tzinfo d) * 60000000.

(** Both aware or both naive: the datetimes Python can order. Comparing
    a naive with an aware datetime raises [TypeError]. *)
Definition comparable (a b : datetime) : bool :=
  match tzinfo a, tzinfo b with
  | Some _, Some _ | None, None => true
  | _, _ => false
  end.

(** [a < b] and [a <= b] on comparable datetimes. The loops of the scan
    compare a probe with a [replace] of itself, which has its tzinfo. *)
Definition dt_ltb (a b : datetime) : bool := utc_us a <? utc_us b.
Definition dt_leb (a b : datetime) : bool := utc_us a <=? utc_us b.

(** Python's [max(a, b)]: the first argument unless the second is
    strictly greater; [None] for the [TypeError] of a comparison
    between a naive and an aware datetime. *)
Definition dt_max (a b : datetime) : option datetime :=
  if comparable a b then Some (if dt_ltb a b then b else a) else None.

(** ** Time and slot utilities *)

Definition is_business_hours (dt : datetime) : bool :=
  if 5 <=? weekday dt then false
  else if (hour dt <? 9) || (18 <=? hour dt) then false
  else if negb ((minute dt =? 0) || (minute dt =? 30)) then false
  else true.

(** [None] stands for the [OverflowError] of [dt + timedelta(hours=1)]. *)
Definition round_to_next_half_hour (dt : datetime) : option datetime :=
  if ((minute dt =? 0) || (minute dt =? 30)) && (second dt =? 0)
     && (microsecond dt =? 0)
  then Some dt
  else if minute dt <? 15 then Some (replace_minute dt 0 0 0)
  else if minute dt <? 45 then Some (replace_minute dt 30 0 0)
  else
    match dt_add dt (td_hours 1) with
    | Some later => Some (replace_minute later 0 0 0)
    | None => None
    end.

(** ** Strings

    Python [str] values are the byte strings of their UTF-8 encoding;
    a text occurs in another exactly when its encoding occurs in the
    other's. [upper] is [str.upper()] on ASCII text: the module applies
    it to a hexadecimal digest only. [str.lower()], which the module
    applies to names and descriptions, is the Unicode case mapping and
    is one of the collaborators below. *)

Definition in_range (lo hi : nat) (c : ascii) : bool :=
  (lo <=? nat_of_ascii c)%nat && (nat_of_ascii c <=? hi)%nat.

Definition ascii_upper (c : ascii) : ascii :=
  if in_range 97 122 c then ascii_of_nat (nat_of_ascii c - 32) else c.

Definition ascii_lower (c : ascii) : ascii :=
  if in_range 65 90 c then ascii_of_nat (nat_of_ascii c + 32) else c.

Fixpoint str_map (f : ascii -> ascii) (s : string) : string :=
  match s with
  | EmptyString => EmptyString
  | String c r => String (f c) (str_map f r)
  end.

Definition upper : string -> string := str_map ascii_upper.

(** [s[:n]] and [s[n:]] *)
Fixpoint str_take (n : nat) (s : string) : string :=
  match n, s with
  | S n', String c r => String c (str_take n' r)
  | _, _ => EmptyString
  end.

Fixpoint str_drop (n : nat) (s : string) : string :=
  match n, s with
  | S n', String _ r => str_drop n' r
  | _, _ => s
  end.

Fixpoint startswith (p s : string) : bool :=
  match p, s with
  | EmptyString, _ => true
  | String a p', String b s' => if Ascii.eqb a b then startswith p' s' else false
  | String _ _, EmptyString => false
  end.

(** [needle in hay] *)
Fixpoint str_in (needle hay : string) : bool :=
  startswith needle hay ||
  match hay with
  | EmptyString => false
  | String _ r => str_in needle r
  end.

(** [s.split(sep)[0]] for a non-empty separator: the part of [s] before
    the first occurrence of [sep], or all of [s]. *)
Fixpoint split_head (sep s : string) : string :=
  if startswith sep s then EmptyString
  else match s with
       | EmptyString => EmptyString
       | String c r => String c (split_head sep r)
       end.

(** [s.replace(" 0", " ")] *)
Fixpoint strip_zero (s : string) : string :=
  match s with
  | String " " (String "0" r) => String " " (strip_zero r)
  | String c r => String c (strip_zero r)
  | EmptyString => EmptyString
  end.

(** Truthiness of an [Optional[str]]: neither [None] nor empty. *)
Definition truthy (o : option string) : bool :=
  match o with
  | Some s => negb (String.eqb s "")
  | None => false
  end.

(** [o or d] for an [Optional[str]] *)
Definition str_or (o : option string) (d : string) : string :=
  match o with
  | Some s => if String.eqb s "" then d else s
  | None => d
  end.

(** ** Request and response models *)

Record Slot := mkSlot {
  start : string;
  end_ : string;
  speakable : string
}.

Module FindSlotsReq.
Record t := mk {
  appointment_type : string;
  preferred_datetime_text : string;
  limit : Z
}.
End FindSlotsReq.

Module FindSlotsRes.
Record t := mk {
  slots : list Slot;
  reason : option string
}.
End FindSlotsRes.

Record Patient := mkPatient {
  name : string;
  contact : string;
  email : option string
}.

Module CreateEventReq.
Record t := mk {
  appointment_type : string;
  slot : Slot;
  patient : Patient;
  idempotency_key : option string;
  notes : option string
}.
End CreateEventReq.

Module CreateEventRes.
Record t := mk {
  success : bool;
  booking_ref : option string;
  event_id : option string;
  confirm_speakable : option string;
  error : option string;
  reason : option string
}.
End CreateEventRes.

Module RescheduleReq.
Record t := mk {
  booking_ref : option string;
  name : option string;
  contact : option string;
  new_preferred_datetime_text : string;
  appointment_type : option string;
  confirm_reschedule : bool;
  notes : option string
}.
End RescheduleReq.

Module RescheduleRes.
Record t := mk {
  success : bool;
  booking_ref : option string;
  old_slot : option string;
  new_slot : option Slot;
  available_slots : option (list Slot);
  confirm_speakable : option string;
  error : option string;
  reason : option string
}.
End RescheduleRes.

Module CancelReq.
Record t := mk {
  booking_ref : option string;
  name : option string;
  contact : option string;
  reason : option string
}.
End CancelReq.

Module CancelRes.
Record t := mk {
  success : bool;
  booking_ref : option string;
  cancelled_slot : option string;
  error : option string;
  reason : option string
}.
End CancelRes.

(** The outcome of building a request model from the payload: pydantic
    either yields the model or raises [ValidationError] with a message. *)
Inductive validation (A : Type) :=
| Valid (req : A)
| Invalid (msg : string).
Arguments Valid {A} req.
Arguments Invalid {A} msg.

(** ** The external world

    A calendar event as the handlers read and write it: the identifier,
    the optional text fields, the [dateTime] of [start] and [end] (absent
    on all-day events) and the private extended property [bookingRef]. *)

Record Event := mkEvent {
  ev_id : string;
  ev_summary : option string;
  ev_description : option string;
  ev_start : option string;
  ev_end : option string;
  ev_bookingRef : option string
}.

(** The body of an insert or update: every handler sets all five. *)
Record EventBody := mkBody {
  b_summary : string;
  b_description : string;
  b_start : string;
  b_end : string;
  b_bookingRef : option string
}.

(** One request to a provider. A ledger range is a row index (zero
    based, row [i] is sheet row [i+1]) and a first column. *)
Inductive call :=
| freebusy_query (timeMin timeMax : string)
| events_list_ref (ref : string)
| events_list_text (q timeMin : string)
| events_insert (body : EventBody)
| events_update (eventId : string) (body : EventBody)
| events_delete (eventId : string)
| values_append (row : list string)
| values_get
| values_update (row col : nat) (values : list string).

(** A call that changes the calendar or the ledger when it succeeds. *)
Definition is_mutation (c : call) : bool :=
  match c with
  | events_insert _ | events_update _ _ | events_delete _
  | values_append _ | values_update _ _ _ => true
  | _ => false
  end.

Record world := mkWorld {
  calendar : list Event;
  sheet : list (list string);
  trace : list call
}.

Inductive exn :=
| HttpError
| ParserError
| ValueError
| KeyError
| IndexError
| OverflowError
| TypeError.

(** ** Collaborators outside the module

    Parsing, formatting, time zones, the clock, the digest and the
    Unicode case mapping are used as black boxes; so is what the
    calendar answers to a free/busy query or a text search, which
    identifier it gives a new event, whether a request to a provider
    fails, and the text [str(e)] of an exception [e] caught in a given
    world (the message its raiser gave it). *)

Class Externals := {
  sha1_hexdigest : string -> string;
  lower : string -> string;
  du_parse : string -> option datetime;
  du_isoparse : string -> option datetime;
  isoformat : datetime -> string;
  strftime : datetime -> string -> string;
  tz_localize : datetime -> datetime;
  astimezone : datetime -> datetime;
  now : world -> datetime;
  utcnow : world -> datetime;
  busy_of : list Event -> string -> string -> list (string * string);
  search_of : list Event -> string -> string -> list Event;
  new_event_id : list Event -> EventBody -> string;
  fails : world -> call -> bool;
  str_exn : world -> exn -> string
}.
(** ** The monad of the handlers

    A computation runs on a world and ends with a value, with a Python
    exception, or it gives up because a loop ran out of its iteration
    budget ([Diverge]). [except Exception] catches the second, never the
    third. *)

Inductive outcome (A : Type) :=
| Ret (a : A)
| Raise (e : exn)
| Diverge.
Arguments Ret {A} a.
Arguments Raise {A} e.
Arguments Diverge {A}.

Definition M (A : Type) : Type := world -> outcome A * world.

Definition ret {A} (a : A) : M A := fun w => (Ret a, w).
Definition raise {A} (e : exn) : M A := fun w => (Raise e, w).
Definition diverge {A} : M A := fun w => (Diverge, w).

Definition bind {A B} (m : M A) (k : A -> M B) : M B :=
  fun w =>
    match m w with
    | (Ret a, w') => k a w'
    | (Raise e, w') => (Raise e, w')
    | (Diverge, w') => (Diverge, w')
    end.

Notation "'let!' x ':=' m 'in' k" := (bind m (fun x => k))
  (at level 10, x pattern, m at level 100, k at level 200).

(** [try: m  except Exception: h] *)
Definition try_except {A} (m : M A) (h : exn -> M A) : M A :=
  fun w =>
    match m w with
    | (Raise e, w') => h e w'
    | r => r
    end.

(** A value that may be missing, with the exception its absence raises. *)
Definition expect {A} (e : exn) (o : option A) : M A :=
  match o with
  | Some a => ret a
  | None => raise e
  end.

Definition record_call (c : call) (w : world) : world :=
  {| calendar := calendar w; sheet := sheet w; trace := c :: trace w |}.

Definition set_calendar (cal : list Event) (w : world) : world :=
  {| calendar := cal; sheet := sheet w; trace := trace w |}.

Definition set_sheet (sh : list (list string)) (w : world) : world :=
  {| calendar := calendar w; sheet := sh; trace := trace w |}.

(** ** The providers

    A request is recorded in the trace; it then either fails with an
    [HttpError], leaving calendar and ledger as they were, or has the
    effect and the answer spec section 6 gives the operation. *)

Definition has_ref (ref : string) (ev : Event) : bool :=
  bool_decide (ev_bookingRef ev = Some ref).

Definition event_of_body (id : string) (b : EventBody) : Event :=
  {| ev_id := id;
     ev_summary := Some (b_summary b);
     ev_description := Some (b_description b);
     ev_start := Some (b_start b);
     ev_end := Some (b_end b);
     ev_bookingRef := b_bookingRef b |}.

Definition has_id (id : string) (ev : Event) : bool :=
  String.eqb (ev_id ev) id.

(** Writing [vals] into a ledger row from column [col] on; a row that is
    too short is padded with empty cells first. *)
Definition set_cells (row : list string) (col : nat) (vals : list string)
  : list string :=
  take col (row ++ replicate (col - length row) ""%string) ++ vals
  ++ drop (col + length vals) row.

Definition set_row_cells (sh : list (list string)) (i col : nat)
    (vals : list string) : list (list string) :=
  <[i := set_cells (default [] (sh !! i)) col vals]>
    (sh ++ replicate (S i - length sh) []).

Section Program.

Context {ext : Externals}.

Definition request {A} (c : call) (effect : world -> outcome A * world)
  : M A :=
  fun w =>
    let w1 := record_call c w in
    if fails w c then (Raise HttpError, w1) else effect w1.

Definition freebusy_execute (timeMin timeMax : string)
  : M (list (string * string)) :=
  request (freebusy_query timeMin timeMax)
    (fun w => (Ret (busy_of (calendar w) timeMin timeMax), w)).

(** [events().list(privateExtendedProperty="bookingRef=" + ref,
    maxResults=1, singleEvents=True)]: the [items] of the answer. *)
Definition events_list_ref_execute (ref : string) : M (list Event) :=
  request (events_list_ref ref)
    (fun w => (Ret (take 1 (filter (fun ev => has_ref ref ev = true)
                                   (calendar w))), w)).

(** [events().list(q=..., timeMin=..., maxResults=50, singleEvents=True,
    orderBy="startTime")] *)
Definition events_list_text_execute (q timeMin : string) : M (list Event) :=
  request (events_list_text q timeMin)
    (fun w => (Ret (take 50 (search_of (calendar w) q timeMin)), w)).

Definition events_insert_execute (body : EventBody) : M Event :=
  request (events_insert body)
    (fun w =>
       let ev := event_of_body (new_event_id (calendar w) body) body in
       (Ret ev, set_calendar (calendar w ++ [ev]) w)).

Definition events_update_execute (eventId : string) (body : EventBody)
  : M Event :=
  request (events_update eventId body)
    (fun w =>
       if existsb (has_id eventId) (calendar w)
       then (Ret (event_of_body eventId body),
             set_calendar
               (map (fun ev => if has_id eventId ev
                               then event_of_body eventId body else ev)
                    (calendar w)) w)
       else (Raise HttpError, w)).

Definition events_delete_execute (eventId : string) : M unit :=
  request (events_delete eventId)
    (fun w =>
       if existsb (has_id eventId) (calendar w)
       then (Ret tt,
             set_calendar
               (filter (fun ev => has_id eventId ev = false) (calendar w)) w)
       else (Raise HttpError, w)).

Definition values_append_execute (row : list string) : M unit :=
  request (values_append row)
    (fun w => (Ret tt, set_sheet (sheet w ++ [row]) w)).

Definition values_get_execute : M (list (list string)) :=
  request values_get (fun w => (Ret (sheet w), w)).

Definition values_update_execute (i col : nat) (vals : list string)
  : M unit :=
  request (values_update i col vals)
    (fun w => (Ret tt, set_sheet (set_row_cells (sheet w) i col vals) w)).

Definition get_now : M datetime := fun w => (Ret (now w), w).
Definition get_utcnow : M datetime := fun w => (Ret (utcnow w), w).

(** ** Helpers of the module *)

Definition freebusy_range (start_dt end_dt : datetime)
  : M (list (string * string)) :=
  freebusy_execute (isoformat start_dt) (isoformat end_dt).

Definition is_slot_available (start_dt : datetime) : M bool :=
  if negb (is_business_hours start_dt) then ret false
  else
    let! end_dt := expect OverflowError (dt_add start_dt (td_minutes 30)) in
    let! busy := freebusy_range start_dt end_dt in
    ret (length busy =? 0)%nat.

Definition speakable_range (start_iso end_iso : string) : M string :=
  let! s := expect ValueError (du_isoparse start_iso) in
  let s := astimezone s in
  let! e := expect ValueError (du_isoparse end_iso) in
  let e := astimezone e in
  let left := strip_zero (strftime s "%a %b %d, %I:%M %p") in
  let right := strip_zero (strftime e "%I:%M %p") in
  ret (left +:+ " – " +:+ right).

Definition fmt_local (iso_str : string) : M string :=
  let! dt := expect ValueError (du_isoparse iso_str) in
  ret (strftime (astimezone dt) "%m/%d/%Y %I:%M %p").

Definition append_sheet_row (status appt_type start_iso end_iso
    name contact ref notes : string) : M unit :=
  let! t := get_utcnow in
  let logged_utc := strftime t "%m/%d/%Y %H:%M:%S UTC" in
  let! start_local := fmt_local start_iso in
  let! end_local := fmt_local end_iso in
  let row := [logged_utc; ref; "book"; appt_type; start_local; end_local;
              name; contact; "retell-chat"; notes; status]%string in
  values_append_execute row.

Definition booking_ref_key (name contact start_iso appt_type : string)
  : string :=
  let h := upper (str_take 6 (sha1_hexdigest
             (name +:+ "|" +:+ contact +:+ "|" +:+ start_iso +:+ "|"
              +:+ appt_type))) in
  str_take 3 h +:+ "-" +:+ str_drop 3 h.

Definition find_booking_by_ref (booking_ref : string) : M (option Event) :=
  try_except
    (let! items := events_list_ref_execute booking_ref in
     ret (head items))
    (fun _ => ret None).

Definition patient_matches (name contact : string) (event : Event) : bool :=
  let description := lower (default ""%string (ev_description event)) in
  let summary := lower (default ""%string (ev_summary event)) in
  str_in (lower contact) description && str_in (lower name) summary.

Definition find_booking_by_patient (name contact : string)
  : M (option Event) :=
  try_except
    (let! t := get_utcnow in
     let! items := events_list_text_execute name (isoformat t +:+ "Z") in
     ret (head (filter (fun ev => patient_matches name contact ev = true)
                       items)))
    (fun _ => ret None).
(** ** Ledger updates *)

(** [len(row) > 1 and row[1] == booking_ref] *)
Definition row_has_ref (row : list string) (booking_ref : option string)
  : bool :=
  match row !! 1%nat with
  | Some c => bool_decide (Some c = booking_ref)
  | None => false
  end.

(** [len(row) > 10 and row[10] in ["confirmed", "rescheduled"]] *)
Definition row_is_open (row : list string) : bool :=
  match row !! 10%nat with
  | Some st => String.eqb st "confirmed" || String.eqb st "rescheduled"
  | None => false
  end.

(** The [for i, row in enumerate(rows)] loop of [update_sheet_status],
    from index [i] on. *)
Fixpoint update_sheet_status_rows (booking_ref : option string)
    (new_status notes : string) (i : nat) (rows : list (list string))
  : M bool :=
  match rows with
  | [] => ret false
  | row :: rest =>
    if row_has_ref row booking_ref && row_is_open row then
      let! _ := values_update_execute i 10 [new_status] in
      let! _ :=
        (if negb (String.eqb notes "") then
           let existing_notes := default ""%string (row !! 9%nat) in
           let updated_notes :=
             if negb (String.eqb existing_notes "")
             then existing_notes +:+ ". Cancelled: " +:+ notes
             else "Cancelled: " +:+ notes in
           values_update_execute i 9 [updated_notes]
         else ret tt) in
      ret true
    else update_sheet_status_rows booking_ref new_status notes (S i) rest
  end.

Definition update_sheet_status (booking_ref : option string)
    (new_status notes : string) : M bool :=
  try_except
    (let! rows := values_get_execute in
     update_sheet_status_rows booking_ref new_status notes 0 rows)
    (fun _ => ret false).

(** The loop of [update_sheet_reschedule], from index [i] on. *)
Fixpoint update_sheet_reschedule_rows (booking_ref : option string)
    (new_start_iso new_end_iso notes : string) (i : nat)
    (rows : list (list string)) : M bool :=
  match rows with
  | [] => ret false
  | row :: rest =>
    if row_has_ref row booking_ref then
      if row_is_open row then
        let! start_local := fmt_local new_start_iso in
        let! end_local := fmt_local new_end_iso in
        let existing_notes := default ""%string (row !! 9%nat) in
        let updated_notes :=
          if str_in "Rescheduled" existing_notes
          then existing_notes +:+ ". Rescheduled again: " +:+ notes
          else "Rescheduled. " +:+ notes in
        let! _ := values_update_execute i 4
                    [start_local; end_local;
                     default ""%string (row !! 6%nat);
                     default ""%string (row !! 7%nat);
                     default ""%string (row !! 8%nat);
                     updated_notes; "rescheduled"%string] in
        ret true
      else ret false
    else update_sheet_reschedule_rows booking_ref new_start_iso new_end_iso
           notes (S i) rest
  end.

Definition update_sheet_reschedule (booking_ref : option string)
    (new_start_iso new_end_iso notes : string) : M bool :=
  try_except
    (let! rows := values_get_execute in
     update_sheet_reschedule_rows booking_ref new_start_iso new_end_iso
       notes 0 rows)
    (fun _ => ret false).

(** ** Slot finder *)

(** The [Slot] the finder builds for a probe. *)
Definition make_slot (probe : datetime) : M Slot :=
  let start_iso := isoformat probe in
  let! end_dt := expect OverflowError (dt_add probe (td_minutes 30)) in
  let end_iso := isoformat end_dt in
  let! sp := speakable_range start_iso end_iso in
  ret {| start := start_iso; end_ := end_iso; speakable := sp |}.

(** The inner loop of [top_slots]:
    [while probe <= day_end and len(out) < limit]. It yields the probe
    and the list it stopped with. *)
Fixpoint scan_day (fuel : nat) (limit : Z) (day_end probe : datetime)
    (out : list Slot) : M (datetime * list Slot) :=
  if dt_leb probe day_end && (Z.of_nat (length out) <? limit) then
    match fuel with
    | O => diverge
    | S fuel' =>
      let! avail := is_slot_available probe in
      let! out :=
        (if avail then
           let! s := make_slot probe in ret (out ++ [s])
         else ret out) in
      let! probe := expect OverflowError (dt_add probe (td_minutes 30)) in
      scan_day fuel' limit day_end probe out
    end
  else ret (probe, out).

(** [while probe.weekday() >= 5: probe += timedelta(days=1)] *)
Fixpoint skip_weekend (fuel : nat) (probe : datetime) : M datetime :=
  if 5 <=? weekday probe then
    match fuel with
    | O => diverge
    | S fuel' =>
      let! probe := expect OverflowError (dt_add probe (td_days 1)) in
      skip_weekend fuel' probe
    end
  else ret probe.

(** The outer loop of [top_slots]:
    [while len(out) < limit and days_checked < 8]. *)
Fixpoint scan_days (fuel : nat) (limit : Z) (probe : datetime)
    (out : list Slot) (days_checked : Z) : M (list Slot) :=
  if (Z.of_nat (length out) <? limit) && (days_checked <? 8) then
    match fuel with
    | O => diverge
    | S fuel' =>
      let day_end := replace_hour probe 18 0 0 0 in
      let! (probe, out) := scan_day 40 limit day_end probe out in
      let! probe := expect OverflowError (dt_add probe (td_days 1)) in
      let probe := replace_hour probe 9 0 0 0 in
      let! probe := skip_weekend 7 probe in
      scan_days fuel' limit probe out (days_checked + 1)
    end
  else ret out.

Definition top_slots (anchor : datetime) (limit : Z) : M (list Slot) :=
  let! now := get_now in
  let! later := expect OverflowError (dt_add now (td_minutes 60)) in
  let! anchor := expect TypeError (dt_max anchor later) in
  let! probe := expect OverflowError (round_to_next_half_hour anchor) in
  scan_days 8 limit probe [] 0.

Definition find_available_slots (preferred_datetime_text : string)
    (limit : Z) : M FindSlotsRes.t :=
  let! anchor := expect ParserError (du_parse preferred_datetime_text) in
  let anchor := match tzinfo anchor with
                | None => tz_localize anchor
                | Some _ => astimezone anchor
                end in
  let! rounded_anchor :=
    expect OverflowError (round_to_next_half_hour anchor) in
  let! avail := is_slot_available rounded_anchor in
  if avail then
    let! preferred_slot := make_slot rounded_anchor in
    ret (FindSlotsRes.mk [preferred_slot] (Some "preferred_time_available"%string))
  else
    let! slots := top_slots anchor limit in
    ret (FindSlotsRes.mk slots
           (Some (match slots with
                  | [] => "no_slots_available"
                  | _ :: _ => "preferred_time_busy"
                  end)%string)).
(** ** Handlers *)

Definition nl : string := String (ascii_of_nat 10) EmptyString.

(** [str(e)] in an [except Exception as e] clause: the message of the
    exception that was just caught. *)
Definition exn_message (e : exn) : M string :=
  fun w => (Ret (str_exn w e), w).

Definition find_slots_endpoint (payload : validation FindSlotsReq.t)
  : M FindSlotsRes.t :=
  match payload with
  | Invalid _ =>
    let! t := get_now in
    let! later := expect OverflowError (dt_add t (td_hours 2)) in
    let! s := expect OverflowError (round_to_next_half_hour later) in
    let! sample := make_slot s in
    ret (FindSlotsRes.mk [sample] (Some "bad_payload"%string))
  | Valid req =>
    let! result :=
      find_available_slots (FindSlotsReq.preferred_datetime_text req)
        (FindSlotsReq.limit req) in
    ret (FindSlotsRes.mk (FindSlotsRes.slots result)
           (FindSlotsRes.reason result))
  end.

Definition with_idempotency_key (req : CreateEventReq.t)
    (key : option string) : CreateEventReq.t :=
  CreateEventReq.mk (CreateEventReq.appointment_type req)
    (CreateEventReq.slot req) (CreateEventReq.patient req) key
    (CreateEventReq.notes req).

Definition create_event (payload : validation CreateEventReq.t)
  : M CreateEventRes.t :=
  match payload with
  | Invalid e =>
    ret (CreateEventRes.mk false None None None
           (Some "validation_error"%string) (Some e))
  | Valid req =>
    let req :=
      if negb (truthy (CreateEventReq.idempotency_key req)) then
        with_idempotency_key req
          (Some (booking_ref_key
                   (name (CreateEventReq.patient req))
                   (contact (CreateEventReq.patient req))
                   (start (CreateEventReq.slot req))
                   (CreateEventReq.appointment_type req)))
      else req in
    let slot := CreateEventReq.slot req in
    let ref := booking_ref_key (name (CreateEventReq.patient req))
                 (contact (CreateEventReq.patient req)) (start slot)
                 (CreateEventReq.appointment_type req) in
    let! existing := events_list_ref_execute ref in
    match existing with
    | ev :: _ =>
      let! sp := speakable_range (start slot) (end_ slot) in
      ret (CreateEventRes.mk true (Some ref) (Some (ev_id ev)) (Some sp)
             None None)
    | [] =>
      let! s_dt := expect ValueError (du_isoparse (start slot)) in
      let! avail := is_slot_available s_dt in
      if negb avail then
        ret (CreateEventRes.mk false None None None
               (Some "slot_taken"%string)
               (Some "slot_no_longer_available"%string))
      else
        let event :=
          {| b_summary := CreateEventReq.appointment_type req +:+ " - "
                          +:+ name (CreateEventReq.patient req);
             b_description := "Contact: "
                          +:+ contact (CreateEventReq.patient req)
                          +:+ nl +:+ "Ref: " +:+ ref;
             b_start := start slot;
             b_end := end_ slot;
             b_bookingRef := Some ref |} in
        let! created := events_insert_execute event in
        let! _ := append_sheet_row "confirmed"
                    (CreateEventReq.appointment_type req)
                    (start slot) (end_ slot)
                    (name (CreateEventReq.patient req))
                    (contact (CreateEventReq.patient req)) ref
                    (str_or (CreateEventReq.notes req) "") in
        let! sp := speakable_range (start slot) (end_ slot) in
        ret (CreateEventRes.mk true (Some ref) (Some (ev_id created))
               (Some sp) None None)
    end
  end.

(** The lookup both [reschedule_booking] and [cancel_booking] start
    with: the event and the reference the handler goes on with. *)
Definition resolve_booking (booking_ref name contact : option string)
  : M (option Event * option string) :=
  if truthy booking_ref then
    let! existing_event :=
      find_booking_by_ref (default ""%string booking_ref) in
    ret (existing_event, booking_ref)
  else if truthy name && truthy contact then
    let! existing_event :=
      find_booking_by_patient (default ""%string name)
        (default ""%string contact) in
    ret (existing_event,
         match existing_event with
         | Some ev => ev_bookingRef ev
         | None => None
         end)
  else ret (None, None).

Definition bool_str (b : bool) : string :=
  if b then "True"%string else "False"%string.

(** The [if req.confirm_reschedule: try: ... except ...] block. *)
Definition commit_reschedule (req : RescheduleReq.t)
    (existing_event : Event) (booking_ref : option string)
    (old_slot_speakable : string) (new_slot : Slot) : M RescheduleRes.t :=
  try_except
    (let! summary := expect KeyError (ev_summary existing_event) in
     let original_desc :=
       default ""%string (ev_description existing_event) in
     let description :=
       if truthy (RescheduleReq.notes req)
       then original_desc +:+ nl +:+ "Rescheduled: "
            +:+ default ""%string (RescheduleReq.notes req)
       else original_desc in
     let updated_event :=
       {| b_summary := summary;
          b_description := description;
          b_start := start new_slot;
          b_end := end_ new_slot;
          b_bookingRef := ev_bookingRef existing_event |} in
     let! _ := events_update_execute (ev_id existing_event) updated_event in
     let! sheet_update_success :=
       update_sheet_reschedule booking_ref (start new_slot) (end_ new_slot)
         (str_or (RescheduleReq.notes req)
            ("Rescheduled from " +:+ old_slot_speakable +:+ " to "
             +:+ speakable new_slot)) in
     ret (RescheduleRes.mk true booking_ref (Some old_slot_speakable)
            (Some new_slot) None (Some (speakable new_slot)) None
            (Some ("Updated successfully. Sheet update: "
                   +:+ bool_str sheet_update_success))))
    (fun e =>
       let! msg := exn_message e in
       ret (RescheduleRes.mk false None None None None None
              (Some "update_failed"%string)
              (Some ("Failed to update booking: " +:+ msg)))).

Definition reschedule_booking (payload : validation RescheduleReq.t)
  : M RescheduleRes.t :=
  match payload with
  | Invalid e =>
    ret (RescheduleRes.mk false None None None None None
           (Some "validation_error"%string) (Some e))
  | Valid req =>
    let! (existing_event, booking_ref) :=
      resolve_booking (RescheduleReq.booking_ref req)
        (RescheduleReq.name req) (RescheduleReq.contact req) in
    match existing_event with
    | None =>
      ret (RescheduleRes.mk false None None None None None
             (Some "booking_not_found"%string)
             (Some "No booking found with provided details"%string))
    | Some existing_event =>
      let! appointment_type :=
        (if truthy (RescheduleReq.appointment_type req)
         then ret (default ""%string (RescheduleReq.appointment_type req))
         else let! summary := expect KeyError (ev_summary existing_event) in
              ret (split_head " - " summary)) in
      let! old_start := expect KeyError (ev_start existing_event) in
      let! old_end := expect KeyError (ev_end existing_event) in
      let! old_slot_speakable := speakable_range old_start old_end in
      match du_parse (RescheduleReq.new_preferred_datetime_text req) with
      | None =>
        ret (RescheduleRes.mk false None None None None None
               (Some "invalid_datetime"%string)
               (Some "Could not parse new preferred datetime"%string))
      | Some new_anchor =>
        let! slot_result :=
          find_available_slots
            (RescheduleReq.new_preferred_datetime_text req) 3 in
        let reason := FindSlotsRes.reason slot_result in
        let slots := FindSlotsRes.slots slot_result in
        let! choice :=
          (if bool_decide (reason = Some "preferred_time_available"%string)
           then
             let! new_slot := expect IndexError (head slots) in
             if negb (RescheduleReq.confirm_reschedule req) then
               ret (inl (RescheduleRes.mk true booking_ref
                           (Some old_slot_speakable) (Some new_slot) None
                           None None
                           (Some "preferred_time_available"%string)))
             else ret (inr new_slot)
           else if bool_decide (reason = Some "preferred_time_busy"%string)
           then
             if negb (RescheduleReq.confirm_reschedule req) then
               ret (inl (RescheduleRes.mk false booking_ref
                           (Some old_slot_speakable) None (Some slots)
                           None None (Some "preferred_time_busy"%string)))
             else
               let! new_slot := expect IndexError (head slots) in
               ret (inr new_slot)
           else
             ret (inl (RescheduleRes.mk false None None None None None
                         (Some "no_slots_available"%string)
                         (Some "No available slots found for the requested time period"%string)))) in
        match choice with
        | inl response => ret response
        | inr new_slot =>
          if RescheduleReq.confirm_reschedule req then
            commit_reschedule req existing_event booking_ref
              old_slot_speakable new_slot
          else
            ret (RescheduleRes.mk false None None None None None
                   (Some "unexpected_error"%string)
                   (Some "Unexpected flow in reschedule logic"%string))
        end
      end
    end
  end.

Definition cancel_booking (payload : validation CancelReq.t)
  : M CancelRes.t :=
  match payload with
  | Invalid e =>
    ret (CancelRes.mk false None None (Some "validation_error"%string)
           (Some e))
  | Valid req =>
    let! (existing_event, booking_ref) :=
      resolve_booking (CancelReq.booking_ref req) (CancelReq.name req)
        (CancelReq.contact req) in
    match existing_event with
    | None =>
      ret (CancelRes.mk false None None (Some "booking_not_found"%string)
             (Some "No booking found with provided details"%string))
    | Some existing_event =>
      let! start_time := expect KeyError (ev_start existing_event) in
      let! end_time := expect KeyError (ev_end existing_event) in
      let! cancelled_slot_speakable := speakable_range start_time end_time in
      try_except
        (let! _ := events_delete_execute (ev_id existing_event) in
         let cancellation_reason :=
           str_or (CancelReq.reason req) "No reason provided" in
         let! _ := update_sheet_status booking_ref "cancelled"
                     cancellation_reason in
         ret (CancelRes.mk true booking_ref (Some cancelled_slot_speakable)
                None None))
        (fun e =>
           let! msg := exn_message e in
           ret (CancelRes.mk false None None
                  (Some "cancellation_failed"%string)
                  (Some ("Failed to cancel booking: " +:+ msg))))
    end
  end.

End Program.

(** ** Vocabulary of the properties *)

(** From [w] to [w'] nothing was written: calendar and ledger are the
    same and every request recorded in between is a read. *)
Definition only_reads (w w' : world) : Prop :=
  calendar w' = calendar w /\ sheet w' = sheet w /\
  exists cs, trace w' = cs ++ trace w /\
             Forall (fun c => is_mutation c = false) cs.

(** From [w] to [w'] no request of the given kind was recorded. *)
Definition no_call (kind : call -> bool) (w w' : world) : Prop :=
  exists cs, trace w' = cs ++ trace w /\ Forall (fun c => kind c = false) cs.

Definition is_insert (c : call) : bool :=
  match c with events_insert _ => true | _ => false end.

Definition is_append (c : call) : bool :=
  match c with values_append _ => true | _ => false end.

(** The status column of a ledger row. *)
Definition row_status (row : list string) : option string := row !! 10%nat.

(** Two ledgers of the same length that agree on every row but row [i]. *)
Definition same_except (i : nat) (sh sh' : list (list string)) : Prop :=
  length sh' = length sh /\ forall j, j <> i -> sh' !! j = sh !! j.

(** From [w] to [w'] the calendar is kept and, if row [i] exists, the
    ledger changed in row [i] at most. *)
Definition row_only (i : nat) (w w' : world) : Prop :=
  calendar w' = calendar w /\
  ((i < length (sheet w))%nat -> same_except i (sheet w) (sheet w')).

(** The relation [R] holds from the world a computation starts in to
    the world it ends in. *)
Definition keeps (R : world -> world -> Prop) {A} (m : M A) : Prop :=
  forall w, R w (snd (m w)).

(** The computation never runs out of its iteration budget. *)
Definition terminates {A} (m : M A) : Prop :=
  forall w, fst (m w) <> Diverge.

(** What is the same after a ledger update: the number of rows, every
    row that does not carry the reference or is not open, and so every
    cancelled row. *)
Definition spares_closed_rows (booking_ref : option string)
    (w w' : world) : Prop :=
  length (sheet w') = length (sheet w) /\
  (forall i row, sheet w !! i = Some row -> sheet w' !! i <> Some row ->
     row_has_ref row booking_ref = true /\
     (row_status row = Some "confirmed"%string \/
      row_status row = Some "rescheduled"%string)) /\
  (forall i row, sheet w !! i = Some row ->
     row_status row = Some "cancelled"%string ->
     sheet w' !! i = Some row).

(** The computation never ends with an exception. *)
Definition no_raise {A} (m : M A) : Prop :=
  forall w e, fst (m w) <> Raise e.

(** Every value the computation can return satisfies [Q]. *)
Definition returns {A} (m : M A) (Q : A -> Prop) : Prop :=
  forall w a w', m w = (Ret a, w') -> Q a.

(** A computation that writes nothing, whatever world it starts in. *)
Definition read_only {A} (m : M A) : Prop :=
  forall w, only_reads w (snd (m w)).

(** On the half-hour grid: minute 0 or 30, no seconds, no microseconds. *)
Definition on_grid (d : datetime) : Prop :=
  (minute d = 0 \/ minute d = 30) /\ second d = 0 /\ microsecond d = 0.

Section Vocabulary.

Context {ext : Externals}.

(** What the free/busy query decides about a start instant on a given
    calendar: a business slot whose window of 30 minutes has an empty
    busy set. *)
Definition free_on (cal : list Event) (p : datetime) : bool :=
  is_business_hours p &&
  match dt_add p (td_minutes 30) with
  | Some e => (length (busy_of cal (isoformat p) (isoformat e)) =? 0)%nat
  | None => false
  end.

(** The reference [create_event] computes for a request. *)
Definition request_ref (req : CreateEventReq.t) : string :=
  booking_ref_key (name (CreateEventReq.patient req))
    (contact (CreateEventReq.patient req))
    (start (CreateEventReq.slot req))
    (CreateEventReq.appointment_type req).

(** What [speakable_range] returns when both timestamps parse. *)
Definition speakable_text (start_iso end_iso : string) : option string :=
  match du_isoparse start_iso, du_isoparse end_iso with
  | Some s, Some e =>
    Some (strip_zero (strftime (astimezone s) "%a %b %d, %I:%M %p")
          +:+ " – " +:+ strip_zero (strftime (astimezone e) "%I:%M %p"))
  | _, _ => None
  end.

(** The slot built for the probe [p]: it starts at [p] and ends 30
    minutes later. *)
Definition probe_of (s : Slot) (p : datetime) : Prop :=
  start s = isoformat p /\
  isoformat <$> dt_add p (td_minutes 30) = Some (end_ s).

(** A stretch of a scan: probes in strictly increasing wall-clock order,
    each one a free business slot on the grid, carrying the time zone
    [tz], with its microsecond count in [[lo, hi)]. *)
Definition scanned (cal : list Event) (tz : option Z) (lo hi : Z)
    (ps : list datetime) : Prop :=
  StronglySorted (fun p q => to_us p < to_us q) ps /\
  Forall (fun p => free_on cal p = true /\ wf_datetime p /\ tzinfo p = tz /\
                   on_grid p /\ lo <= to_us p < hi) ps.

(** What the collaborators guarantee about the datetimes they hand out:
    they are datetimes, those of the clock and of the time zone are
    aware; and a timestamp written by [isoformat] parses back. *)
Record ExternalsLaws : Prop := {
  du_parse_wf : forall s d, du_parse s = Some d -> wf_datetime d;
  tz_localize_wf : forall d, wf_datetime d -> wf_datetime (tz_localize d);
  tz_localize_aware : forall d, is_Some (tzinfo (tz_localize d));
  astimezone_wf : forall d, wf_datetime d -> wf_datetime (astimezone d);
  astimezone_aware : forall d, is_Some (tzinfo (astimezone d));
  now_wf : forall w, wf_datetime (now w);
  now_aware : forall w, is_Some (tzinfo (now w));
  isoformat_parses : forall d, is_Some (du_isoparse (isoformat d))
}.

End Vocabulary.

(** Where the weekend loop of the scan leaves a day: a Saturday goes to
    the Monday after it, a Sunday too, any other day stays. *)
Definition skip_weekend_ordinal (d : Z) : Z :=
  if (d + 6) mod 7 =? 5 then d + 2
  else if (d + 6) mod 7 =? 6 then d + 1
  else d.

(** The day after [d] that is not a Saturday or a Sunday, on ordinals. *)
Definition next_weekday (d : Z) : Z := skip_weekend_ordinal (d + 1).

(** The [n] candidate days of a scan that starts on day [d]. *)
Fixpoint candidate_days (n : nat) (d : Z) : list Z :=
  match n with
  | O => []
  | S n' => d :: candidate_days n' (next_weekday d)
  end.

(** ** A concrete instance of the collaborators

    Small stand-ins used to run the handlers: texts and timestamps
    starting with a question mark do not parse, a window is busy when an
    event of the calendar starts at its lower bound, and no request
    fails. [down_ext] is the same with every request failing. *)

Module Demo.

Definition mon10 : datetime := mkdt 739257 10 0 0 0 (Some (-300)).
Definition mon1030 : datetime := mkdt 739257 10 30 0 0 (Some (-300)).
Definition mon11 : datetime := mkdt 739257 11 0 0 0 (Some (-300)).
Definition sat12 : datetime := mkdt 739262 12 0 0 0 (Some (-300)).

Definition parse_table (s : string) : option datetime :=
  match s with
  | String "?" _ => None
  | _ =>
    if String.eqb s "mon 10:50" then Some (mkdt 739257 10 50 0 0 None)
    else if String.eqb s "sat noon" then Some (mkdt 739262 12 0 0 0 None)
    else Some (mkdt 739257 10 0 0 0 None)
  end.

Definition show (d : datetime) : string :=
  "D" +:+ pretty (ordinal d) +:+ "T" +:+ pretty (hour d) +:+ ":"
  +:+ pretty (minute d) +:+ ":" +:+ pretty (second d) +:+ "."
  +:+ pretty (microsecond d).

Definition known : list datetime := [mon10; mon1030; mon11; sat12].

Definition isoparse_table (s : string) : option datetime :=
  match s with
  | String "?" _ => None
  | _ => Some (default mon10
                 (List.find (fun d => String.eqb (show d) s) known))
  end.

Definition starts_at (t : string) (ev : Event) : bool :=
  bool_decide (ev_start ev = Some t).

(** The case mapping of the instance: the ASCII one. *)
Definition lower_ascii : string -> string := str_map ascii_lower.

Definition mentions (q : string) (ev : Event) : bool :=
  str_in (lower_ascii q) (lower_ascii (default ""%string (ev_summary ev))).

(** The conversion of the instance: to the offset of -300 minutes; at
    the far ends of the calendar, where the sum is not a date, the wall
    clock is kept. *)
Definition to_service_zone (d : datetime) : datetime :=
  let r := of_us (Some (-300)) (utc_us d + (-300) * 60000000) in
  if in_calendar r then r
  else mkdt (ordinal d) (hour d) (minute d) (second d) (microsecond d)
            (Some (-300)).

Definition with_faults (f : world -> call -> bool) : Externals :=
  {| sha1_hexdigest := fun s => "a1b2c3" +:+ s;
     lower := lower_ascii;
     du_parse := parse_table;
     du_isoparse := isoparse_table;
     isoformat := show;
     strftime := fun d fmt => fmt +:+ " " +:+ show d;
     tz_localize := fun d => mkdt (ordinal d) (hour d) (minute d) (second d)
                               (microsecond d) (Some (-300));
     astimezone := to_service_zone;
     now := fun _ => mkdt 739256 8 0 0 0 (Some (-300));
     utcnow := fun _ => mkdt 739256 13 0 0 0 None;
     busy_of := fun cal tmin tmax =>
       if existsb (starts_at tmin) cal then [(tmin, tmax)] else [];
     search_of := fun cal q _ => filter (fun ev => mentions q ev = true) cal;
     new_event_id := fun cal _ => "evt" +:+ pretty (length cal);
     fails := f;
     str_exn := fun w _ =>
       match trace w with
       | c :: _ => if is_mutation c then "write refused" else "read refused"
       | [] => "error"
       end%string |}.

Definition demo_ext : Externals := with_faults (fun _ _ => false).
Definition down_ext : Externals := with_faults (fun _ _ => true).

Definition w0 : world := mkWorld [] [] [].

Definition slot10 : Slot :=
  mkSlot (show mon10) (show mon1030) "Mon Jan 6, 10:00 AM – 10:30 AM".

Definition ada : Patient := mkPatient "Ada" "555-0100" None.

Definition create_req (key : option string) : CreateEventReq.t :=
  CreateEventReq.mk "flu shot" slot10 ada key None.

Definition ref10 : string :=
  booking_ref_key (ext := demo_ext) "Ada" "555-0100" (show mon10)
    "flu shot".

Definition booked : Event :=
  mkEvent "evt0" (Some "flu shot - Ada"%string)
    (Some "Contact: 555-0100"%string)
    (Some (show mon10)) (Some (show mon1030)) (Some ref10).

Definition ledger_row (ref status : string) : list string :=
  ["01/05/2025 13:00:00 UTC"; ref; "book"; "flu shot";
   "01/06/2025 10:00 AM"; "01/06/2025 10:30 AM"; "Ada"; "555-0100";
   "retell-chat"; ""; status]%string.

Definition w_booked : world :=
  mkWorld [booked] [ledger_row ref10 "confirmed"] [].

Definition walk_in : Event :=
  mkEvent "evt9" (Some "walk-in"%string) None (Some (show mon10))
    (Some (show mon1030)) None.

Definition w_walk_in : world := mkWorld [walk_in] [] [].

Definition w_cancelled : world :=
  mkWorld [] [ledger_row ref10 "cancelled"] [].

Definition reschedule_req (text : string) (confirm : bool)
  : RescheduleReq.t :=
  RescheduleReq.mk (Some ref10) None None text None confirm None.

End Demo.

(** ** More vocabulary *)

Section MoreVocabulary.

Context {ext : Externals}.

(** The event body [create_event] inserts for a request. *)
Definition created_body (req : CreateEventReq.t) : EventBody :=
  {| b_summary := CreateEventReq.appointment_type req +:+ " - "
                  +:+ name (CreateEventReq.patient req);
     b_description := "Contact: " +:+ contact (CreateEventReq.patient req)
                      +:+ nl +:+ "Ref: " +:+ request_ref req;
     b_start := start (CreateEventReq.slot req);
     b_end := end_ (CreateEventReq.slot req);
     b_bookingRef := Some (request_ref req) |}.

(** The ledger row [create_event] appends for a request, given the time
    of logging and the parsed start and end. *)
Definition created_row (req : CreateEventReq.t) (logged ds de : datetime)
  : list string :=
  [strftime logged "%m/%d/%Y %H:%M:%S UTC"; request_ref req; "book";
   CreateEventReq.appointment_type req;
   strftime (astimezone ds) "%m/%d/%Y %I:%M %p";
   strftime (astimezone de) "%m/%d/%Y %I:%M %p";
   name (CreateEventReq.patient req); contact (CreateEventReq.patient req);
   "retell-chat"; str_or (CreateEventReq.notes req) ""; "confirmed"]%string.

(** The response of a handler that did not find the booking. *)
Definition cancel_not_found : CancelRes.t :=
  CancelRes.mk false None None (Some "booking_not_found"%string)
    (Some "No booking found with provided details"%string).

Definition reschedule_not_found : RescheduleRes.t :=
  RescheduleRes.mk false None None None None None
    (Some "booking_not_found"%string)
    (Some "No booking found with provided details"%string).

(** No free slot of the grid with time zone [tz] and microsecond count
    in [[lo, hi)] is missing from [ps]. *)
Definition covered (cal : list Event) (tz : option Z) (lo hi : Z)
    (ps : list datetime) : Prop :=
  forall p, wf_datetime p -> on_grid p -> tzinfo p = tz ->
            lo <= to_us p < hi -> free_on cal p = true -> p ∈ ps.

End MoreVocabulary.

(** ** More concrete cases

    The instance of [Demo] with a [strftime] that renders the time of
    day the way ["%I:%M %p"] does and a parser that knows two
    timestamps, and a few more worlds. *)

Module Cases.

Definition two_digits (n : Z) : string :=
  if n <? 10 then "0" +:+ pretty n else pretty n.

Definition time_of_day (d : datetime) : string :=
  two_digits (if hour d mod 12 =? 0 then 12 else hour d mod 12)
  +:+ ":" +:+ two_digits (minute d)
  +:+ (if hour d <? 12 then " AM" else " PM").

Definition render (d : datetime) (fmt : string) : string :=
  if String.eqb fmt "%I:%M %p" then time_of_day d
  else "Mon Jan 06, " +:+ time_of_day d.

Definition mon9 : datetime := mkdt 739257 9 0 0 0 (Some (-300)).
Definition mon930 : datetime := mkdt 739257 9 30 0 0 (Some (-300)).

Definition clock_ext : Externals :=
  {| sha1_hexdigest := @sha1_hexdigest Demo.demo_ext;
     lower := @lower Demo.demo_ext;
     du_parse := @du_parse Demo.demo_ext;
     du_isoparse := fun s =>
       if String.eqb s "2025-01-06T09:00:00-05:00" then Some mon9
       else if String.eqb s "2025-01-06T09:30:00-05:00" then Some mon930
       else None;
     isoformat := @isoformat Demo.demo_ext;
     strftime := render;
     tz_localize := @tz_localize Demo.demo_ext;
     astimezone := fun d => d;
     now := @now Demo.demo_ext;
     utcnow := @utcnow Demo.demo_ext;
     busy_of := @busy_of Demo.demo_ext;
     search_of := @search_of Demo.demo_ext;
     new_event_id := @new_event_id Demo.demo_ext;
     fails := fun _ _ => false;
     str_exn := @str_exn Demo.demo_ext |}.

(** A booking that was cancelled and made again: two ledger rows with
    the same reference, the first one closed. *)
Definition w_rebooked : world :=
  mkWorld [Demo.booked]
    [Demo.ledger_row Demo.ref10 "cancelled";
     Demo.ledger_row Demo.ref10 "confirmed"] [].

(** The instance of [Demo] on which only ledger appends fail. *)
Definition ledger_down_ext : Externals := Demo.with_faults (fun _ c => is_append c).

(** The instance of [Demo] on which every write fails. *)
Definition writes_down_ext : Externals :=
  Demo.with_faults (fun _ c => is_mutation c).

(** The instance of [Demo] on which every window is busy. *)
Definition booked_out_ext : Externals :=
  {| sha1_hexdigest := @sha1_hexdigest Demo.demo_ext;
     lower := @lower Demo.demo_ext;
     du_parse := @du_parse Demo.demo_ext;
     du_isoparse := @du_isoparse Demo.demo_ext;
     isoformat := @isoformat Demo.demo_ext;
     strftime := @strftime Demo.demo_ext;
     tz_localize := @tz_localize Demo.demo_ext;
     astimezone := @astimezone Demo.demo_ext;
     now := @now Demo.demo_ext;
     utcnow := @utcnow Demo.demo_ext;
     busy_of := fun _ tmin tmax => [(tmin, tmax)];
     search_of := @search_of Demo.demo_ext;
     new_event_id := @new_event_id Demo.demo_ext;
     fails := fun _ _ => false;
     str_exn := @str_exn Demo.demo_ext |}.

(** A cancel request by reference. *)
Definition cancel_req : CancelReq.t :=
  CancelReq.mk (Some Demo.ref10) None None None.

End Cases.
(** ** Arithmetic of datetimes *)

Lemma to_us_of_us tz n : to_us (of_us tz n) = n.
Proof.
  unfold to_us, of_us; simpl.
  pose proof (Z.div_mod n 1000000 ltac:(lia)) as H1.
  pose proof (Z.div_mod (n / 1000000) 60 ltac:(lia)) as H2.
  pose proof (Z.div_mod (n / 60000000) 60 ltac:(lia)) as H3.
  pose proof (Z.div_mod (n / 3600000000) 24 ltac:(lia)) as H4.
  replace (n / 60000000) with (n / 1000000 / 60) in *
    by (rewrite Z.div_div by lia; reflexivity).
  replace (n / 3600000000) with (n / 1000000 / 60 / 60) in *
    by (rewrite !Z.div_div by lia; reflexivity).
  replace (n / 86400000000) with (n / 1000000 / 60 / 60 / 24)
    by (rewrite !Z.div_div by lia; reflexivity).
  lia.
Qed.

Lemma wf_datetime_time d : wf_datetime d -> wf_time d.
Proof. intros (Hh & Hm & Hs & Hu & _). repeat split; lia. Qed.

Lemma wf_datetime_intro d :
  wf_time d -> min_ordinal <= ordinal d <= max_ordinal -> wf_datetime d.
Proof. intros (Hh & Hm & Hs & Hu) Ho. unfold wf_datetime. lia. Qed.

Lemma wf_time_of_us tz n : wf_time (of_us tz n).
Proof.
  unfold wf_time, of_us; simpl.
  repeat split; try (apply Z.mod_pos_bound; lia).
Qed.

Lemma of_us_to_us d :
  wf_time d -> of_us (tzinfo d) (to_us d) = d.
Proof.
  destruct d as [o h m s u tz]. unfold wf_time, of_us, to_us; simpl.
  intros (Hh & Hm & Hs & Hu).
  assert (E1 : ((((o * 24 + h) * 60 + m) * 60 + s) * 1000000 + u) / 1000000
               = ((o * 24 + h) * 60 + m) * 60 + s).
  { symmetry. apply (Z.div_unique _ _ _ u); lia. }
  assert (E2 : ((((o * 24 + h) * 60 + m) * 60 + s) * 1000000 + u) / 60000000
               = (o * 24 + h) * 60 + m).
  { symmetry. apply (Z.div_unique _ _ _ (s * 1000000 + u)); lia. }
  assert (E3 : ((((o * 24 + h) * 60 + m) * 60 + s) * 1000000 + u) / 3600000000
               = o * 24 + h).
  { symmetry. apply (Z.div_unique _ _ _ ((m * 60 + s) * 1000000 + u)); lia. }
  assert (E4 : ((((o * 24 + h) * 60 + m) * 60 + s) * 1000000 + u) / 86400000000
               = o).
  { symmetry.
    apply (Z.div_unique _ _ _ (((h * 60 + m) * 60 + s) * 1000000 + u)); lia. }
  rewrite E1, E2, E3, E4. f_equal.
  - symmetry. apply (Z.mod_unique _ _ o); lia.
  - symmetry. apply (Z.mod_unique _ _ (o * 24 + h)); lia.
  - symmetry. apply (Z.mod_unique _ _ ((o * 24 + h) * 60 + m)); lia.
  - symmetry.
    apply (Z.mod_unique _ _ (((o * 24 + h) * 60 + m) * 60 + s)); lia.
Qed.

Lemma to_us_shift d delta : to_us (shift d delta) = to_us d + delta.
Proof. apply to_us_of_us. Qed.

Lemma tzinfo_shift d delta : tzinfo (shift d delta) = tzinfo d.
Proof. reflexivity. Qed.

Lemma wf_time_shift d delta : wf_time (shift d delta).
Proof. apply wf_time_of_us. Qed.

Lemma utc_us_shift d delta : utc_us (shift d delta) = utc_us d + delta.
Proof. unfold utc_us. rewrite to_us_shift, tzinfo_shift. lia. Qed.

(** A wall-clock sum is the datetime with the right microsecond count. *)
Lemma shift_eq d delta r :
  wf_time r -> tzinfo r = tzinfo d -> to_us r = to_us d + delta ->
  shift d delta = r.
Proof.
  intros Hwf Htz Hus. unfold shift. rewrite <- Hus, <- Htz.
  apply of_us_to_us, Hwf.
Qed.

(** The wall-clock sums the module forms, field by field. *)
Lemma shift_one_hour d :
  wf_time d ->
  shift d (td_hours 1) =
  {| ordinal := if hour d =? 23 then ordinal d + 1 else ordinal d;
     hour := if hour d =? 23 then 0 else hour d + 1;
     minute := minute d; second := second d;
     microsecond := microsecond d; tzinfo := tzinfo d |}.
Proof.
  intros (Hh & Hm & Hs & Hu). apply shift_eq.
  - unfold wf_time; simpl. destruct (Z.eqb_spec (hour d) 23); lia.
  - reflexivity.
  - unfold to_us, td_hours; simpl. destruct (Z.eqb_spec (hour d) 23); lia.
Qed.

Lemma shift_one_day d :
  wf_time d ->
  shift d (td_days 1) =
  mkdt (ordinal d + 1) (hour d) (minute d) (second d) (microsecond d)
       (tzinfo d).
Proof.
  intros Hwf. apply shift_eq; [exact Hwf | reflexivity |].
  unfold to_us, td_days; simpl. lia.
Qed.

Lemma shift_half_hour d :
  wf_time d -> on_grid d ->
  shift d (td_minutes 30) =
  if minute d =? 0
  then mkdt (ordinal d) (hour d) 30 0 0 (tzinfo d)
  else mkdt (if hour d =? 23 then ordinal d + 1 else ordinal d)
            (if hour d =? 23 then 0 else hour d + 1) 0 0 0 (tzinfo d).
Proof.
  intros (Hh & Hm' & Hs' & Hu') (Hm & Hs & Hu). apply shift_eq.
  - destruct (Z.eqb_spec (minute d) 0); unfold wf_time; simpl; [lia |].
    destruct (Z.eqb_spec (hour d) 23); lia.
  - destruct (minute d =? 0); reflexivity.
  - unfold to_us, td_minutes.
    destruct (Z.eqb_spec (minute d) 0); simpl; [lia |].
    destruct (Z.eqb_spec (hour d) 23); lia.
Qed.

Lemma on_grid_shift_half_hour d :
  wf_time d -> on_grid d -> on_grid (shift d (td_minutes 30)).
Proof.
  intros Hwf Hg. rewrite (shift_half_hour d Hwf Hg). unfold on_grid.
  destruct (minute d =? 0); simpl; lia.
Qed.

(** ** Sums that stay in the calendar *)

Lemma in_calendar_spec d :
  in_calendar d = true <-> min_ordinal <= ordinal d <= max_ordinal.
Proof. unfold in_calendar. rewrite andb_true_iff, !Z.leb_le. reflexivity. Qed.

Lemma dt_add_Some d delta r :
  dt_add d delta = Some r <->
  r = shift d delta /\ min_ordinal <= ordinal r <= max_ordinal.
Proof.
  unfold dt_add. cbv zeta.
  destruct (in_calendar (shift d delta)) eqn:E.
  - apply in_calendar_spec in E. split.
    + intros H. inversion H; subst. split; [reflexivity | exact E].
    + intros [-> _]. reflexivity.
  - split; [discriminate |]. intros [-> H].
    apply in_calendar_spec in H. congruence.
Qed.

Lemma dt_add_None d delta :
  dt_add d delta = None <->
  ~ (min_ordinal <= ordinal (shift d delta) <= max_ordinal).
Proof.
  unfold dt_add. cbv zeta. rewrite <- in_calendar_spec.
  destruct (in_calendar (shift d delta)); split; try discriminate;
    try congruence; try reflexivity.
Qed.

(** A sum that exists is a datetime, with the tzinfo of the argument and
    the microsecond count moved by the timedelta. *)
Lemma dt_add_wf d delta r : dt_add d delta = Some r -> wf_datetime r.
Proof.
  intros H. apply dt_add_Some in H as [-> Ho].
  apply wf_datetime_intro; [apply wf_time_shift | exact Ho].
Qed.

Lemma dt_add_tzinfo d delta r : dt_add d delta = Some r -> tzinfo r = tzinfo d.
Proof. intros H. apply dt_add_Some in H as [-> _]. reflexivity. Qed.

Lemma dt_add_to_us d delta r :
  dt_add d delta = Some r -> to_us r = to_us d + delta.
Proof. intros H. apply dt_add_Some in H as [-> _]. apply to_us_shift. Qed.

Lemma dt_add_utc_us d delta r :
  dt_add d delta = Some r -> utc_us r = utc_us d + delta.
Proof. intros H. apply dt_add_Some in H as [-> _]. apply utc_us_shift. Qed.

(** Adding one hour overflows in the last hour of the calendar only. *)
Lemma dt_add_one_hour d :
  wf_datetime d ->
  dt_add d (td_hours 1) =
  if (hour d =? 23) && (ordinal d =? max_ordinal) then None
  else Some {| ordinal := if hour d =? 23 then ordinal d + 1 else ordinal d;
               hour := if hour d =? 23 then 0 else hour d + 1;
               minute := minute d; second := second d;
               microsecond := microsecond d; tzinfo := tzinfo d |}.
Proof.
  intros Hwf. pose proof (wf_datetime_time d Hwf) as Ht.
  destruct Hwf as (_ & _ & _ & _ & Ho).
  destruct ((hour d =? 23) && (ordinal d =? max_ordinal)) eqn:E.
  - apply andb_prop in E as [E1 E2].
    apply Z.eqb_eq in E1. apply Z.eqb_eq in E2.
    apply dt_add_None. rewrite (shift_one_hour d Ht). simpl.
    rewrite E1. simpl. lia.
  - apply dt_add_Some. split; [symmetry; apply shift_one_hour, Ht |].
    simpl. apply andb_false_iff in E.
    destruct (Z.eqb_spec (hour d) 23); [| lia].
    destruct E as [E | E]; [discriminate |].
    apply Z.eqb_neq in E. lia.
Qed.

(** Adding one day overflows on the last day of the calendar only. *)
Lemma dt_add_one_day d :
  wf_datetime d ->
  dt_add d (td_days 1) =
  if ordinal d =? max_ordinal then None
  else Some (mkdt (ordinal d + 1) (hour d) (minute d) (second d)
               (microsecond d) (tzinfo d)).
Proof.
  intros Hwf. pose proof (wf_datetime_time d Hwf) as Ht.
  destruct Hwf as (_ & _ & _ & _ & Ho).
  destruct (Z.eqb_spec (ordinal d) max_ordinal) as [E | E].
  - apply dt_add_None. rewrite (shift_one_day d Ht). simpl. lia.
  - apply dt_add_Some. split; [symmetry; apply shift_one_day, Ht |].
    simpl. lia.
Qed.

(** Half an hour after a grid point before 23:30 is a grid point of the
    same day: this sum never overflows. *)
Lemma dt_add_half_hour d :
  wf_datetime d -> on_grid d -> hour d < 23 \/ minute d = 0 ->
  dt_add d (td_minutes 30) =
  Some (if minute d =? 0
        then mkdt (ordinal d) (hour d) 30 0 0 (tzinfo d)
        else mkdt (ordinal d) (hour d + 1) 0 0 0 (tzinfo d)).
Proof.
  intros Hwf Hg Hh. pose proof (wf_datetime_time d Hwf) as Ht.
  destruct Hwf as (_ & _ & _ & _ & Ho).
  apply dt_add_Some. rewrite (shift_half_hour d Ht Hg).
  destruct (Z.eqb_spec (minute d) 0) as [E | E].
  - split; [reflexivity | exact Ho].
  - destruct (Z.eqb_spec (hour d) 23); [lia |].
    split; [reflexivity | exact Ho].
Qed.

Lemma business_hours_inv p :
  is_business_hours p = true ->
  (ordinal p + 6) mod 7 < 5 /\ 9 <= hour p < 18 /\
  (minute p = 0 \/ minute p = 30).
Proof.
  unfold is_business_hours, weekday.
  destruct (Z.leb_spec 5 ((ordinal p + 6) mod 7)); [discriminate |].
  destruct (Z.ltb_spec (hour p) 9); [discriminate |].
  destruct (Z.leb_spec 18 (hour p)); [discriminate |]. cbn [orb].
  destruct (Z.eqb_spec (minute p) 0); [intros _; lia |].
  destruct (Z.eqb_spec (minute p) 30); [intros _; lia |].
  discriminate.
Qed.

(** The window of a business slot: the sum exists for every datetime in
    business hours, whatever its seconds. *)
Lemma dt_add_business d :
  wf_datetime d -> is_business_hours d = true ->
  dt_add d (td_minutes 30) = Some (shift d (td_minutes 30)) /\
  ordinal (shift d (td_minutes 30)) = ordinal d.
Proof.
  intros Hwf Hb. apply business_hours_inv in Hb as (_ & Hh & Hm).
  destruct Hwf as (_ & _ & Hs & Hu & Ho).
  set (r := mkdt (ordinal d) (if minute d =? 0 then hour d else hour d + 1)
              (if minute d =? 0 then 30 else 0) (second d) (microsecond d)
              (tzinfo d)).
  assert (Hr : shift d (td_minutes 30) = r).
  { apply shift_eq.
    - unfold wf_time, r; simpl. destruct (Z.eqb_spec (minute d) 0); lia.
    - reflexivity.
    - unfold to_us, td_minutes, r; simpl.
      destruct (Z.eqb_spec (minute d) 0); lia. }
  split; [| rewrite Hr; reflexivity].
  apply dt_add_Some. split; [reflexivity |]. rewrite Hr. exact Ho.
Qed.

Lemma wf_replace_hour d h :
  wf_datetime d -> 0 <= h < 24 -> wf_datetime (replace_hour d h 0 0 0).
Proof. intros (_ & _ & _ & _ & Ho) Hh. unfold wf_datetime; simpl. lia. Qed.

(** ** Rounding *)

Lemma round_on_grid d r : round_to_next_half_hour d = Some r -> on_grid r.
Proof.
  unfold round_to_next_half_hour, on_grid.
  destruct (((minute d =? 0) || (minute d =? 30)) && (second d =? 0)
            && (microsecond d =? 0)) eqn:E.
  - apply andb_prop in E as [E Eu]. apply andb_prop in E as [Em Es].
    apply orb_prop in Em. intros H. inversion H; subst. lia.
  - repeat case_match; intros Hr; inversion Hr; subst; simpl; lia.
Qed.

Lemma round_fixed_on_grid d :
  on_grid d -> round_to_next_half_hour d = Some d.
Proof.
  intros (Hm & Hs & Hu). unfold round_to_next_half_hour.
  rewrite Hs, Hu. destruct Hm as [-> | ->]; reflexivity.
Qed.

Lemma round_tzinfo d r :
  round_to_next_half_hour d = Some r -> tzinfo r = tzinfo d.
Proof.
  unfold round_to_next_half_hour.
  repeat case_match; intros Hr; inversion Hr; subst; try reflexivity.
  simpl. eapply dt_add_tzinfo. eassumption.
Qed.

Lemma wf_round d r :
  wf_datetime d -> round_to_next_half_hour d = Some r -> wf_datetime r.
Proof.
  intros Hwf. unfold round_to_next_half_hour.
  repeat case_match; intros Hr; inversion Hr; subst; try exact Hwf.
  - destruct Hwf as (Hh & _ & _ & _ & Ho). unfold wf_datetime; simpl. lia.
  - destruct Hwf as (Hh & _ & _ & _ & Ho). unfold wf_datetime; simpl. lia.
  - match goal with
    | E : dt_add _ _ = Some _ |- _ =>
        apply dt_add_wf in E; destruct E as (Hh & _ & _ & _ & Ho)
    end.
    unfold wf_datetime; simpl. lia.
Qed.

(** Rounding fails in the last quarter of an hour of the calendar and
    nowhere else. *)
Lemma round_None d :
  wf_datetime d ->
  (round_to_next_half_hour d = None <->
   ordinal d = max_ordinal /\ hour d = 23 /\ 45 <= minute d).
Proof.
  intros Hwf. unfold round_to_next_half_hour.
  rewrite (dt_add_one_hour d Hwf).
  pose proof Hwf as (Hh & Hm & Hs & Hu & Ho).
  destruct (((minute d =? 0) || (minute d =? 30)) && (second d =? 0)
            && (microsecond d =? 0)) eqn:E.
  - apply andb_prop in E as [E Eu]. apply andb_prop in E as [Em Es].
    apply orb_prop in Em. split; [discriminate | lia].
  - destruct (Z.ltb_spec (minute d) 15); [split; [discriminate | lia] |].
    destruct (Z.ltb_spec (minute d) 45); [split; [discriminate | lia] |].
    destruct (Z.eqb_spec (hour d) 23), (Z.eqb_spec (ordinal d) max_ordinal);
      cbn [andb]; split; try discriminate; try lia; reflexivity.
Qed.

(** The ordinal of a datetime is fixed by its microsecond count. *)
Lemma to_us_day_bounds d :
  wf_time d ->
  ordinal d * 86400000000 <= to_us d < (ordinal d + 1) * 86400000000.
Proof. intros (Hh & Hm & Hs & Hu). unfold to_us. lia. Qed.

Lemma next_weekday_after d : d < next_weekday d.
Proof. unfold next_weekday, skip_weekend_ordinal. repeat case_match; lia. Qed.

(** C6. Half-hour rounding: a datetime with minute below 15 goes to :00
    of the same hour, one with minute from 15 to 44 goes to :30 of the
    same hour, one with minute 45 or more goes to :00 of the next hour
    (the next day's 00:00 after 23:45), unless there is no next hour:
    in the last quarter of an hour of 9999-12-31 the sum overflows and
    the function raises instead of returning. Seconds and microseconds
    end up zero, and rounding a result again gives the same result. *)
Theorem round_to_next_half_hour_spec (t : datetime) :
  wf_datetime t ->
  (minute t < 15 ->
   round_to_next_half_hour t =
   Some (mkdt (ordinal t) (hour t) 0 0 0 (tzinfo t))) /\
  (15 <= minute t < 45 ->
   round_to_next_half_hour t =
   Some (mkdt (ordinal t) (hour t) 30 0 0 (tzinfo t))) /\
  (45 <= minute t ->
   round_to_next_half_hour t =
   if (hour t =? 23) && (ordinal t =? max_ordinal) then None
   else Some (mkdt (if hour t =? 23 then ordinal t + 1 else ordinal t)
                (if hour t =? 23 then 0 else hour t + 1) 0 0 0 (tzinfo t))) /\
  (forall r, round_to_next_half_hour t = Some r ->
     wf_datetime r /\ round_to_next_half_hour r = Some r).
Proof.
  intros Hwf. split; [| split; [| split]].
  - intros Hlt. unfold round_to_next_half_hour.
    destruct (((minute t =? 0) || (minute t =? 30)) && (second t =? 0)
              && (microsecond t =? 0)) eqn:E.
    + apply andb_prop in E as [E Eu]. apply andb_prop in E as [Em Es].
      apply orb_prop in Em. destruct t as [o h m s u tz]; simpl in *.
      do 2 f_equal; lia.
    + destruct (Z.ltb_spec (minute t) 15); [reflexivity | lia].
  - intros [Hlo Hhi]. unfold round_to_next_half_hour.
    destruct (((minute t =? 0) || (minute t =? 30)) && (second t =? 0)
              && (microsecond t =? 0)) eqn:E.
    + apply andb_prop in E as [E Eu]. apply andb_prop in E as [Em Es].
      apply orb_prop in Em. destruct t as [o h m s u tz]; simpl in *.
      do 2 f_equal; lia.
    + destruct (Z.ltb_spec (minute t) 15); [lia |].
      destruct (Z.ltb_spec (minute t) 45); [reflexivity | lia].
  - intros Hge. unfold round_to_next_half_hour.
    destruct (((minute t =? 0) || (minute t =? 30)) && (second t =? 0)
              && (microsecond t =? 0)) eqn:E.
    + apply andb_prop in E as [E Eu]. apply andb_prop in E as [Em Es].
      apply orb_prop in Em. destruct Hwf as (_ & Hm & _). lia.
    + destruct (Z.ltb_spec (minute t) 15); [lia |].
      destruct (Z.ltb_spec (minute t) 45); [lia |].
      rewrite (dt_add_one_hour t Hwf).
      destruct ((hour t =? 23) && (ordinal t =? max_ordinal)); reflexivity.
  - intros r Hr. split; [exact (wf_round t r Hwf Hr) |].
    apply round_fixed_on_grid. exact (round_on_grid t r Hr).
Qed.

Lemma round_to_next_half_hour_spec_witness :
  let t := mkdt 739000 23 50 12 7 (Some (-300)) in
  wf_datetime t /\
  round_to_next_half_hour t = Some (mkdt 739001 0 0 0 0 (Some (-300))) /\
  round_to_next_half_hour (mkdt 739001 0 0 0 0 (Some (-300)))
    = Some (mkdt 739001 0 0 0 0 (Some (-300))).
Proof.
  assert (Hwf : wf_datetime (mkdt 739000 23 50 12 7 (Some (-300)))).
  { unfold wf_datetime, min_ordinal, max_ordinal; simpl; lia. }
  destruct (round_to_next_half_hour_spec _ Hwf) as (_ & _ & H45 & Hidem).
  assert (H : round_to_next_half_hour (mkdt 739000 23 50 12 7 (Some (-300)))
              = Some (mkdt 739001 0 0 0 0 (Some (-300)))).
  { rewrite H45; [reflexivity | simpl; lia]. }
  split; [exact Hwf |]. split; [exact H |]. apply (Hidem _ H).
Defined.

(** C6, as claimed, fails on the last day of the calendar: 9999-12-31
    23:45 is a datetime with minute 45, and the function does not map
    it to :00 of the next hour, it raises [OverflowError]. *)
Lemma round_to_next_half_hour_overflows :
  let t := mkdt max_ordinal 23 45 0 0 None in
  wf_datetime t /\ 45 <= minute t /\
  round_to_next_half_hour t = None /\
  forall r, round_to_next_half_hour t <> Some r.
Proof.
  split; [unfold wf_datetime, min_ordinal, max_ordinal; simpl; lia |].
  split; [simpl; lia |]. split; [reflexivity |].
  intros r H. vm_compute in H. discriminate H.
Qed.

(** ** More on the time utilities *)

(** X1. Rounding goes to a nearest grid point: when it returns, the
    result is a datetime on the half-hour grid with the same tzinfo, at
    most 15 minutes after the argument and less than 15 minutes before
    it; it fails to return, with [OverflowError], exactly for the
    datetimes from 23:45 on of the last day of the calendar. *)
Theorem round_to_next_half_hour_nearest (t : datetime) :
  wf_datetime t ->
  match round_to_next_half_hour t with
  | Some r =>
    wf_datetime r /\ on_grid r /\ tzinfo r = tzinfo t /\
    - td_minutes 15 < to_us r - to_us t <= td_minutes 15
  | None => ordinal t = max_ordinal /\ hour t = 23 /\ 45 <= minute t
  end.
Proof.
  intros Hwf.
  destruct (round_to_next_half_hour t) as [r |] eqn:Hr;
    [| apply (round_None t Hwf), Hr].
  split; [exact (wf_round t r Hwf Hr) |].
  split; [exact (round_on_grid t r Hr) |].
  split; [exact (round_tzinfo t r Hr) |].
  revert Hr. unfold round_to_next_half_hour.
  destruct (((minute t =? 0) || (minute t =? 30)) && (second t =? 0)
            && (microsecond t =? 0)) eqn:E.
  - intros Hr. inversion Hr; subst. unfold td_minutes. lia.
  - assert (Hns : ~ ((minute t = 0 \/ minute t = 30) /\ second t = 0 /\
                     microsecond t = 0)).
    { intros ([Hm | Hm] & Hs & Hu); rewrite Hm, Hs, Hu in E; discriminate E. }
    rewrite (dt_add_one_hour t Hwf).
    destruct Hwf as (Hh & Hm & Hs & Hu & Ho).
    destruct (Z.ltb_spec (minute t) 15) as [L15 | L15];
      [| destruct (Z.ltb_spec (minute t) 45) as [L45 | L45]].
    + intros Hr. inversion Hr; subst.
      unfold to_us, td_minutes; simpl. lia.
    + intros Hr. inversion Hr; subst.
      unfold to_us, td_minutes; simpl. lia.
    + destruct ((hour t =? 23) && (ordinal t =? max_ordinal));
        [discriminate |].
      intros Hr. inversion Hr; subst.
      unfold to_us, td_minutes; simpl.
      destruct (Z.eqb_spec (hour t) 23); lia.
Qed.

Lemma round_to_next_half_hour_nearest_witness :
  let t := mkdt 739257 9 44 59 999999 None in
  wf_datetime t /\
  exists r, round_to_next_half_hour t = Some r /\
            to_us r - to_us t <= td_minutes 15.
Proof.
  assert (Hwf : wf_datetime (mkdt 739257 9 44 59 999999 None))
    by (unfold wf_datetime, min_ordinal, max_ordinal; simpl; lia).
  split; [exact Hwf |].
  pose proof (round_to_next_half_hour_nearest _ Hwf) as H.
  destruct (round_to_next_half_hour (mkdt 739257 9 44 59 999999 None))
    as [r |] eqn:E; [| vm_compute in E; discriminate E].
  exists r. split; [reflexivity | apply H].
Defined.

(** X2. The business slots are exactly the 18 half-hour starts from
    9:00 to 17:30 on Monday to Friday: seconds and microseconds are not
    looked at, and the window of 30 minutes that starts on the grid at
    a business slot exists and ends on the same day, at 18:00 at the
    latest. *)
Theorem is_business_hours_slots (d : datetime) :
  wf_datetime d ->
  (is_business_hours d = true <->
   weekday d < 5 /\
   exists k, 0 <= k < 18 /\ hour d * 60 + minute d = 540 + 30 * k) /\
  (is_business_hours d = true -> on_grid d ->
   exists e, dt_add d (td_minutes 30) = Some e /\
             ordinal e = ordinal d /\ hour e * 60 + minute e <= 1080).
Proof.
  intros Hwf. pose proof Hwf as (Hh & Hm & Hs & Hu & Ho). split.
  - unfold is_business_hours.
    destruct (Z.leb_spec 5 (weekday d)) as [Hw | Hw].
    { split; [discriminate | lia]. }
    destruct (Z.ltb_spec (hour d) 9) as [H9 | H9]; cbn [orb].
    { split; [discriminate |]. intros (_ & k & Hk & Hq). lia. }
    destruct (Z.leb_spec 18 (hour d)) as [H18 | H18].
    { split; [discriminate |]. intros (_ & k & Hk & Hq). lia. }
    destruct (Z.eqb_spec (minute d) 0) as [M0 | M0]; cbn [orb negb].
    { split; [| reflexivity]. intros _. split; [exact Hw |].
      exists (2 * (hour d - 9)). lia. }
    destruct (Z.eqb_spec (minute d) 30) as [M30 | M30]; cbn [negb].
    { split; [| reflexivity]. intros _. split; [exact Hw |].
      exists (2 * (hour d - 9) + 1). lia. }
    split; [discriminate |]. intros (_ & k & Hk & Hq). lia.
  - intros Hb Hg. apply business_hours_inv in Hb as (_ & Hb & _).
    rewrite (dt_add_half_hour d Hwf Hg) by lia.
    eexists. split; [reflexivity |].
    destruct (Z.eqb_spec (minute d) 0); simpl; [lia |].
    destruct Hg as ([Hg | Hg] & _); lia.
Qed.

Lemma is_business_hours_slots_witness :
  let d := mkdt 739257 17 30 0 0 None in
  wf_datetime d /\ is_business_hours d = true /\
  dt_add d (td_minutes 30) = Some (mkdt 739257 18 0 0 0 None).
Proof.
  assert (Hwf : wf_datetime (mkdt 739257 17 30 0 0 None))
    by (unfold wf_datetime, min_ordinal, max_ordinal; simpl; lia).
  split; [exact Hwf |]. split; [reflexivity |].
  destruct (is_business_hours_slots _ Hwf) as [_ Hwin].
  destruct Hwin as (e & He & _); [reflexivity | unfold on_grid; simpl; lia |].
  rewrite He. vm_compute in He. inversion He; subst. reflexivity.
Defined.

(** ** Strings *)

Lemma startswith_cons a p b s :
  startswith (String a p) (String b s)
  = if Ascii.eqb a b then startswith p s else false.
Proof. reflexivity. Qed.

Lemma str_in_cons x c r :
  str_in x (String c r) = startswith x (String c r) || str_in x r.
Proof. reflexivity. Qed.

Lemma strip_zero_cons c r :
  strip_zero (String c r) =
  if Ascii.eqb c " " && startswith "0" r
  then String " " (strip_zero (str_drop 1 r))
  else String c (strip_zero r).
Proof.
  destruct (Ascii.eqb_spec c " ") as [-> | Hc]; cbn [andb].
  - destruct r as [| c2 r2]; [reflexivity |].
    cbn [startswith str_drop].
    destruct (Ascii.eqb_spec "0" c2) as [<- | Hc2]; [reflexivity |].
    destruct c2 as [[] [] [] [] [] [] [] []]; try reflexivity; congruence.
  - destruct c as [[] [] [] [] [] [] [] []]; try reflexivity; congruence.
Qed.

Lemma strip_zero_first c s :
  startswith (String c EmptyString) (strip_zero s)
  = startswith (String c EmptyString) s.
Proof.
  destruct s as [| c1 r]; [reflexivity |]. rewrite strip_zero_cons.
  destruct (Ascii.eqb_spec c1 " ") as [-> | Hc]; cbn [andb];
    [destruct (startswith "0" r) |]; reflexivity.
Qed.

Lemma str_in_tail x c r : str_in x (String c r) = false -> str_in x r = false.
Proof. cbn [str_in]. intros H. apply orb_false_elim in H as [_ H]. exact H. Qed.

Lemma strip_zero_id s : str_in " 0" s = false -> strip_zero s = s.
Proof.
  induction s as [| c r IH]; [reflexivity |]. intros H.
  rewrite strip_zero_cons.
  pose proof (str_in_tail _ _ _ H) as Hr. rewrite str_in_cons in H.
  apply orb_false_elim in H as [H _]. rewrite startswith_cons in H.
  destruct (Ascii.eqb_spec c " ") as [-> | Hc]; cbn [andb].
  - rewrite Ascii.eqb_refl in H. rewrite H. rewrite IH by exact Hr.
    reflexivity.
  - rewrite IH by exact Hr. reflexivity.
Qed.

Lemma strip_zero_clean_upto n :
  forall s, (String.length s <= n)%nat ->
  str_in " 00" s = false -> str_in " 0" (strip_zero s) = false.
Proof.
  induction n as [| n IH]; intros s Hn H.
  - destruct s; [reflexivity | cbn in Hn; lia].
  - destruct s as [| c r]; [reflexivity |].
    cbn [String.length] in Hn.
    pose proof (str_in_tail _ _ _ H) as Hr.
    rewrite str_in_cons in H. apply orb_false_elim in H as [H _].
    rewrite startswith_cons in H.
    rewrite strip_zero_cons.
    destruct (Ascii.eqb_spec c " ") as [-> | Hc]; cbn [andb].
    + rewrite Ascii.eqb_refl in H.
      destruct r as [| c2 r2]; [reflexivity |].
      rewrite startswith_cons in H. rewrite startswith_cons.
      cbn [str_drop].
      destruct (Ascii.eqb_spec "0" c2) as [<- | Hc2].
      * cbn [String.length] in Hn.
        pose proof (str_in_tail _ _ _ Hr) as Hr2.
        cbn [startswith]. rewrite str_in_cons, startswith_cons.
        rewrite Ascii.eqb_refl.
        rewrite (strip_zero_first "0" r2), H.
        apply IH; [lia | exact Hr2].
      * rewrite str_in_cons, startswith_cons. rewrite Ascii.eqb_refl.
        rewrite (strip_zero_first "0" (String c2 r2)).
        rewrite startswith_cons.
        destruct (Ascii.eqb_spec "0" c2); [congruence |].
        apply IH; [lia | exact Hr].
    + rewrite str_in_cons, startswith_cons.
      destruct (Ascii.eqb_spec " " c); [congruence |].
      apply IH; [lia | exact Hr].
Qed.

Lemma strip_zero_clean s :
  str_in " 00" s = false -> str_in " 0" (strip_zero s) = false.
Proof. apply (strip_zero_clean_upto (String.length s)). lia. Qed.

Lemma length_str_map f s : String.length (str_map f s) = String.length s.
Proof. induction s as [| c r IH]; cbn; congruence. Qed.

Lemma length_str_take n s :
  String.length (str_take n s) = Nat.min n (String.length s).
Proof.
  revert s. induction n as [| n IH]; intros [| c r]; cbn; try reflexivity.
  rewrite IH. reflexivity.
Qed.

Lemma length_str_drop n s :
  String.length (str_drop n s) = (String.length s - n)%nat.
Proof.
  revert s. induction n as [| n IH]; intros [| c r]; cbn; try reflexivity.
  apply IH.
Qed.

Lemma append_cons c (a b : string) : String c a +:+ b = String c (a +:+ b).
Proof. reflexivity. Qed.

Lemma length_append (a b : string) :
  String.length (a +:+ b) = (String.length a + String.length b)%nat.
Proof.
  induction a as [| c r IH]; [reflexivity |].
  rewrite !append_cons. simpl. f_equal. exact IH.
Qed.

Lemma str_take_drop n s : str_take n s +:+ str_drop n s = s.
Proof.
  revert s. induction n as [| n IH]; intros [| c r]; try reflexivity.
  cbn [str_take str_drop]. rewrite append_cons. f_equal. apply IH.
Qed.

Lemma ascii_upper_idem c : ascii_upper (ascii_upper c) = ascii_upper c.
Proof. destruct c as [[] [] [] [] [] [] [] []]; reflexivity. Qed.

Lemma upper_idem s : upper (upper s) = upper s.
Proof.
  unfold upper. induction s as [| c r IH]; cbn; [reflexivity |].
  rewrite ascii_upper_idem, IH. reflexivity.
Qed.

Lemma str_map_append f a b :
  str_map f (a +:+ b) = str_map f a +:+ str_map f b.
Proof.
  induction a as [| c r IH]; [reflexivity |].
  rewrite append_cons. cbn [str_map]. rewrite append_cons.
  f_equal. exact IH.
Qed.

Lemma str_map_take f n s : str_map f (str_take n s) = str_take n (str_map f s).
Proof.
  revert s. induction n as [| n IH]; intros [| c r]; cbn; try reflexivity.
  rewrite IH. reflexivity.
Qed.

Lemma str_map_drop f n s : str_map f (str_drop n s) = str_drop n (str_map f s).
Proof.
  revert s. induction n as [| n IH]; intros [| c r]; cbn; try reflexivity.
  apply IH.
Qed.

Lemma append_assoc (a b c : string) : (a +:+ b) +:+ c = a +:+ (b +:+ c).
Proof.
  induction a as [| x r IH]; [reflexivity |].
  rewrite !append_cons. f_equal. exact IH.
Qed.

(** ** Frames: computations that only read *)

Section Properties.

Context {ext : Externals}.

Lemma only_reads_refl w : only_reads w w.
Proof.
  split; [reflexivity |]. split; [reflexivity |].
  exists []. split; [reflexivity | constructor].
Qed.

Lemma only_reads_trans w1 w2 w3 :
  only_reads w1 w2 -> only_reads w2 w3 -> only_reads w1 w3.
Proof.
  intros (Hc1 & Hs1 & cs1 & Ht1 & Hf1) (Hc2 & Hs2 & cs2 & Ht2 & Hf2).
  split; [congruence |]. split; [congruence |].
  exists (cs2 ++ cs1). split.
  - rewrite Ht2, Ht1. apply app_assoc.
  - apply Forall_app. split; assumption.
Qed.

Lemma only_reads_record c w :
  is_mutation c = false -> only_reads w (record_call c w).
Proof.
  intros Hc. split; [reflexivity |]. split; [reflexivity |].
  exists [c]. split; [reflexivity |]. constructor; [exact Hc | constructor].
Qed.

Lemma only_reads_no_call (kind : call -> bool) w w' :
  (forall c, kind c = true -> is_mutation c = true) ->
  only_reads w w' -> no_call kind w w'.
Proof.
  intros Hk (_ & _ & cs & Ht & Hf). exists cs. split; [exact Ht |].
  eapply Forall_impl; [exact Hf |]. intros c Hc; simpl in Hc.
  destruct (kind c) eqn:E; [| reflexivity].
  apply Hk in E. congruence.
Qed.

Lemma read_only_ret {A} (a : A) : read_only (ret a).
Proof. intros w. apply only_reads_refl. Qed.

Lemma read_only_raise {A} e : read_only (@raise A e).
Proof. intros w. apply only_reads_refl. Qed.

Lemma read_only_diverge {A} : read_only (@diverge A).
Proof. intros w. apply only_reads_refl. Qed.

Lemma read_only_expect {A} e (o : option A) : read_only (expect e o).
Proof. destruct o; [apply read_only_ret | apply read_only_raise]. Qed.

Lemma read_only_bind {A B} (m : M A) (k : A -> M B) :
  read_only m -> (forall a, read_only (k a)) -> read_only (bind m k).
Proof.
  intros Hm Hk w. unfold bind. specialize (Hm w).
  destruct (m w) as [[a | e |] w1]; simpl in *; try exact Hm.
  eapply only_reads_trans; [exact Hm | apply Hk].
Qed.

Lemma read_only_try_except {A} (m : M A) (h : exn -> M A) :
  read_only m -> (forall e, read_only (h e)) -> read_only (try_except m h).
Proof.
  intros Hm Hh w. unfold try_except. specialize (Hm w).
  destruct (m w) as [[a | e |] w1]; simpl in *; try exact Hm.
  eapply only_reads_trans; [exact Hm | apply Hh].
Qed.

Lemma read_only_request {A} c (f : world -> outcome A) :
  is_mutation c = false -> read_only (request c (fun w => (f w, w))).
Proof.
  intros Hc w. unfold request.
  destruct (fails w c); simpl; apply only_reads_record, Hc.
Qed.

Lemma read_only_get_now : read_only get_now.
Proof. intros w. apply only_reads_refl. Qed.

Lemma read_only_get_utcnow : read_only get_utcnow.
Proof. intros w. apply only_reads_refl. Qed.

Lemma read_only_freebusy_execute a b : read_only (freebusy_execute a b).
Proof.
  apply (read_only_request _ (fun w => Ret (busy_of (calendar w) a b))).
  reflexivity.
Qed.

Lemma read_only_events_list_ref_execute ref :
  read_only (events_list_ref_execute ref).
Proof.
  apply (read_only_request _
    (fun w => Ret (take 1 (filter (fun ev => has_ref ref ev = true)
                             (calendar w))))).
  reflexivity.
Qed.

Lemma read_only_events_list_text_execute q t :
  read_only (events_list_text_execute q t).
Proof.
  apply (read_only_request _
    (fun w => Ret (take 50 (search_of (calendar w) q t)))).
  reflexivity.
Qed.

Lemma read_only_values_get_execute : read_only values_get_execute.
Proof.
  apply (read_only_request _ (fun w => Ret (sheet w))). reflexivity.
Qed.

Create HintDb frames.

#[local] Hint Resolve read_only_ret read_only_raise read_only_diverge
  read_only_expect read_only_get_now read_only_get_utcnow
  read_only_freebusy_execute read_only_events_list_ref_execute
  read_only_events_list_text_execute read_only_values_get_execute : frames.

Ltac frame_step :=
  match goal with
  | |- read_only (bind _ _) => apply read_only_bind; [| intros ?]
  | |- read_only (try_except _ _) => apply read_only_try_except; [| intros ?]
  | |- read_only (match ?x with _ => _ end) => destruct x eqn:?
  | |- read_only _ => solve [eauto with frames]
  end.

Ltac frame := repeat frame_step.

Lemma read_only_is_slot_available d : read_only (is_slot_available d).
Proof. unfold is_slot_available, freebusy_range. frame. Qed.

Lemma read_only_speakable_range s e : read_only (speakable_range s e).
Proof. unfold speakable_range. frame. Qed.

Lemma read_only_fmt_local s : read_only (fmt_local s).
Proof. unfold fmt_local. frame. Qed.

#[local] Hint Resolve read_only_is_slot_available read_only_speakable_range
  read_only_fmt_local : frames.

Lemma read_only_make_slot p : read_only (make_slot p).
Proof. unfold make_slot. frame. Qed.

#[local] Hint Resolve read_only_make_slot : frames.

Lemma read_only_scan_day fuel limit day_end probe out :
  read_only (scan_day fuel limit day_end probe out).
Proof.
  revert probe out.
  induction fuel as [| fuel IH]; intros probe out; cbn [scan_day].
  - frame.
  - destruct (dt_leb probe day_end && (Z.of_nat (length out) <? limit));
      [| frame].
    frame; try apply IH.
Qed.

Lemma read_only_skip_weekend fuel probe :
  read_only (skip_weekend fuel probe).
Proof.
  revert probe.
  induction fuel as [| fuel IH]; intros probe; cbn [skip_weekend].
  - frame.
  - destruct (5 <=? weekday probe); [frame; apply IH | frame].
Qed.

#[local] Hint Resolve read_only_scan_day read_only_skip_weekend : frames.

Lemma read_only_scan_days fuel limit probe out days_checked :
  read_only (scan_days fuel limit probe out days_checked).
Proof.
  revert probe out days_checked.
  induction fuel as [| fuel IH]; intros probe out days_checked;
    cbn [scan_days].
  - frame.
  - destruct ((Z.of_nat (length out) <? limit) && (days_checked <? 8));
      [| frame].
    frame; try apply IH.
Qed.

#[local] Hint Resolve read_only_scan_days : frames.

Lemma read_only_top_slots anchor limit : read_only (top_slots anchor limit).
Proof. unfold top_slots. frame. Qed.

#[local] Hint Resolve read_only_top_slots : frames.

Lemma read_only_find_available_slots text limit :
  read_only (find_available_slots text limit).
Proof. unfold find_available_slots. frame. Qed.

Lemma read_only_find_booking_by_ref ref :
  read_only (find_booking_by_ref ref).
Proof. unfold find_booking_by_ref. frame. Qed.

Lemma read_only_find_booking_by_patient n c :
  read_only (find_booking_by_patient n c).
Proof. unfold find_booking_by_patient. frame. Qed.

#[local] Hint Resolve read_only_find_available_slots
  read_only_find_booking_by_ref read_only_find_booking_by_patient : frames.

Lemma read_only_resolve_booking r n c : read_only (resolve_booking r n c).
Proof. unfold resolve_booking. frame. Qed.

#[local] Hint Resolve read_only_resolve_booking : frames.


(** ** Values a computation can return *)

Lemma returns_ret {A} (a : A) (Q : A -> Prop) : Q a -> returns (ret a) Q.
Proof. intros HQ w a' w' H. inversion H; subst. exact HQ. Qed.

Lemma returns_raise {A} e (Q : A -> Prop) : returns (raise e) Q.
Proof. intros w a w' H. discriminate H. Qed.

Lemma returns_diverge {A} (Q : A -> Prop) : returns diverge Q.
Proof. intros w a w' H. discriminate H. Qed.

Lemma returns_bind {A B} (m : M A) (k : A -> M B) (Q : B -> Prop) :
  (forall a, returns (k a) Q) -> returns (bind m k) Q.
Proof.
  intros Hk w b w' H. unfold bind in H.
  destruct (m w) as [[a | e |] w1]; try discriminate H.
  exact (Hk a w1 b w' H).
Qed.

Lemma returns_bind_strong {A B} (m : M A) (k : A -> M B)
    (P : A -> Prop) (Q : B -> Prop) :
  returns m P -> (forall a, P a -> returns (k a) Q) -> returns (bind m k) Q.
Proof.
  intros Hm Hk w b w' H. unfold bind in H.
  destruct (m w) as [[a | e |] w1] eqn:E; try discriminate H.
  exact (Hk a (Hm w a w1 E) w1 b w' H).
Qed.

Lemma returns_try_except {A} (m : M A) (h : exn -> M A) (Q : A -> Prop) :
  returns m Q -> (forall e, returns (h e) Q) -> returns (try_except m h) Q.
Proof.
  intros Hm Hh w a w' H. unfold try_except in H.
  destruct (m w) as [[a1 | e |] w1] eqn:E.
  - inversion H; subst. exact (Hm w a w' E).
  - exact (Hh e w1 a w' H).
  - discriminate H.
Qed.

Ltac returns_step :=
  match goal with
  | |- returns (bind _ _) _ => apply returns_bind; intros ?
  | |- returns (try_except _ _) _ =>
      apply returns_try_except; [| intros ?]
  | |- returns (ret _) _ => apply returns_ret
  | |- returns (raise _) _ => apply returns_raise
  | |- returns (match ?x with _ => _ end) _ => destruct x eqn:?
  end.

(** C4. Two-phase reschedule: a reschedule request whose confirmation
    flag is not set writes nothing, neither to the calendar nor to the
    ledger, and records no mutating request, whether the new time is
    free or busy; when it answers with [preferred_time_available] it
    proposes the slot, and with [preferred_time_busy] it lists the
    alternatives. So a calendar update or a ledger row update can only
    come from a request with [confirm_reschedule] set. *)
Theorem reschedule_without_confirmation_reads_only
    (req : RescheduleReq.t) (w : world) :
  RescheduleReq.confirm_reschedule req = false ->
  only_reads w (snd (reschedule_booking (Valid req) w)) /\
  forall res, fst (reschedule_booking (Valid req) w) = Ret res ->
    (RescheduleRes.reason res = Some "preferred_time_available"%string ->
     RescheduleRes.success res = true /\
     is_Some (RescheduleRes.new_slot res)) /\
    (RescheduleRes.reason res = Some "preferred_time_busy"%string ->
     RescheduleRes.success res = false /\
     is_Some (RescheduleRes.available_slots res)).
Proof.
  intros Hc. split.
  - revert w. change (read_only (reschedule_booking (Valid req))).
    unfold reschedule_booking. rewrite Hc. cbn [negb]. frame.
  - intros res Hres.
    destruct (reschedule_booking (Valid req) w) as [r w'] eqn:E.
    simpl in Hres; subst r. revert w res w' E.
    change (returns (reschedule_booking (Valid req))
      (fun res =>
         (RescheduleRes.reason res = Some "preferred_time_available"%string ->
          RescheduleRes.success res = true /\
          is_Some (RescheduleRes.new_slot res)) /\
         (RescheduleRes.reason res = Some "preferred_time_busy"%string ->
          RescheduleRes.success res = false /\
          is_Some (RescheduleRes.available_slots res)))).
    unfold reschedule_booking. rewrite Hc. cbn [negb].
    repeat lazymatch goal with
           | |- returns (bind (if bool_decide _ then _ else _) _) _ => fail
           | _ => returns_step
           end;
      try solve [cbn; split; intros Hr; discriminate Hr].
    match goal with
    | |- returns _ ?Q =>
        apply (returns_bind_strong _ _
                 (fun c => forall t, c = inl t -> Q t))
    end.
    + repeat returns_step; intros t Ht; inversion Ht; subst; cbn;
        (split; intros Hr; try discriminate Hr; split; eauto).
    + intros [t | s] Ht; repeat returns_step.
      * exact (Ht t eq_refl).
      * cbn. split; intros Hr; discriminate Hr.
Qed.

(** ** Running the helpers *)

Lemma bind_ret_l {A B} (a : A) (k : A -> M B) w : bind (ret a) k w = k a w.
Proof. reflexivity. Qed.

Lemma bind_run {A B} (m : M A) (k : A -> M B) w a w' :
  m w = (Ret a, w') -> bind m k w = k a w'.
Proof. intros H. unfold bind. rewrite H. reflexivity. Qed.

Lemma bind_raise {A B} (m : M A) (k : A -> M B) w e w' :
  m w = (Raise e, w') -> bind m k w = (Raise e, w').
Proof. intros H. unfold bind. rewrite H. reflexivity. Qed.

Lemma bind_diverge {A B} (m : M A) (k : A -> M B) w w' :
  m w = (Diverge, w') -> bind m k w = (Diverge, w').
Proof. intros H. unfold bind. rewrite H. reflexivity. Qed.

Lemma events_update_run id (b : EventBody) w :
  events_update_execute id b w =
  if fails w (events_update id b)
  then (Raise HttpError, record_call (events_update id b) w)
  else if existsb (has_id id) (calendar w)
  then (Ret (event_of_body id b),
        set_calendar
          (map (fun ev => if has_id id ev then event_of_body id b else ev)
               (calendar w))
          (record_call (events_update id b) w))
  else (Raise HttpError, record_call (events_update id b) w).
Proof.
  unfold events_update_execute, request. destruct (fails w _); reflexivity.
Qed.

Lemma speakable_range_run s e w :
  speakable_range s e w =
  (match speakable_text s e with
   | Some sp => Ret sp
   | None => Raise ValueError
   end, w).
Proof.
  unfold speakable_range, speakable_text, bind, expect, ret, raise.
  destruct (du_isoparse s); [| reflexivity].
  destruct (du_isoparse e); reflexivity.
Qed.

Lemma expect_ret {A} e (o : option A) w a w' :
  expect e o w = (Ret a, w') -> o = Some a /\ w' = w.
Proof.
  destruct o; intros H; inversion H; subst. split; reflexivity.
Qed.

Lemma expect_run {A} e (o : option A) a w :
  o = Some a -> expect e o w = (Ret a, w).
Proof. intros ->. reflexivity. Qed.

Lemma is_slot_available_run d w :
  is_slot_available d w =
  if negb (is_business_hours d) then (Ret false, w)
  else
    match dt_add d (td_minutes 30) with
    | None => (Raise OverflowError, w)
    | Some e =>
      let c := freebusy_query (isoformat d) (isoformat e) in
      if fails w c then (Raise HttpError, record_call c w)
      else (Ret (free_on (calendar w) d), record_call c w)
    end.
Proof.
  unfold is_slot_available, free_on.
  destruct (is_business_hours d); [| reflexivity].
  destruct (dt_add d (td_minutes 30)) as [e |]; [| reflexivity].
  unfold bind, freebusy_range, freebusy_execute, request, ret. cbn.
  destruct (fails w _); reflexivity.
Qed.

Lemma events_list_ref_run ref w :
  events_list_ref_execute ref w =
  if fails w (events_list_ref ref)
  then (Raise HttpError, record_call (events_list_ref ref) w)
  else (Ret (take 1 (filter (fun ev => has_ref ref ev = true) (calendar w))),
        record_call (events_list_ref ref) w).
Proof.
  unfold events_list_ref_execute, request.
  destruct (fails w _); reflexivity.
Qed.

Lemma filter_has_ref_nil ref (cal : list Event) :
  (forall ev, ev ∈ cal -> ev_bookingRef ev <> Some ref) ->
  filter (fun ev => has_ref ref ev = true) cal = [].
Proof.
  induction cal as [| ev cal IH]; intros H; [reflexivity |].
  rewrite filter_cons. destruct (decide (has_ref ref ev = true)) as [E | E].
  - exfalso. unfold has_ref in E. apply bool_decide_eq_true in E.
    apply (H ev); [left | exact E].
  - apply IH. intros ev' Hin. apply H. right. exact Hin.
Qed.

Ltac create_event_start req :=
  unfold create_event;
  match goal with
  | |- context [if negb (truthy ?k) then _ else _] =>
      destruct (negb (truthy k))
  end;
  cbn [with_idempotency_key CreateEventReq.slot CreateEventReq.patient
       CreateEventReq.appointment_type CreateEventReq.notes];
  fold (request_ref req).

(** C9. The idempotency key a caller supplies has no effect on
    [create_event]: two create requests that agree on every field but
    [idempotency_key] (present, absent or different) get the same
    booking reference, and from any world the handler runs to the same
    outcome and the same world: same duplicate check, same requests to
    calendar and ledger, same response. *)
Theorem idempotency_key_has_no_effect
    (req1 req2 : CreateEventReq.t) (w : world) :
  CreateEventReq.appointment_type req1 = CreateEventReq.appointment_type req2 ->
  CreateEventReq.slot req1 = CreateEventReq.slot req2 ->
  CreateEventReq.patient req1 = CreateEventReq.patient req2 ->
  CreateEventReq.notes req1 = CreateEventReq.notes req2 ->
  request_ref req1 = request_ref req2 /\
  create_event (Valid req1) w = create_event (Valid req2) w.
Proof.
  destruct req1 as [ty1 sl1 pa1 k1 no1], req2 as [ty2 sl2 pa2 k2 no2].
  cbn. intros -> -> -> ->. split; [reflexivity |].
  unfold create_event.
  destruct (negb (truthy k1)), (negb (truthy k2)); reflexivity.
Qed.

(** C3. Write-time re-check: when no event of the calendar carries the
    reference of the request and [is_slot_available] answers false for
    the start of the slot, [create_event] returns the failure
    [slot_taken]; calendar and ledger are unchanged and neither an
    insert nor a ledger append was requested. *)
Theorem create_event_slot_taken
    (req : CreateEventReq.t) (w w2 : world) (s_dt : datetime) :
  let ref := request_ref req in
  fails w (events_list_ref ref) = false ->
  (forall ev, ev ∈ calendar w -> ev_bookingRef ev <> Some ref) ->
  du_isoparse (start (CreateEventReq.slot req)) = Some s_dt ->
  is_slot_available s_dt (record_call (events_list_ref ref) w)
    = (Ret false, w2) ->
  create_event (Valid req) w =
    (Ret (CreateEventRes.mk false None None None
            (Some "slot_taken"%string)
            (Some "slot_no_longer_available"%string)), w2) /\
  only_reads w w2 /\ no_call is_insert w w2 /\ no_call is_append w w2.
Proof.
  intros ref Hlist Hnone Hparse Havail.
  assert (Hro : only_reads w w2).
  { eapply only_reads_trans.
    - apply (only_reads_record (events_list_ref ref)). reflexivity.
    - pose proof (read_only_is_slot_available s_dt
                    (record_call (events_list_ref ref) w)) as H.
      rewrite Havail in H. exact H. }
  split; [| split; [exact Hro | split]].
  - create_event_start req; fold ref;
      unfold bind at 1; rewrite events_list_ref_run, Hlist;
      rewrite (filter_has_ref_nil ref _ Hnone); cbn [take];
      unfold bind at 1; rewrite Hparse; cbn [expect ret];
      unfold bind at 1; rewrite Havail; reflexivity.
  - apply only_reads_no_call; [| exact Hro]. intros []; cbn; congruence.
  - apply only_reads_no_call; [| exact Hro]. intros []; cbn; congruence.
Qed.

Lemma fmt_local_run s w :
  fmt_local s w =
  (match du_isoparse s with
   | Some dt => Ret (strftime (astimezone dt) "%m/%d/%Y %I:%M %p")
   | None => Raise ValueError
   end, w).
Proof.
  unfold fmt_local, bind, expect, ret, raise.
  destruct (du_isoparse s); reflexivity.
Qed.

Lemma append_sheet_row_calendar st ty s e n c r no w :
  calendar (snd (append_sheet_row st ty s e n c r no w)) = calendar w.
Proof.
  unfold append_sheet_row. unfold bind at 1. unfold get_utcnow.
  cbv beta iota. unfold bind at 1. rewrite fmt_local_run.
  destruct (du_isoparse s); [| reflexivity].
  unfold bind at 1. rewrite fmt_local_run.
  destruct (du_isoparse e); [| reflexivity].
  unfold values_append_execute, request.
  destruct (fails w _); reflexivity.
Qed.

Lemma filter_has_ref_created ref id (b : EventBody) :
  b_bookingRef b = Some ref ->
  filter (fun ev => has_ref ref ev = true) [event_of_body id b]
  = [event_of_body id b].
Proof.
  intros Hb. rewrite filter_cons, filter_nil.
  rewrite decide_True; [reflexivity |].
  unfold has_ref. apply bool_decide_eq_true. exact Hb.
Qed.

(** The replay branch of [create_event]. *)
Lemma create_event_replay (req : CreateEventReq.t) (w : world) ev sp :
  let ref := request_ref req in
  fails w (events_list_ref ref) = false ->
  head (filter (fun ev => has_ref ref ev = true) (calendar w)) = Some ev ->
  speakable_text (start (CreateEventReq.slot req))
    (end_ (CreateEventReq.slot req)) = Some sp ->
  create_event (Valid req) w =
    (Ret (CreateEventRes.mk true (Some ref) (Some (ev_id ev)) (Some sp)
            None None),
     record_call (events_list_ref ref) w).
Proof.
  intros ref Hlist Hhead Hsp.
  create_event_start req; fold ref;
    unfold bind at 1; rewrite events_list_ref_run, Hlist;
    (destruct (filter _ (calendar w)) as [| ev0 rest];
       [discriminate Hhead |]); cbn in Hhead; inversion Hhead; subst ev0;
    cbn [take]; unfold bind at 1; rewrite speakable_range_run, Hsp;
    reflexivity.
Qed.

(** C1. Idempotent create. The reference is a function of patient name,
    contact, slot start and appointment type ([request_ref]). If the
    calendar holds an event tagged with it, [create_event] answers
    success with the identifier of the first such event and its only
    request is the lookup: no insert, no ledger append. Hence, after a
    create request has succeeded, the same request succeeds again with
    the same response, writes nothing, and, if no event carried the
    reference before the first call, exactly one does after the
    second. *)
Theorem create_event_idempotent (req : CreateEventReq.t) (w : world) :
  let ref := request_ref req in
  (forall ev sp,
     fails w (events_list_ref ref) = false ->
     head (filter (fun ev => has_ref ref ev = true) (calendar w)) = Some ev ->
     speakable_text (start (CreateEventReq.slot req))
       (end_ (CreateEventReq.slot req)) = Some sp ->
     let w' := record_call (events_list_ref ref) w in
     create_event (Valid req) w =
       (Ret (CreateEventRes.mk true (Some ref) (Some (ev_id ev)) (Some sp)
               None None), w') /\
     no_call is_insert w w' /\ no_call is_append w w') /\
  (forall res1 w1,
     create_event (Valid req) w = (Ret res1, w1) ->
     CreateEventRes.success res1 = true ->
     fails w1 (events_list_ref ref) = false ->
     exists w2,
       create_event (Valid req) w1 = (Ret res1, w2) /\
       only_reads w1 w2 /\
       no_call is_insert w1 w2 /\ no_call is_append w1 w2 /\
       ((forall ev, ev ∈ calendar w -> ev_bookingRef ev <> Some ref) ->
        length (filter (fun ev => has_ref ref ev = true) (calendar w2))
        = 1%nat)).
Proof.
  intros ref.
  assert (Hrec : forall w0, only_reads w0 (record_call (events_list_ref ref) w0)).
  { intros w0. apply only_reads_record. reflexivity. }
  assert (Hins : forall w0 w0', only_reads w0 w0' -> no_call is_insert w0 w0').
  { intros w0 w0'. apply only_reads_no_call. intros []; cbn; congruence. }
  assert (Happ : forall w0 w0', only_reads w0 w0' -> no_call is_append w0 w0').
  { intros w0 w0'. apply only_reads_no_call. intros []; cbn; congruence. }
  split.
  - intros ev sp Hlist Hhead Hsp w'. split; [| split].
    + apply create_event_replay; assumption.
    + apply Hins, Hrec.
    + apply Happ, Hrec.
  - intros res1 w1 Hrun Hsucc Hlist2.
    assert (Hgoal : exists ev sp,
      head (filter (fun ev => has_ref ref ev = true) (calendar w1)) = Some ev /\
      speakable_text (start (CreateEventReq.slot req))
        (end_ (CreateEventReq.slot req)) = Some sp /\
      res1 = CreateEventRes.mk true (Some ref) (Some (ev_id ev)) (Some sp)
               None None /\
      ((forall ev, ev ∈ calendar w -> ev_bookingRef ev <> Some ref) ->
       length (filter (fun ev => has_ref ref ev = true) (calendar w1))
       = 1%nat)).
    { revert Hrun. create_event_start req; fold ref;
        unfold bind at 1; rewrite events_list_ref_run;
        (destruct (fails w (events_list_ref ref)); [discriminate |]);
        destruct (filter (fun ev => has_ref ref ev = true) (calendar w))
          as [| ev0 rest] eqn:Hf; cbn [take].
      all: try (unfold bind at 1; rewrite speakable_range_run;
        destruct (speakable_text _ _) as [sp |] eqn:Hsp;
          [| discriminate]; intros Hrun; inversion Hrun; subst;
        exists ev0, sp; cbn; rewrite Hf; cbn;
        repeat split; try reflexivity;
        intros Hnone; rewrite (filter_has_ref_nil ref _ Hnone) in Hf;
        discriminate Hf).
      all: unfold bind at 1;
        (destruct (du_isoparse _) as [s_dt |]; [| discriminate]);
        cbn [expect ret]; unfold bind at 1;
        pose proof (read_only_is_slot_available s_dt
                      (record_call (events_list_ref ref) w)) as Hro;
        (destruct (is_slot_available s_dt _) as [[avail | e |] wa];
           [| discriminate | discriminate]);
        (destruct avail; cbn [negb];
           [| intros Hrun; inversion Hrun; subst; discriminate Hsucc]);
        match goal with
        | |- context [events_insert_execute ?b] => set (body := b)
        end;
        unfold bind at 1; unfold events_insert_execute, request;
        (destruct (fails wa _); [discriminate |]);
        unfold bind at 1;
        match goal with
        | |- context [append_sheet_row ?a ?b ?c ?d ?e ?f ?g ?h ?w0] =>
            pose proof (append_sheet_row_calendar a b c d e f g h w0) as Hcal;
            destruct (append_sheet_row a b c d e f g h w0)
              as [[[] | e' |] wb]; [| discriminate | discriminate]
        end;
        unfold bind at 1; rewrite speakable_range_run;
        (destruct (speakable_text _ _) as [sp |] eqn:Hsp; [| discriminate]);
        intros Hrun; inversion Hrun; subst;
        destruct Hro as (Hca & _); cbn in Hca, Hcal;
        exists (event_of_body (new_event_id (calendar wa) body) body), sp;
        rewrite Hcal, Hca, filter_app, Hf,
          (filter_has_ref_created ref _ body eq_refl);
        repeat split; reflexivity. }
    destruct Hgoal as (ev & sp & Hhead & Hsp & -> & Hone).
    exists (record_call (events_list_ref ref) w1).
    split; [apply create_event_replay; assumption |].
    split; [apply Hrec |]. split; [apply Hins, Hrec |].
    split; [apply Happ, Hrec |]. exact Hone.
Qed.

(** C2. [is_slot_available] fails closed on business hours only: for a
    start that is not a business slot it returns false without any
    request; for a business slot it queries the window of 30 minutes,
    which every datetime that is a business slot has, and, when the
    query succeeds, returns true exactly when the busy set is empty;
    when the query fails, the [HttpError] is not turned into "not
    available" but raised to the caller. *)
Theorem is_slot_available_spec (start_dt : datetime) (w : world) :
  (is_business_hours start_dt = false ->
   is_slot_available start_dt w = (Ret false, w)) /\
  (is_business_hours start_dt = true -> wf_datetime start_dt ->
   is_Some (dt_add start_dt (td_minutes 30))) /\
  (forall end_dt, dt_add start_dt (td_minutes 30) = Some end_dt ->
   let c := freebusy_query (isoformat start_dt) (isoformat end_dt) in
   (is_business_hours start_dt = true -> fails w c = false ->
    exists b,
      is_slot_available start_dt w = (Ret b, record_call c w) /\
      (b = true <->
       busy_of (calendar w) (isoformat start_dt) (isoformat end_dt) = [])) /\
   (is_business_hours start_dt = true -> fails w c = true ->
    is_slot_available start_dt w = (Raise HttpError, record_call c w))).
Proof.
  rewrite is_slot_available_run. split; [| split].
  - intros ->. reflexivity.
  - intros Hb Hwf. destruct (dt_add_business start_dt Hwf Hb) as [He _].
    rewrite He. eauto.
  - intros end_dt He. cbv zeta. rewrite He. split.
    + intros Hb Hf. rewrite Hb, Hf. cbn [negb].
      exists (free_on (calendar w) start_dt). split; [reflexivity |].
      unfold free_on. rewrite Hb, He. cbn [andb].
      destruct (busy_of _ _ _); cbn; split; congruence.
    + intros Hb Hf. rewrite Hb, Hf. reflexivity.
Qed.

(** C7. An unparseable preferred-time text escapes [find_slots_endpoint]
    as a [ParserError], with no response at all, while
    [reschedule_booking] catches the same failure of the same parser and
    answers [invalid_datetime]. *)
Theorem unparseable_text_escapes_find_slots
    (freq : FindSlotsReq.t) (rreq : RescheduleReq.t) (w w1 : world)
    (ev : Event) (bref : option string) (summary s e old : string) :
  du_parse (FindSlotsReq.preferred_datetime_text freq) = None ->
  RescheduleReq.new_preferred_datetime_text rreq
    = FindSlotsReq.preferred_datetime_text freq ->
  resolve_booking (RescheduleReq.booking_ref rreq) (RescheduleReq.name rreq)
    (RescheduleReq.contact rreq) w = (Ret (Some ev, bref), w1) ->
  ev_summary ev = Some summary -> ev_start ev = Some s ->
  ev_end ev = Some e -> speakable_text s e = Some old ->
  find_slots_endpoint (Valid freq) w = (Raise ParserError, w) /\
  reschedule_booking (Valid rreq) w =
    (Ret (RescheduleRes.mk false None None None None None
            (Some "invalid_datetime"%string)
            (Some "Could not parse new preferred datetime"%string)), w1).
Proof.
  intros Hparse Htext Hres Hsum Hs He Hold. split.
  - unfold find_slots_endpoint, find_available_slots.
    unfold bind at 1. unfold bind at 1. rewrite Hparse. reflexivity.
  - unfold reschedule_booking. unfold bind at 1. rewrite Hres.
    cbv beta iota. rewrite Hsum, Hs, He, Htext, Hparse.
    unfold bind at 1.
    assert (Hty : forall b : bool,
      (if b then ret (default ""%string (RescheduleReq.appointment_type rreq))
       else let! summary0 := expect KeyError (Some summary) in
            ret (split_head " - " summary0)) w1
      = (Ret (if b then default ""%string (RescheduleReq.appointment_type rreq)
              else split_head " - " summary), w1)).
    { intros []; reflexivity. }
    rewrite Hty. unfold bind at 1. cbn [expect ret].
    unfold bind at 1. cbn [expect ret].
    unfold bind at 1. rewrite speakable_range_run, Hold. reflexivity.
Qed.

(** ** Ledger rows *)

Lemma same_except_refl i sh : same_except i sh sh.
Proof. split; [reflexivity | intros j _; reflexivity]. Qed.

Lemma same_except_trans i sh1 sh2 sh3 :
  same_except i sh1 sh2 -> same_except i sh2 sh3 -> same_except i sh1 sh3.
Proof.
  intros [Hl1 H1] [Hl2 H2]. split; [congruence |].
  intros j Hj. rewrite H2, H1 by exact Hj. reflexivity.
Qed.

Lemma set_row_cells_same_except sh i col vals :
  (i < length sh)%nat -> same_except i sh (set_row_cells sh i col vals).
Proof.
  intros Hi. unfold set_row_cells.
  replace (S i - length sh)%nat with 0%nat by lia.
  cbn [replicate]. rewrite app_nil_r. split.
  - apply length_insert.
  - intros j Hj. apply list_lookup_insert_ne. congruence.
Qed.

Lemma row_only_refl i w : row_only i w w.
Proof. split; [reflexivity | intros _; apply same_except_refl]. Qed.

Lemma row_only_trans i w1 w2 w3 :
  row_only i w1 w2 -> row_only i w2 w3 -> row_only i w1 w3.
Proof.
  intros [Hc1 H1] [Hc2 H2]. split; [congruence |].
  intros Hi. specialize (H1 Hi). destruct H1 as [Hl H1].
  assert (Hi2 : (i < length (sheet w2))%nat) by (rewrite Hl; exact Hi).
  eapply same_except_trans; [split; [exact Hl | exact H1] | exact (H2 Hi2)].
Qed.

Lemma only_reads_row_only i w w' : only_reads w w' -> row_only i w w'.
Proof.
  intros (Hc & Hs & _). split; [exact Hc |].
  intros _. rewrite Hs. apply same_except_refl.
Qed.

Lemma keeps_ret R {A} (a : A) :
  (forall w, R w w) -> keeps R (ret a).
Proof. intros HR w. apply HR. Qed.

Lemma keeps_bind R {A B} (m : M A) (k : A -> M B) :
  (forall w1 w2 w3, R w1 w2 -> R w2 w3 -> R w1 w3) ->
  keeps R m -> (forall a, keeps R (k a)) -> keeps R (bind m k).
Proof.
  intros HT Hm Hk w. unfold bind. specialize (Hm w).
  destruct (m w) as [[a | e |] w1]; simpl in *; try exact Hm.
  eapply HT; [exact Hm | apply Hk].
Qed.

Lemma keeps_read_only i {A} (m : M A) : read_only m -> keeps (row_only i) m.
Proof. intros Hm w. apply only_reads_row_only, Hm. Qed.

Lemma keeps_values_update i col vals :
  keeps (row_only i) (values_update_execute i col vals).
Proof.
  intros w. unfold values_update_execute, request.
  destruct (fails w _); cbn;
    [split; [reflexivity | intros _; apply same_except_refl] |].
  split; [reflexivity |]. intros Hi.
  apply set_row_cells_same_except, Hi.
Qed.

Lemma try_except_ret_world {A} (m : M A) (a : A) w :
  snd (try_except m (fun _ => ret a) w) = snd (m w).
Proof. unfold try_except. destruct (m w) as [[? | ? |] ?]; reflexivity. Qed.

(** What a ledger update leaves behind: the ledger as it was, or one
    row changed, and that row carried the reference and was open. *)
Lemma update_sheet_status_rows_post ref ns notes rows i w :
  (forall k row, rows !! k = Some row -> sheet w !! (i + k)%nat = Some row) ->
  let w' := snd (update_sheet_status_rows ref ns notes i rows w) in
  calendar w' = calendar w /\
  (sheet w' = sheet w \/
   exists j row, sheet w !! j = Some row /\ row_has_ref row ref = true /\
                 row_is_open row = true /\
                 same_except j (sheet w) (sheet w')).
Proof.
  revert i. induction rows as [| row rest IH]; intros i Hrows.
  - cbn. split; [reflexivity | left; reflexivity].
  - cbn [update_sheet_status_rows].
    destruct (row_has_ref row ref && row_is_open row) eqn:E.
    + apply andb_prop in E as [E1 E2].
      pose proof (Hrows 0%nat row eq_refl) as Hi.
      rewrite Nat.add_0_r in Hi.
      match goal with
      | |- calendar (snd (?m w)) = _ /\ _ =>
          assert (Hk : keeps (row_only i) m)
      end.
      { apply keeps_bind; [apply row_only_trans | apply keeps_values_update |].
        intros _. apply keeps_bind; [apply row_only_trans | |].
        - destruct (negb (String.eqb notes ""));
            [apply keeps_values_update | apply keeps_ret, row_only_refl].
        - intros _. apply keeps_ret, row_only_refl. }
      destruct (Hk w) as [Hc Hs]. split; [exact Hc |].
      right. exists i, row. repeat split; try assumption.
      * apply Hs. apply lookup_lt_Some in Hi. exact Hi.
      * apply Hs. apply lookup_lt_Some in Hi. exact Hi.
    + apply IH. intros k r Hk.
      replace (S i + k)%nat with (i + S k)%nat by lia.
      apply Hrows. exact Hk.
Qed.

Lemma update_sheet_reschedule_rows_post ref s e notes rows i w :
  (forall k row, rows !! k = Some row -> sheet w !! (i + k)%nat = Some row) ->
  let w' := snd (update_sheet_reschedule_rows ref s e notes i rows w) in
  calendar w' = calendar w /\
  (sheet w' = sheet w \/
   exists j row, sheet w !! j = Some row /\ row_has_ref row ref = true /\
                 row_is_open row = true /\
                 same_except j (sheet w) (sheet w')).
Proof.
  revert i. induction rows as [| row rest IH]; intros i Hrows.
  - cbn. split; [reflexivity | left; reflexivity].
  - cbn [update_sheet_reschedule_rows].
    destruct (row_has_ref row ref) eqn:E1.
    + destruct (row_is_open row) eqn:E2;
        [| cbn; split; [reflexivity | left; reflexivity]].
      pose proof (Hrows 0%nat row eq_refl) as Hi.
      rewrite Nat.add_0_r in Hi.
      match goal with
      | |- calendar (snd (?m w)) = _ /\ _ =>
          assert (Hk : keeps (row_only i) m)
      end.
      { apply keeps_bind;
          [apply row_only_trans
          | apply keeps_read_only, read_only_fmt_local |].
        intros ?. apply keeps_bind;
          [apply row_only_trans
          | apply keeps_read_only, read_only_fmt_local |].
        intros ?. apply keeps_bind;
          [apply row_only_trans | apply keeps_values_update |].
        intros _. apply keeps_ret, row_only_refl. }
      destruct (Hk w) as [Hc Hs]. split; [exact Hc |].
      right. exists i, row. repeat split; try assumption.
      * apply Hs. apply lookup_lt_Some in Hi. exact Hi.
      * apply Hs. apply lookup_lt_Some in Hi. exact Hi.
    + apply IH. intros k r Hk.
      replace (S i + k)%nat with (i + S k)%nat by lia.
      apply Hrows. exact Hk.
Qed.

Lemma values_get_run w :
  values_get_execute w =
  if fails w values_get then (Raise HttpError, record_call values_get w)
  else (Ret (sheet w), record_call values_get w).
Proof. unfold values_get_execute, request. destruct (fails w _); reflexivity. Qed.

Lemma update_sheet_status_post ref ns notes w :
  let w' := snd (update_sheet_status ref ns notes w) in
  calendar w' = calendar w /\
  (sheet w' = sheet w \/
   exists j row, sheet w !! j = Some row /\ row_has_ref row ref = true /\
                 row_is_open row = true /\
                 same_except j (sheet w) (sheet w')).
Proof.
  unfold update_sheet_status. rewrite try_except_ret_world.
  unfold bind. rewrite values_get_run.
  destruct (fails w values_get);
    [cbn; split; [reflexivity | left; reflexivity] |].
  apply (update_sheet_status_rows_post ref ns notes (sheet w) 0
           (record_call values_get w)).
  intros k row Hk. exact Hk.
Qed.

Lemma update_sheet_reschedule_post ref s e notes w :
  let w' := snd (update_sheet_reschedule ref s e notes w) in
  calendar w' = calendar w /\
  (sheet w' = sheet w \/
   exists j row, sheet w !! j = Some row /\ row_has_ref row ref = true /\
                 row_is_open row = true /\
                 same_except j (sheet w) (sheet w')).
Proof.
  unfold update_sheet_reschedule. rewrite try_except_ret_world.
  unfold bind. rewrite values_get_run.
  destruct (fails w values_get);
    [cbn; split; [reflexivity | left; reflexivity] |].
  apply (update_sheet_reschedule_rows_post ref s e notes (sheet w) 0
           (record_call values_get w)).
  intros k row Hk. exact Hk.
Qed.

Lemma row_is_open_status row :
  row_is_open row = true ->
  row_status row = Some "confirmed"%string \/
  row_status row = Some "rescheduled"%string.
Proof.
  unfold row_is_open, row_status. destruct (row !! 10%nat) as [st |];
    [| discriminate].
  intros H. apply orb_prop in H as [H | H]; apply String.eqb_eq in H;
    subst; auto.
Qed.

(** C8. Cancelled ledger rows are immutable history: [update_sheet_status]
    and [update_sheet_reschedule] keep the number of rows, and a row
    they leave different carried the reference in its second column and
    had status [confirmed] or [rescheduled]; a row whose status is
    [cancelled] is the same after either operation, whatever the
    reference and the new values. *)
Theorem ledger_updates_spare_cancelled_rows
    (booking_ref : option string) (new_status notes s e notes' : string)
    (w : world) :
  spares_closed_rows booking_ref w
    (snd (update_sheet_status booking_ref new_status notes w)) /\
  spares_closed_rows booking_ref w
    (snd (update_sheet_reschedule booking_ref s e notes' w)).
Proof.
  assert (Hgen : forall w',
    (sheet w' = sheet w \/
     exists j row, sheet w !! j = Some row /\
                   row_has_ref row booking_ref = true /\
                   row_is_open row = true /\
                   same_except j (sheet w) (sheet w')) ->
    spares_closed_rows booking_ref w w');
    [| split; apply Hgen;
       [apply update_sheet_status_post | apply update_sheet_reschedule_post]].
  intros w' Hpost.
  assert (Hchanged : forall i row, sheet w !! i = Some row ->
            sheet w' !! i <> Some row ->
            row_has_ref row booking_ref = true /\ row_is_open row = true).
  { intros i row Hi Hne. destruct Hpost as [Heq | (j & r & Hj & Hr & Ho & Hs)].
    - rewrite Heq in Hne. contradiction.
    - destruct (decide (i = j)) as [-> | Hij].
      + rewrite Hj in Hi. inversion Hi; subst. auto.
      + destruct Hs as [_ Hs]. rewrite (Hs i Hij) in Hne. contradiction. }
  split; [| split].
  - destruct Hpost as [-> | (j & r & _ & _ & _ & [Hl _])]; [reflexivity | exact Hl].
  - intros i row Hi Hne. destruct (Hchanged i row Hi Hne) as [Hr Ho].
    split; [exact Hr | apply row_is_open_status, Ho].
  - intros i row Hi Hst.
    destruct (decide (sheet w' !! i = Some row)) as [Heq | Hne];
      [exact Heq |].
    destruct (Hchanged i row Hi Hne) as [_ Ho].
    apply row_is_open_status in Ho. rewrite Hst in Ho.
    destruct Ho as [Ho | Ho]; discriminate Ho.
Qed.

(** ** Termination of the building blocks *)

Lemma terminates_ret {A} (a : A) : terminates (ret a).
Proof. intros w. discriminate. Qed.

Lemma terminates_raise {A} e : terminates (@raise A e).
Proof. intros w. discriminate. Qed.

Lemma terminates_expect {A} e (o : option A) : terminates (expect e o).
Proof. destruct o; [apply terminates_ret | apply terminates_raise]. Qed.

Lemma terminates_bind {A B} (m : M A) (k : A -> M B) :
  terminates m -> (forall a, terminates (k a)) -> terminates (bind m k).
Proof.
  intros Hm Hk w. unfold bind. specialize (Hm w).
  destruct (m w) as [[a | e |] w1]; cbn in *;
    [apply Hk | discriminate | contradiction].
Qed.

Lemma terminates_try_except {A} (m : M A) (h : exn -> M A) :
  terminates m -> (forall e, terminates (h e)) ->
  terminates (try_except m h).
Proof.
  intros Hm Hh w. unfold try_except. specialize (Hm w).
  destruct (m w) as [[a | e |] w1]; cbn in *;
    [discriminate | apply Hh | contradiction].
Qed.

Lemma terminates_request {A} c (effect : world -> outcome A * world) :
  (forall w, fst (effect w) <> Diverge) -> terminates (request c effect).
Proof.
  intros He w. unfold request. destruct (fails w c); [discriminate |].
  apply He.
Qed.

Lemma terminates_get_now : terminates get_now.
Proof. intros w. discriminate. Qed.

Lemma terminates_get_utcnow : terminates get_utcnow.
Proof. intros w. discriminate. Qed.

Lemma terminates_freebusy_execute a b : terminates (freebusy_execute a b).
Proof. apply terminates_request. intros w. discriminate. Qed.

Lemma terminates_events_list_ref_execute r :
  terminates (events_list_ref_execute r).
Proof. apply terminates_request. intros w. discriminate. Qed.

Lemma terminates_events_list_text_execute q t :
  terminates (events_list_text_execute q t).
Proof. apply terminates_request. intros w. discriminate. Qed.

Lemma terminates_events_insert_execute b :
  terminates (events_insert_execute b).
Proof. apply terminates_request. intros w. discriminate. Qed.

Lemma terminates_events_update_execute i b :
  terminates (events_update_execute i b).
Proof.
  apply terminates_request. intros w.
  destruct (existsb _ _); discriminate.
Qed.

Lemma terminates_events_delete_execute i :
  terminates (events_delete_execute i).
Proof.
  apply terminates_request. intros w.
  destruct (existsb _ _); discriminate.
Qed.

Lemma terminates_values_append_execute r :
  terminates (values_append_execute r).
Proof. apply terminates_request. intros w. discriminate. Qed.

Lemma terminates_values_get_execute : terminates values_get_execute.
Proof. apply terminates_request. intros w. discriminate. Qed.

Lemma terminates_values_update_execute i c v :
  terminates (values_update_execute i c v).
Proof. apply terminates_request. intros w. discriminate. Qed.

Create HintDb halts.

#[local] Hint Resolve terminates_ret terminates_raise terminates_expect
  terminates_get_now terminates_get_utcnow terminates_freebusy_execute
  terminates_events_list_ref_execute terminates_events_list_text_execute
  terminates_events_insert_execute terminates_events_update_execute
  terminates_events_delete_execute terminates_values_append_execute
  terminates_values_get_execute terminates_values_update_execute : halts.

Ltac halts_step :=
  match goal with
  | |- terminates (bind _ _) => apply terminates_bind; [| intros ?]
  | |- terminates (try_except _ _) =>
      apply terminates_try_except; [| intros ?]
  | |- terminates (match ?x with _ => _ end) => destruct x eqn:?
  | |- terminates _ => solve [eauto with halts]
  end.

Ltac halts := repeat halts_step.

Lemma terminates_is_slot_available d : terminates (is_slot_available d).
Proof. unfold is_slot_available, freebusy_range. halts. Qed.

Lemma terminates_speakable_range s e : terminates (speakable_range s e).
Proof. unfold speakable_range. halts. Qed.

Lemma terminates_fmt_local s : terminates (fmt_local s).
Proof. unfold fmt_local. halts. Qed.

#[local] Hint Resolve terminates_is_slot_available
  terminates_speakable_range terminates_fmt_local : halts.

Lemma terminates_make_slot p : terminates (make_slot p).
Proof. unfold make_slot. halts. Qed.

Lemma terminates_append_sheet_row st ty s e n c r no :
  terminates (append_sheet_row st ty s e n c r no).
Proof. unfold append_sheet_row. halts. Qed.

Lemma terminates_update_sheet_status_rows ref ns notes rows i :
  terminates (update_sheet_status_rows ref ns notes i rows).
Proof.
  revert i. induction rows as [| row rest IH]; intros i;
    cbn [update_sheet_status_rows]; halts; try apply IH.
Qed.

Lemma terminates_update_sheet_reschedule_rows ref s e notes rows i :
  terminates (update_sheet_reschedule_rows ref s e notes i rows).
Proof.
  revert i. induction rows as [| row rest IH]; intros i;
    cbn [update_sheet_reschedule_rows]; halts; try apply IH.
Qed.

#[local] Hint Resolve terminates_make_slot terminates_append_sheet_row
  terminates_update_sheet_status_rows
  terminates_update_sheet_reschedule_rows : halts.

Lemma terminates_find_booking_by_ref r : terminates (find_booking_by_ref r).
Proof. unfold find_booking_by_ref. halts. Qed.

Lemma terminates_find_booking_by_patient n c :
  terminates (find_booking_by_patient n c).
Proof. unfold find_booking_by_patient. halts. Qed.

#[local] Hint Resolve terminates_find_booking_by_ref
  terminates_find_booking_by_patient : halts.

Lemma terminates_resolve_booking r n c : terminates (resolve_booking r n c).
Proof. unfold resolve_booking. halts. Qed.

#[local] Hint Resolve terminates_resolve_booking : halts.

(** A computation whose exceptions are all caught and answered returns. *)
Lemma try_except_ret_returns {A} (m : M A) (a : A) w :
  terminates m ->
  exists b w', try_except m (fun _ => ret a) w = (Ret b, w').
Proof.
  intros Hm. unfold try_except. specialize (Hm w).
  destruct (m w) as [[b | e |] w1]; cbn in *;
    [exists b, w1 | exists a, w1 | contradiction]; reflexivity.
Qed.

Lemma update_sheet_status_returns ref ns notes w :
  exists ok w', update_sheet_status ref ns notes w = (Ret ok, w').
Proof.
  unfold update_sheet_status. apply try_except_ret_returns. halts.
Qed.

Lemma update_sheet_reschedule_returns ref s e notes w :
  exists ok w', update_sheet_reschedule ref s e notes w = (Ret ok, w').
Proof.
  unfold update_sheet_reschedule. apply try_except_ret_returns. halts.
Qed.

Lemma find_available_slots_busy_nonempty text limit :
  returns (find_available_slots text limit)
    (fun sr => FindSlotsRes.reason sr = Some "preferred_time_busy"%string ->
               exists s0 rest, FindSlotsRes.slots sr = s0 :: rest).
Proof.
  unfold find_available_slots. repeat returns_step; cbn; intros H;
    try discriminate H.
  match goal with
  | H : Some (match ?l with [] => _ | _ :: _ => _ end) = _ |- _ =>
      destruct l; [discriminate H | eauto]
  end.
Qed.

Lemma find_available_slots_parsed text limit w sr w' :
  find_available_slots text limit w = (Ret sr, w') ->
  is_Some (du_parse text).
Proof.
  unfold find_available_slots. unfold bind at 1.
  destruct (du_parse text); [eauto | discriminate].
Qed.

(** ** The scan of [top_slots] *)

Ltac step_in H :=
  match type of H with
  | bind ?m ?k ?w = _ =>
      let E := fresh "E" in
      destruct (m w) as [[? | ? |] ?] eqn:E;
      [ rewrite (bind_run m k w _ _ E) in H
      | rewrite (bind_raise m k w _ _ E) in H; discriminate H
      | rewrite (bind_diverge m k w _ E) in H; discriminate H ]
  end.

Lemma make_slot_run p w :
  make_slot p w =
  (match dt_add p (td_minutes 30) with
   | None => Raise OverflowError
   | Some e =>
     match speakable_text (isoformat p) (isoformat e) with
     | Some sp => Ret (mkSlot (isoformat p) (isoformat e) sp)
     | None => Raise ValueError
     end
   end, w).
Proof.
  unfold make_slot.
  destruct (dt_add p (td_minutes 30)) as [e |]; [| reflexivity].
  cbn [expect]. rewrite bind_ret_l. unfold bind.
  rewrite speakable_range_run.
  destruct (speakable_text _ _); reflexivity.
Qed.

Lemma make_slot_ret p w s w' :
  make_slot p w = (Ret s, w') -> probe_of s p /\ w' = w.
Proof.
  rewrite make_slot_run.
  destruct (dt_add p (td_minutes 30)) as [e |] eqn:E; [| discriminate].
  destruct (speakable_text _ _); [| discriminate].
  intros H. inversion H; subst. split; [| reflexivity].
  split; [reflexivity |]. rewrite E. reflexivity.
Qed.

Lemma is_slot_available_ret d w b w' :
  is_slot_available d w = (Ret b, w') ->
  b = free_on (calendar w) d /\ calendar w' = calendar w.
Proof.
  rewrite is_slot_available_run. unfold free_on.
  destruct (is_business_hours d); cbn [negb andb].
  - destruct (dt_add d (td_minutes 30)) as [e |]; [| discriminate].
    cbv zeta. destruct (fails w _); [discriminate |].
    intros H. inversion H; subst. split; reflexivity.
  - intros H. inversion H; subst. split; reflexivity.
Qed.

Lemma collect_ret (avail : bool) probe (out out1 : list Slot) w w' :
  (if avail then let! s := make_slot probe in ret (out ++ [s])
   else ret out) w = (Ret out1, w') ->
  w' = w /\
  if avail then exists s, probe_of s probe /\ out1 = out ++ [s]
  else out1 = out.
Proof.
  destruct avail.
  - intros H. step_in H. apply make_slot_ret in E as [Hp ->].
    inversion H; subst. split; [reflexivity |].
    eexists. split; [exact Hp | reflexivity].
  - intros H. inversion H; subst. split; reflexivity.
Qed.

Lemma scanned_nil cal tz lo hi : scanned cal tz lo hi [].
Proof. split; constructor. Qed.

Lemma scanned_widen cal tz lo hi lo' hi' ps :
  lo' <= lo -> hi <= hi' ->
  scanned cal tz lo hi ps -> scanned cal tz lo' hi' ps.
Proof.
  intros Hlo Hhi [Hs Hf]. split; [exact Hs |].
  eapply Forall_impl; [exact Hf |]. cbn. intros p H.
  repeat split; try apply H; lia.
Qed.

Lemma scanned_app cal tz lo mid hi ps1 ps2 :
  scanned cal tz lo mid ps1 -> scanned cal tz mid hi ps2 ->
  lo <= mid <= hi -> scanned cal tz lo hi (ps1 ++ ps2).
Proof.
  intros [Hs1 Hf1] [Hs2 Hf2] Hm. split.
  - apply StronglySorted_app_2; try assumption.
    intros p q Hp Hq.
    rewrite Forall_forall in Hf1, Hf2.
    apply Hf1 in Hp. apply Hf2 in Hq. lia.
  - apply Forall_app. split.
    + eapply Forall_impl; [exact Hf1 |]. cbn. intros p H.
      repeat split; try apply H; lia.
    + eapply Forall_impl; [exact Hf2 |]. cbn. intros p H.
      repeat split; try apply H; lia.
Qed.

Lemma scanned_one cal p :
  free_on cal p = true -> wf_datetime p -> on_grid p ->
  scanned cal (tzinfo p) (to_us p) (to_us p + td_minutes 30) [p].
Proof.
  intros Hf Hwf Hg. split.
  - repeat constructor.
  - constructor; [| constructor].
    split; [exact Hf |]. split; [exact Hwf |]. split; [reflexivity |].
    split; [exact Hg | unfold td_minutes; lia].
Qed.

(** Two grid points less than half an hour apart are one. *)
Lemma grid_slot_unique (a b : datetime) :
  wf_datetime a -> wf_datetime b -> on_grid a -> on_grid b ->
  tzinfo b = tzinfo a ->
  to_us a <= to_us b < to_us a + td_minutes 30 -> b = a.
Proof.
  destruct a as [o h m s u tz], b as [o' h' m' s' u' tz'].
  unfold wf_datetime, on_grid, to_us, td_minutes.
  cbn [ordinal hour minute second microsecond tzinfo].
  intros (Hh & _) (Hh' & _) (Hm & -> & ->) (Hm' & -> & ->) -> Hr.
  assert (o' = o /\ h' = h /\ m' = m) as (-> & -> & ->)
    by (destruct Hm as [-> | ->], Hm' as [-> | ->]; lia).
  reflexivity.
Qed.

Lemma free_on_business cal p :
  free_on cal p = true -> is_business_hours p = true.
Proof. unfold free_on. intros H. apply andb_prop in H. apply H. Qed.

Lemma skip_weekend_ordinal_ge d : d <= skip_weekend_ordinal d.
Proof. unfold skip_weekend_ordinal. repeat case_match; lia. Qed.

Lemma skip_weekend_ordinal_le d : skip_weekend_ordinal d <= d + 2.
Proof. unfold skip_weekend_ordinal. repeat case_match; lia. Qed.

Lemma skip_weekend_ordinal_least d x :
  d <= x -> (x + 6) mod 7 < 5 -> skip_weekend_ordinal d <= x.
Proof.
  unfold skip_weekend_ordinal. intros Hd Hx.
  destruct (Z.eqb_spec ((d + 6) mod 7) 5) as [E5 | E5];
    [clear - Hd Hx E5; Z.div_mod_to_equations; lia |].
  destruct (Z.eqb_spec ((d + 6) mod 7) 6) as [E6 | E6];
    [clear - Hd Hx E6; Z.div_mod_to_equations; lia | exact Hd].
Qed.

Lemma skip_weekend_ordinal_weekday d :
  (skip_weekend_ordinal d + 6) mod 7 < 5.
Proof.
  unfold skip_weekend_ordinal.
  destruct (Z.eqb_spec ((d + 6) mod 7) 5) as [E5 | E5];
    [clear - E5; Z.div_mod_to_equations; lia |].
  destruct (Z.eqb_spec ((d + 6) mod 7) 6) as [E6 | E6];
    clear - E5 E6; Z.div_mod_to_equations; lia.
Qed.

Lemma candidate_days_ge n :
  forall d x, x ∈ candidate_days n d -> d <= x.
Proof.
  induction n as [| n IH]; intros d x Hx; cbn [candidate_days] in Hx.
  - apply elem_of_nil in Hx. destruct Hx.
  - apply elem_of_cons in Hx as [-> | Hx]; [lia |].
    apply IH in Hx. pose proof (next_weekday_after d). lia.
Qed.

Lemma candidate_days_step days d :
  days < 8 ->
  candidate_days (Z.to_nat (8 - days)) d =
  d :: candidate_days (Z.to_nat (8 - (days + 1))) (next_weekday d).
Proof.
  intros Hd. replace (Z.to_nat (8 - days)) with (S (Z.to_nat (8 - (days + 1))))
    by lia. reflexivity.
Qed.

Lemma covered_nil cal tz lo : covered cal tz lo lo [].
Proof. intros p _ _ _ Hr. lia. Qed.

(** What a step of the inner loop knows about the next probe. *)
Lemma next_probe probe next :
  wf_datetime probe -> on_grid probe ->
  dt_add probe (td_minutes 30) = Some next ->
  wf_datetime next /\ on_grid next /\ tzinfo next = tzinfo probe /\
  to_us next = to_us probe + td_minutes 30 /\
  utc_us next = utc_us probe + td_minutes 30.
Proof.
  intros Hwf Hg Hadd.
  split; [exact (dt_add_wf _ _ _ Hadd) |].
  split.
  { apply dt_add_Some in Hadd as [-> _].
    apply on_grid_shift_half_hour; [apply wf_datetime_time, Hwf | exact Hg]. }
  split; [exact (dt_add_tzinfo _ _ _ Hadd) |].
  split; [exact (dt_add_to_us _ _ _ Hadd) | exact (dt_add_utc_us _ _ _ Hadd)].
Qed.

(** One run of the inner loop: the slots it adds are built for probes
    in increasing order, all free business slots on the grid, none later
    than the end of the day; the stretch it walked is covered; it
    stopped past the end of the day unless the limit was reached. *)
Lemma scan_day_full fuel :
  forall limit day_end probe out w probe' out' w',
  wf_datetime probe -> on_grid probe ->
  scan_day fuel limit day_end probe out w = (Ret (probe', out'), w') ->
  exists new ps,
    out' = out ++ new /\ Forall2 probe_of new ps /\
    scanned (calendar w) (tzinfo probe) (to_us probe) (to_us probe') ps /\
    covered (calendar w) (tzinfo probe) (to_us probe) (to_us probe') ps /\
    Forall (fun p => utc_us p <= utc_us day_end) ps /\
    (Z.of_nat (length out') < limit -> utc_us day_end < utc_us probe') /\
    wf_datetime probe' /\ on_grid probe' /\ tzinfo probe' = tzinfo probe /\
    to_us probe <= to_us probe' /\
    (probe' = probe \/ utc_us probe' <= utc_us day_end + td_minutes 30) /\
    Z.of_nat (length out') <= Z.max (Z.of_nat (length out)) limit /\
    calendar w' = calendar w.
Proof.
  assert (Hstop : forall limit day_end probe out (w : world),
    wf_datetime probe -> on_grid probe ->
    dt_leb probe day_end && (Z.of_nat (length out) <? limit) = false ->
    exists new ps,
      out = out ++ new /\ Forall2 probe_of new ps /\
      scanned (calendar w) (tzinfo probe) (to_us probe) (to_us probe) ps /\
      covered (calendar w) (tzinfo probe) (to_us probe) (to_us probe) ps /\
      Forall (fun p => utc_us p <= utc_us day_end) ps /\
      (Z.of_nat (length out) < limit -> utc_us day_end < utc_us probe) /\
      wf_datetime probe /\ on_grid probe /\ tzinfo probe = tzinfo probe /\
      to_us probe <= to_us probe /\
      (probe = probe \/ utc_us probe <= utc_us day_end + td_minutes 30) /\
      Z.of_nat (length out) <= Z.max (Z.of_nat (length out)) limit /\
      calendar w = calendar w).
  { intros limit day_end probe out w Hwf Hg C. exists [], [].
    rewrite app_nil_r.
    split; [reflexivity |]. split; [constructor |].
    split; [apply scanned_nil |]. split; [apply covered_nil |].
    split; [constructor |].
    split.
    { intros Hlt. apply andb_false_iff in C as [C | C].
      - unfold dt_leb in C. apply Z.leb_gt in C. exact C.
      - apply Z.ltb_ge in C. lia. }
    split; [exact Hwf |]. split; [exact Hg |]. split; [reflexivity |].
    split; [lia |]. split; [left; reflexivity |].
    split; [lia | reflexivity]. }
  induction fuel as [| fuel IH];
    intros limit day_end probe out w probe' out' w' Hwf Hg H;
    cbn [scan_day] in H;
    destruct (dt_leb probe day_end && (Z.of_nat (length out) <? limit))
      eqn:C.
  - discriminate H.
  - inversion H; subst. apply Hstop; assumption.
  - apply andb_prop in C as [C1 C2].
    apply Z.leb_le in C1. apply Z.ltb_lt in C2.
    step_in H. rename a into avail, w0 into w1.
    apply is_slot_available_ret in E as [Hav Hc1].
    step_in H. rename a into out1.
    apply collect_ret in E as [-> Hout1].
    step_in H. rename a into next.
    apply expect_ret in E as [Hadd ->].
    destruct (next_probe probe next Hwf Hg Hadd)
      as (Hwn & Hgn & Htn & Hun & Hutn).
    apply IH in H; [| assumption | assumption].
    destruct H as (new & ps & Hout & Hf2 & Hsc & Hcov & Hde & Hfull & Hwf'
                   & Hg' & Htz & Hle & Hend & Hlen & Hcal).
    rewrite Hc1, Htn, Hun in Hsc, Hcov.
    assert (Hend' : probe' = probe \/
                    utc_us probe' <= utc_us day_end + td_minutes 30).
    { right. destruct Hend as [-> | Hend]; [| exact Hend]. lia. }
    assert (Hhere : forall p, wf_datetime p -> on_grid p ->
              tzinfo p = tzinfo probe ->
              to_us probe <= to_us p < to_us probe' ->
              p = probe \/ to_us probe + td_minutes 30 <= to_us p).
    { intros p Hwp Hgp Htp Hr.
      destruct (Z.lt_ge_cases (to_us p) (to_us probe + td_minutes 30))
        as [Hlt | Hge]; [left | right; exact Hge].
      apply grid_slot_unique; try assumption. lia. }
    destruct avail.
    + destruct Hout1 as (s & Hps & ->).
      exists (s :: new), (probe :: ps).
      rewrite Hout, <- app_assoc. cbn [app].
      split; [reflexivity |]. split; [constructor; assumption |].
      split.
      { apply (scanned_app _ _ _ (to_us probe + td_minutes 30) _ [probe] ps).
        - apply scanned_one; [symmetry; exact Hav | assumption | assumption].
        - exact Hsc.
        - unfold td_minutes in *. lia. }
      split.
      { intros p Hwp Hgp Htp Hr Hfree.
        destruct (Hhere p Hwp Hgp Htp Hr) as [-> | Hge];
          [apply elem_of_cons; left; reflexivity |].
        apply elem_of_cons; right. apply Hcov; try assumption. lia. }
      split; [constructor; [exact C1 | exact Hde] |].
      split; [rewrite Hout, <- app_assoc in Hfull; exact Hfull |].
      split; [exact Hwf' |]. split; [exact Hg' |].
      split; [congruence |].
      split; [unfold td_minutes in *; lia |].
      split; [exact Hend' |].
      split; [| congruence].
      rewrite Hout in Hlen. rewrite !length_app in Hlen.
      rewrite length_app. cbn [length] in *. lia.
    + subst out1. exists new, ps.
      split; [exact Hout |]. split; [exact Hf2 |].
      split.
      { eapply scanned_widen; [| | exact Hsc]; unfold td_minutes; lia. }
      split.
      { intros p Hwp Hgp Htp Hr Hfree.
        destruct (Hhere p Hwp Hgp Htp Hr) as [-> | Hge];
          [rewrite Hfree in Hav; discriminate Hav |].
        apply Hcov; try assumption. lia. }
      split; [exact Hde |].
      split; [exact Hfull |].
      split; [exact Hwf' |]. split; [exact Hg' |].
      split; [congruence |].
      split; [unfold td_minutes in *; lia |].
      split; [exact Hend' |].
      split; [exact Hlen | congruence].
  - inversion H; subst. apply Hstop; assumption.
Qed.

(** The weekend loop: it ends on the next day that is not a Saturday or
    a Sunday, or overflows when that day is not in the calendar. *)
Lemma skip_weekend_run fuel probe w :
  wf_datetime probe ->
  skip_weekend (S (S fuel)) probe w =
  (if skip_weekend_ordinal (ordinal probe) <=? max_ordinal
   then Ret (mkdt (skip_weekend_ordinal (ordinal probe)) (hour probe)
               (minute probe) (second probe) (microsecond probe)
               (tzinfo probe))
   else Raise OverflowError, w).
Proof.
  intros Hwf. pose proof Hwf as (_ & _ & _ & _ & Ho).
  destruct probe as [o h m s u tz].
  unfold skip_weekend_ordinal.
  cbn [ordinal hour minute second microsecond tzinfo] in *.
  cbn [skip_weekend]. unfold weekday at 1. cbn [ordinal].
  pose proof (Z.mod_pos_bound (o + 6) 7 eq_refl) as Hmod.
  destruct (Z.leb_spec 5 ((o + 6) mod 7)) as [H5 | H5].
  - rewrite (dt_add_one_day _ Hwf).
    cbn [ordinal hour minute second microsecond tzinfo].
    destruct (Z.eqb_spec o max_ordinal) as [Emax | Emax].
    { cbn [expect]. unfold bind, raise.
      destruct (Z.eqb_spec ((o + 6) mod 7) 5);
        [destruct (Z.leb_spec (o + 2) max_ordinal); [lia | reflexivity] |].
      destruct (Z.eqb_spec ((o + 6) mod 7) 6); [| lia].
      destruct (Z.leb_spec (o + 1) max_ordinal); [lia | reflexivity]. }
    cbn [expect]. rewrite bind_ret_l.
    assert (Hwf1 : wf_datetime (mkdt (o + 1) h m s u tz)).
    { destruct Hwf as (Hh & Hm & Hs & Hu & _).
      unfold wf_datetime; simpl in *. lia. }
    destruct (Z.eqb_spec ((o + 6) mod 7) 5) as [E5 | E5].
    + assert (E6 : (o + 1 + 6) mod 7 = 6)
        by (clear - E5; Z.div_mod_to_equations; lia).
      cbn [skip_weekend]. unfold weekday at 1. cbn [ordinal].
      rewrite E6. cbn [Z.leb Z.compare Pos.compare Pos.compare_cont].
      rewrite (dt_add_one_day _ Hwf1).
      cbn [ordinal hour minute second microsecond tzinfo].
      destruct (Z.eqb_spec (o + 1) max_ordinal) as [Emax1 | Emax1].
      { cbn [expect]. unfold bind, raise.
        destruct (Z.leb_spec (o + 2) max_ordinal); [lia | reflexivity]. }
      cbn [expect]. rewrite bind_ret_l.
      assert (E0 : (o + 1 + 1 + 6) mod 7 = 0)
        by (clear - E5; Z.div_mod_to_equations; lia).
      replace (o + 2) with (o + 1 + 1) by lia.
      destruct (Z.leb_spec (o + 1 + 1) max_ordinal); [| lia].
      destruct fuel; cbn [skip_weekend]; unfold weekday; cbn [ordinal];
        rewrite E0; reflexivity.
    + assert (E6 : (o + 6) mod 7 = 6)
        by (clear - H5 E5; Z.div_mod_to_equations; lia).
      rewrite E6, Z.eqb_refl.
      assert (E0 : (o + 1 + 6) mod 7 = 0)
        by (clear - E6; Z.div_mod_to_equations; lia).
      cbn [skip_weekend]. unfold weekday at 1. cbn [ordinal].
      rewrite E0.
      destruct (Z.leb_spec (o + 1) max_ordinal); [reflexivity | lia].
  - destruct (Z.eqb_spec ((o + 6) mod 7) 5) as [E5 | E5]; [lia |].
    destruct (Z.eqb_spec ((o + 6) mod 7) 6) as [E6 | E6]; [lia |].
    destruct (Z.leb_spec o max_ordinal); [reflexivity | lia].
Qed.

Lemma scan_day_terminates fuel :
  forall limit day_end probe out w,
  utc_us day_end - utc_us probe < Z.of_nat fuel * td_minutes 30 ->
  fst (scan_day fuel limit day_end probe out w) <> Diverge.
Proof.
  induction fuel as [| fuel IH]; intros limit day_end probe out w Hf;
    cbn [scan_day];
    destruct (dt_leb probe day_end && (Z.of_nat (length out) <? limit))
      eqn:C; try discriminate.
  - apply andb_prop in C as [C _]. apply Z.leb_le in C.
    unfold td_minutes in Hf. lia.
  - apply andb_prop in C as [C _]. apply Z.leb_le in C.
    apply terminates_bind; [apply terminates_is_slot_available |].
    intros avail. apply terminates_bind.
    + destruct avail; halts.
    + intros out1 w1.
      destruct (dt_add probe (td_minutes 30)) as [next |] eqn:Ea;
        cbn [expect]; [| discriminate].
      rewrite bind_ret_l. apply IH.
      rewrite (dt_add_utc_us _ _ _ Ea). unfold td_minutes in *. lia.
Qed.

Lemma scan_day_terminates_40 limit probe out w :
  wf_datetime probe ->
  fst (scan_day 40 limit (replace_hour probe 18 0 0 0) probe out w)
  <> Diverge.
Proof.
  intros (Hh & Hm & Hs & Hu & _). apply scan_day_terminates.
  unfold utc_us, to_us, td_minutes; simpl. lia.
Qed.

(** The step of the outer loop from the end of a day scan to the first
    probe of the next candidate day. *)
Lemma next_day_run (p1 : datetime) {A} (k : datetime -> M A) w :
  wf_datetime p1 ->
  (let! probe := expect OverflowError (dt_add p1 (td_days 1)) in
   let probe := replace_hour probe 9 0 0 0 in
   let! probe := skip_weekend 7 probe in
   k probe) w =
  if skip_weekend_ordinal (ordinal p1 + 1) <=? max_ordinal
  then k (mkdt (skip_weekend_ordinal (ordinal p1 + 1)) 9 0 0 0 (tzinfo p1)) w
  else (Raise OverflowError, w).
Proof.
  intros Hwf. pose proof Hwf as (_ & _ & _ & _ & Ho).
  rewrite (dt_add_one_day p1 Hwf).
  pose proof (skip_weekend_ordinal_ge (ordinal p1 + 1)) as Hge.
  destruct (Z.eqb_spec (ordinal p1) max_ordinal) as [E | E].
  - cbn [expect]. unfold bind at 1, raise.
    destruct (Z.leb_spec (skip_weekend_ordinal (ordinal p1 + 1)) max_ordinal);
      [lia | reflexivity].
  - cbn [expect]. rewrite bind_ret_l. cbv zeta.
    unfold replace_hour.
    cbn [ordinal hour minute second microsecond tzinfo].
    set (next := mkdt (ordinal p1 + 1) 9 0 0 0 (tzinfo p1)).
    assert (Hwn : wf_datetime next)
      by (unfold wf_datetime, next; simpl; lia).
    unfold bind at 1. rewrite (skip_weekend_run 5 next w Hwn).
    cbn [ordinal hour minute second microsecond tzinfo next].
    destruct (skip_weekend_ordinal (ordinal p1 + 1) <=? max_ordinal);
      reflexivity.
Qed.

(** The outer loop: the slots it adds are built for probes in
    increasing order, all free business slots on the grid, on the
    candidate days; no free slot up to a collected one is left out, and
    a scan that ends below the limit leaves out no free slot of its
    candidate days. *)
Lemma scan_days_full fuel :
  forall limit probe out days w out' w',
  wf_datetime probe -> on_grid probe ->
  scan_days fuel limit probe out days w = (Ret out', w') ->
  exists new ps hi,
    out' = out ++ new /\ Forall2 probe_of new ps /\
    scanned (calendar w) (tzinfo probe) (to_us probe) hi ps /\
    Forall (fun p => ordinal p ∈
                       candidate_days (Z.to_nat (8 - days)) (ordinal probe))
           ps /\
    Z.of_nat (length out') <= Z.max (Z.of_nat (length out)) limit /\
    (limit <= Z.of_nat (length out) -> ps = []) /\
    (forall q, q ∈ ps ->
       covered (calendar w) (tzinfo probe) (to_us probe) (to_us q + 1) ps) /\
    (Z.of_nat (length out') < limit ->
     forall p, wf_datetime p -> on_grid p -> tzinfo p = tzinfo probe ->
       to_us probe <= to_us p ->
       ordinal p ∈ candidate_days (Z.to_nat (8 - days)) (ordinal probe) ->
       free_on (calendar w) p = true -> p ∈ ps) /\
    calendar w' = calendar w.
Proof.
  assert (Hstop : forall limit probe out days (w : world),
    (Z.of_nat (length out) <? limit) && (days <? 8) = false ->
    exists new ps hi,
      out = out ++ new /\ Forall2 probe_of new ps /\
      scanned (calendar w) (tzinfo probe) (to_us probe) hi ps /\
      Forall (fun p => ordinal p ∈
                candidate_days (Z.to_nat (8 - days)) (ordinal probe)) ps /\
      Z.of_nat (length out) <= Z.max (Z.of_nat (length out)) limit /\
      (limit <= Z.of_nat (length out) -> ps = []) /\
      (forall q, q ∈ ps ->
         covered (calendar w) (tzinfo probe) (to_us probe) (to_us q + 1) ps) /\
      (Z.of_nat (length out) < limit ->
       forall p, wf_datetime p -> on_grid p -> tzinfo p = tzinfo probe ->
         to_us probe <= to_us p ->
         ordinal p ∈ candidate_days (Z.to_nat (8 - days)) (ordinal probe) ->
         free_on (calendar w) p = true -> p ∈ ps) /\
      calendar w = calendar w).
  { intros limit probe out days w C. exists [], [], (to_us probe).
    rewrite app_nil_r.
    split; [reflexivity |]. split; [constructor |].
    split; [apply scanned_nil |]. split; [constructor |].
    split; [lia |]. split; [reflexivity |].
    split; [intros q Hq; apply elem_of_nil in Hq; destruct Hq |].
    split; [| reflexivity].
    intros Hlt p _ _ _ _ Hord _.
    apply andb_false_iff in C as [C | C].
    - apply Z.ltb_ge in C. lia.
    - apply Z.ltb_ge in C.
      replace (Z.to_nat (8 - days)) with 0%nat in Hord by lia.
      apply elem_of_nil in Hord. destruct Hord. }
  induction fuel as [| fuel IH];
    intros limit probe out days w out' w' Hwf Hg H;
    cbn [scan_days] in H;
    destruct ((Z.of_nat (length out) <? limit) && (days <? 8)) eqn:C.
  - discriminate H.
  - inversion H; subst. apply Hstop. exact C.
  - apply andb_prop in C as [C1 C2].
    apply Z.ltb_lt in C1. apply Z.ltb_lt in C2.
    step_in H. destruct a as [p1 out1]. rename w0 into w1.
    apply scan_day_full in E; [| assumption | assumption].
    destruct E as (new1 & ps1 & Hout1 & Hf1 & Hsc1 & Hcov1 & Hde1 & Hfull1
                   & Hwf1 & Hg1 & Htz1 & Hle1 & Hend1 & Hlen1 & Hcal1).
    pose proof (wf_datetime_time _ Hwf) as Hwt.
    pose proof (wf_datetime_time _ Hwf1) as Hwt1.
    assert (Hday : forall p, wf_datetime p -> tzinfo p = tzinfo probe ->
              to_us probe <= to_us p ->
              utc_us p <= utc_us (replace_hour probe 18 0 0 0) + td_minutes 30 ->
              ordinal p = ordinal probe).
    { intros p Hwp Htp Hlo Hhi.
      pose proof (to_us_day_bounds p (wf_datetime_time _ Hwp)) as Hb.
      pose proof (to_us_day_bounds probe Hwt) as Hb0.
      unfold utc_us in Hhi. rewrite Htp in Hhi.
      cbn [tzinfo replace_hour] in Hhi.
      unfold to_us at 2 in Hhi. cbn [ordinal hour minute second microsecond
        replace_hour] in Hhi. unfold td_minutes in Hhi. lia. }
    assert (Ho1 : ordinal p1 = ordinal probe).
    { destruct Hend1 as [-> | Hend1]; [reflexivity |].
      apply Hday; assumption. }
    cbv zeta in H. rewrite (next_day_run p1 _ w1 Hwf1) in H.
    destruct (Z.leb_spec (skip_weekend_ordinal (ordinal p1 + 1)) max_ordinal)
      as [Hmax | Hmax]; [| discriminate H].
    set (next' := mkdt (skip_weekend_ordinal (ordinal p1 + 1)) 9 0 0 0
                    (tzinfo p1)) in H.
    pose proof (skip_weekend_ordinal_ge (ordinal p1 + 1)) as Hge1.
    assert (Hwn' : wf_datetime next').
    { destruct Hwf1 as (_ & _ & _ & _ & Ho).
      unfold wf_datetime, next'; simpl. lia. }
    apply IH in H; [| exact Hwn' | unfold on_grid; simpl; lia].
    destruct H as (new2 & ps2 & hi2 & Hout2 & Hf2 & Hsc2 & Hd2 & Hlen2
                   & Hnil2 & Hearly2 & Hfull2 & Hcal2).
    rewrite Hcal1 in Hsc2, Hearly2, Hfull2.
    cbn [tzinfo ordinal next'] in Hsc2, Hearly2, Hfull2, Hd2.
    rewrite Htz1 in Hsc2, Hearly2, Hfull2.
    assert (Hnext : to_us p1 <= to_us next').
    { pose proof (to_us_day_bounds p1 Hwt1) as Hb.
      unfold to_us at 2. cbn [ordinal hour minute second microsecond next'].
      lia. }
    assert (Hus : to_us next'
                  = (skip_weekend_ordinal (ordinal p1 + 1) * 24 + 9)
                    * 3600000000).
    { unfold to_us. cbn [ordinal hour minute second microsecond next']. lia. }
    (* a free slot at or after the end of the day scan is on a later
       candidate day *)
    assert (Hgap : Z.of_nat (length out1) < limit ->
              forall p, wf_datetime p -> tzinfo p = tzinfo probe ->
                to_us p1 <= to_us p -> free_on (calendar w) p = true ->
                to_us next' <= to_us p).
    { intros Hlt p Hwp Htp Hge Hfree.
      apply Hfull1 in Hlt.
      apply free_on_business, business_hours_inv in Hfree
        as (Hwd & Hhr & _).
      unfold utc_us in Hlt. rewrite Htz1 in Hlt.
      cbn [tzinfo replace_hour] in Hlt.
      unfold to_us at 1 in Hlt.
      cbn [ordinal hour minute second microsecond replace_hour] in Hlt.
      assert (Hop : ordinal p1 + 1 <= ordinal p).
      { rewrite Ho1. destruct Hwp as (_ & Hm & Hs & Hu & _).
        unfold to_us in Hge at 2. lia. }
      pose proof (skip_weekend_ordinal_least _ _ Hop Hwd) as Hsk.
      rewrite Hus. destruct Hwp as (_ & Hm & Hs & Hu & _). unfold to_us. lia. }
    assert (Hlen1' : length out' = (length out1 + length new2)%nat)
      by (rewrite Hout2; apply length_app).
    exists (new1 ++ new2), (ps1 ++ ps2), (Z.max (to_us p1) hi2).
    split; [rewrite Hout2, Hout1; symmetry; apply app_assoc |].
    split; [apply Forall2_app; assumption |].
    split.
    { apply (scanned_app _ _ _ (to_us p1)); [exact Hsc1 | | lia].
      eapply scanned_widen; [| | exact Hsc2]; lia. }
    split.
    { rewrite (candidate_days_step days _ C2). apply Forall_app. split.
      - destruct Hsc1 as [_ Hsc1].
        rewrite Forall_forall in Hsc1, Hde1. apply Forall_forall.
        intros p Hp. specialize (Hsc1 p Hp). specialize (Hde1 p Hp).
        destruct Hsc1 as (_ & Hwp & Htp & _ & Hlo & _).
        rewrite (Hday p Hwp Htp Hlo); [left |].
        unfold td_minutes. lia.
      - eapply Forall_impl; [exact Hd2 |]. cbn. intros p Hp. right.
        unfold next_weekday. rewrite <- Ho1. exact Hp. }
    split; [lia |].
    split; [intros Hge; lia |].
    split.
    { intros q Hq p Hwp Hgp Htp Hr Hfree.
      apply elem_of_app.
      destruct (Z.lt_ge_cases (to_us p) (to_us p1)) as [Hlt | Hge];
        [left; apply Hcov1; try assumption; lia |].
      apply elem_of_app in Hq as [Hq | Hq].
      - destruct Hsc1 as [_ Hsc1]. rewrite Forall_forall in Hsc1.
        specialize (Hsc1 q Hq). lia.
      - right.
        assert (Hlt1 : Z.of_nat (length out1) < limit).
        { destruct (Z.lt_ge_cases (Z.of_nat (length out1)) limit)
            as [Hl | Hl]; [exact Hl |].
          rewrite (Hnil2 Hl) in Hq. apply elem_of_nil in Hq. destruct Hq. }
        apply (Hearly2 q Hq); try assumption.
        pose proof (Hgap Hlt1 p Hwp Htp Hge Hfree). lia. }
    split; [| congruence].
    intros Hlt p Hwp Hgp Htp Hlo Hord Hfree.
    assert (Hlt1 : Z.of_nat (length out1) < limit) by lia.
    apply elem_of_app.
    destruct (Z.lt_ge_cases (to_us p) (to_us p1)) as [Hlt' | Hge];
      [left; apply Hcov1; try assumption; lia |].
    right.
    pose proof (Hgap Hlt1 p Hwp Htp Hge Hfree) as Hp.
    rewrite (candidate_days_step days _ C2) in Hord.
    apply elem_of_cons in Hord as [Hord | Hord].
    + pose proof (to_us_day_bounds p (wf_datetime_time _ Hwp)) as Hb.
      rewrite Hus in Hp. lia.
    + apply Hfull2; try assumption.
      unfold next_weekday in Hord. rewrite Ho1. exact Hord.
  - inversion H; subst. apply Hstop. exact C.
Qed.

Lemma scan_days_terminates fuel :
  forall limit probe out days w,
  wf_datetime probe -> on_grid probe -> 8 - days <= Z.of_nat fuel ->
  fst (scan_days fuel limit probe out days w) <> Diverge.
Proof.
  induction fuel as [| fuel IH]; intros limit probe out days w Hwf Hg Hf;
    cbn [scan_days];
    destruct ((Z.of_nat (length out) <? limit) && (days <? 8)) eqn:C.
  - apply andb_prop in C as [_ C]. apply Z.ltb_lt in C. lia.
  - cbn. discriminate.
  - destruct (scan_day 40 limit (replace_hour probe 18 0 0 0) probe out w)
      as [[[p1 out1] | e |] w1] eqn:E.
    + rewrite (bind_run _ _ _ _ _ E).
      apply scan_day_full in E; [| assumption | assumption].
      destruct E as (_ & _ & _ & _ & _ & _ & _ & _ & Hwf1 & _).
      cbv zeta. rewrite (next_day_run p1 _ w1 Hwf1).
      destruct (Z.leb_spec (skip_weekend_ordinal (ordinal p1 + 1))
                  max_ordinal) as [Hmax | Hmax]; [| cbn; discriminate].
      pose proof (skip_weekend_ordinal_ge (ordinal p1 + 1)) as Hge1.
      apply IH; [| unfold on_grid; simpl; lia | lia].
      destruct Hwf1 as (_ & _ & _ & _ & Ho).
      unfold wf_datetime; simpl. lia.
    + rewrite (bind_raise _ _ _ _ _ E). cbn. discriminate.
    + pose proof (scan_day_terminates_40 limit probe out w Hwf) as Ht.
      rewrite E in Ht. contradiction.
  - cbn. discriminate.
Qed.

(** ** The anchor of the scan *)

Lemma dt_max_Some a b c :
  dt_max a b = Some c ->
  comparable a b = true /\ (c = a \/ c = b) /\
  utc_us a <= utc_us c /\ utc_us b <= utc_us c.
Proof.
  unfold dt_max, dt_ltb. destruct (comparable a b); [| discriminate].
  intros H. inversion H; subst. split; [reflexivity |].
  destruct (Z.ltb_spec (utc_us a) (utc_us b)); (split; [auto | lia]).
Qed.

Lemma dt_max_aware a b :
  is_Some (tzinfo a) -> is_Some (tzinfo b) ->
  dt_max a b = Some (if dt_ltb a b then b else a).
Proof.
  intros [ta Ha] [tb Hb]. unfold dt_max, comparable. rewrite Ha, Hb.
  reflexivity.
Qed.

Lemma top_slots_run anchor limit w :
  top_slots anchor limit w =
  match dt_add (now w) (td_minutes 60) with
  | None => (Raise OverflowError, w)
  | Some later =>
    match dt_max anchor later with
    | None => (Raise TypeError, w)
    | Some clamped =>
      match round_to_next_half_hour clamped with
      | None => (Raise OverflowError, w)
      | Some first => scan_days 8 limit first [] 0 w
      end
    end
  end.
Proof.
  unfold top_slots. rewrite (bind_run get_now _ w (now w) w eq_refl).
  destruct (dt_add (now w) (td_minutes 60)) as [later |]; [| reflexivity].
  cbn [expect]. rewrite bind_ret_l.
  destruct (dt_max anchor later) as [clamped |]; [| reflexivity].
  cbn [expect]. rewrite bind_ret_l.
  destruct (round_to_next_half_hour clamped) as [first |]; reflexivity.
Qed.

(** The first probe of a scan that got as far as the loop. *)
Lemma top_slots_first anchor w later clamped first :
  wf_datetime anchor ->
  dt_add (now w) (td_minutes 60) = Some later ->
  dt_max anchor later = Some clamped ->
  round_to_next_half_hour clamped = Some first ->
  wf_datetime first /\ on_grid first.
Proof.
  intros Hwf Hl Hc Hf. split; [| exact (round_on_grid _ _ Hf)].
  apply (wf_round clamped first); [| exact Hf].
  apply dt_max_Some in Hc as (_ & [-> | ->] & _);
    [exact Hwf | exact (dt_add_wf _ _ _ Hl)].
Qed.

Lemma top_slots_terminates anchor limit :
  wf_datetime anchor -> terminates (top_slots anchor limit).
Proof.
  intros Hwf w. rewrite top_slots_run.
  destruct (dt_add (now w) (td_minutes 60)) as [later |] eqn:El;
    [| cbn; discriminate].
  destruct (dt_max anchor later) as [clamped |] eqn:Ec;
    [| cbn; discriminate].
  destruct (round_to_next_half_hour clamped) as [first |] eqn:Ef;
    [| cbn; discriminate].
  destruct (top_slots_first anchor w later clamped first Hwf El Ec Ef)
    as [Hwff Hgf].
  apply scan_days_terminates; [exact Hwff | exact Hgf | lia].
Qed.

(** What [top_slots] returns: the earliest free business slots from the
    rounded clamped anchor on. *)
Lemma top_slots_full anchor limit w out w' :
  wf_datetime anchor ->
  top_slots anchor limit w = (Ret out, w') ->
  exists later clamped first ps hi,
    dt_add (now w) (td_minutes 60) = Some later /\
    dt_max anchor later = Some clamped /\
    round_to_next_half_hour clamped = Some first /\
    wf_datetime first /\
    Forall2 probe_of out ps /\
    scanned (calendar w) (tzinfo first) (to_us first) hi ps /\
    Forall (fun p => ordinal p ∈ candidate_days 8 (ordinal first)) ps /\
    Z.of_nat (length out) <= Z.max 0 limit /\
    (forall q, q ∈ ps ->
       covered (calendar w) (tzinfo first) (to_us first) (to_us q + 1) ps) /\
    (Z.of_nat (length out) < limit ->
     forall p, wf_datetime p -> on_grid p -> tzinfo p = tzinfo first ->
       to_us first <= to_us p ->
       ordinal p ∈ candidate_days 8 (ordinal first) ->
       free_on (calendar w) p = true -> p ∈ ps).
Proof.
  intros Hwf H. rewrite top_slots_run in H.
  destruct (dt_add (now w) (td_minutes 60)) as [later |] eqn:El;
    [| discriminate H].
  destruct (dt_max anchor later) as [clamped |] eqn:Ec; [| discriminate H].
  destruct (round_to_next_half_hour clamped) as [first |] eqn:Ef;
    [| discriminate H].
  destruct (top_slots_first anchor w later clamped first Hwf El Ec Ef)
    as [Hwff Hgf].
  apply scan_days_full in H; [| exact Hwff | exact Hgf].
  destruct H as (new & ps & hi & Hout & Hf & Hsc & Hd & Hlen & _ & Hearly
                 & Hfull & _).
  cbn [app] in Hout. subst new.
  change (Z.to_nat (8 - 0)) with 8%nat in Hd, Hfull.
  exists later, clamped, first, ps, hi.
  split; [reflexivity |]. split; [exact Ec |]. split; [exact Ef |].
  split; [exact Hwff |]. split; [exact Hf |]. split; [exact Hsc |].
  split; [exact Hd |]. split; [cbn [length] in Hlen; exact Hlen |].
  split; [exact Hearly | exact Hfull].
Qed.

(** ** When nothing fails *)

Lemma no_raise_ret {A} (a : A) : no_raise (ret a).
Proof. intros w e. discriminate. Qed.

Lemma no_raise_diverge {A} : no_raise (@diverge A).
Proof. intros w e. discriminate. Qed.

Lemma no_raise_bind {A B} (m : M A) (k : A -> M B) :
  no_raise m -> (forall a, no_raise (k a)) -> no_raise (bind m k).
Proof.
  intros Hm Hk w e. unfold bind. specialize (Hm w).
  destruct (m w) as [[a | e' |] w1]; cbn in *;
    [apply Hk | exfalso; apply (Hm e'); reflexivity | discriminate].
Qed.

Lemma returns_of_total {A} (m : M A) w :
  fst (m w) <> Diverge -> (forall e, fst (m w) <> Raise e) ->
  exists a, fst (m w) = Ret a.
Proof.
  intros Ht Hn.
  destruct (m w) as [[a | e |] w1]; cbn in *;
    [eauto | exfalso; apply (Hn e); reflexivity | contradiction].
Qed.

(** The sums of the scan stay in the calendar as long as the probes are
    some days before its end. *)
Lemma shift_ordinal_bounds d delta :
  wf_time d -> 0 <= delta <= td_days 1 ->
  ordinal d <= ordinal (shift d delta) <= ordinal d + 1.
Proof.
  intros Hwt Hd.
  pose proof (to_us_day_bounds d Hwt) as Hb.
  pose proof (to_us_day_bounds _ (wf_time_shift d delta)) as Hb'.
  rewrite to_us_shift in Hb'. unfold td_days in Hd. lia.
Qed.

Lemma dt_add_in_calendar d delta :
  wf_datetime d -> 0 <= delta <= td_days 1 ->
  ordinal d + 1 <= max_ordinal ->
  exists r, dt_add d delta = Some r /\
            ordinal d <= ordinal r <= ordinal d + 1.
Proof.
  intros Hwf Hd Hmax.
  pose proof (shift_ordinal_bounds d delta (wf_datetime_time _ Hwf) Hd) as Hb.
  destruct Hwf as (_ & _ & _ & _ & Ho).
  exists (shift d delta). split; [| exact Hb].
  apply dt_add_Some. split; [reflexivity | lia].
Qed.

Lemma round_in_calendar d :
  wf_datetime d -> ordinal d + 1 <= max_ordinal ->
  exists r, round_to_next_half_hour d = Some r /\
            ordinal d <= ordinal r <= ordinal d + 1.
Proof.
  intros Hwf Hmax.
  destruct (round_to_next_half_hour d) as [r |] eqn:E.
  - exists r. split; [reflexivity |].
    revert E. unfold round_to_next_half_hour.
    rewrite (dt_add_one_hour d Hwf).
    destruct (((minute d =? 0) || (minute d =? 30)) && (second d =? 0)
              && (microsecond d =? 0));
      [intros Hr; inversion Hr; subst; lia |].
    destruct (minute d <? 15);
      [intros Hr; inversion Hr; subst; simpl; lia |].
    destruct (minute d <? 45);
      [intros Hr; inversion Hr; subst; simpl; lia |].
    destruct (Z.eqb_spec (hour d) 23);
      destruct (Z.eqb_spec (ordinal d) max_ordinal); cbn [andb];
      intros Hr; inversion Hr; subst; simpl; lia.
  - apply (round_None d Hwf) in E. lia.
Qed.

Section ProvidersUp.

Hypothesis providers_up : forall w c, fails w c = false.
Hypothesis timestamps_parse : forall d, is_Some (du_isoparse (isoformat d)).

Lemma is_slot_available_up d w :
  wf_datetime d -> forall e, fst (is_slot_available d w) <> Raise e.
Proof.
  intros Hwf e. rewrite is_slot_available_run.
  destruct (is_business_hours d) eqn:Hb; cbn [negb]; [| discriminate].
  destruct (dt_add_business d Hwf Hb) as [-> _].
  cbv zeta. rewrite providers_up. discriminate.
Qed.

Lemma make_slot_up p w :
  is_Some (dt_add p (td_minutes 30)) ->
  forall e, fst (make_slot p w) <> Raise e.
Proof.
  intros [r Hr] e. rewrite make_slot_run, Hr. unfold speakable_text.
  destruct (timestamps_parse p) as [s ->].
  destruct (timestamps_parse r) as [s' ->].
  discriminate.
Qed.

(** A day scan towards an end of day at 18:00 raises nothing. *)
Lemma scan_day_up fuel :
  forall limit day_end probe out w e,
  wf_datetime probe -> on_grid probe ->
  wf_datetime day_end -> tzinfo day_end = tzinfo probe ->
  hour day_end < 23 ->
  fst (scan_day fuel limit day_end probe out w) <> Raise e.
Proof.
  induction fuel as [| fuel IH];
    intros limit day_end probe out w e Hwf Hg Hwe Htz Hh;
    cbn [scan_day];
    destruct (dt_leb probe day_end && (Z.of_nat (length out) <? limit))
      eqn:C; try discriminate.
  apply andb_prop in C as [C _]. apply Z.leb_le in C.
  assert (Hadd : exists next, dt_add probe (td_minutes 30) = Some next).
  { exists (shift probe (td_minutes 30)). apply dt_add_Some.
    split; [reflexivity |].
    pose proof (wf_datetime_time _ Hwf) as Hwt.
    pose proof (to_us_day_bounds probe Hwt) as Hb.
    pose proof (to_us_day_bounds _ (wf_time_shift probe (td_minutes 30)))
      as Hb'.
    rewrite to_us_shift in Hb'.
    unfold utc_us in C. rewrite Htz in C.
    destruct Hwf as (_ & _ & _ & _ & Ho).
    destruct Hwe as (_ & Hm & Hs & Hu & Ho').
    unfold to_us in C at 2. unfold td_minutes in *. lia. }
  destruct Hadd as [next Hadd].
  destruct (next_probe probe next Hwf Hg Hadd)
    as (Hwn & Hgn & Htn & _ & _).
  destruct (is_slot_available probe w) as [[avail | e1 |] w1] eqn:Ea.
  - rewrite (bind_run _ _ _ _ _ Ea).
    assert (Hcol : exists out1,
      (if avail then let! s := make_slot probe in ret (out ++ [s])
       else ret out) w1 = (Ret out1, w1)).
    { destruct avail; [| eexists; reflexivity].
      pose proof (make_slot_up probe w1 (ex_intro _ next Hadd)) as Hm.
      rewrite make_slot_run in *. rewrite Hadd in *.
      unfold bind. rewrite make_slot_run, Hadd.
      destruct (speakable_text _ _) as [sp |];
        [eexists; reflexivity | exfalso; apply (Hm ValueError); reflexivity]. }
    destruct Hcol as [out1 Hcol]. rewrite (bind_run _ _ _ _ _ Hcol).
    rewrite Hadd. cbn [expect]. rewrite bind_ret_l.
    apply IH; try assumption. congruence.
  - exfalso. apply (is_slot_available_up probe w Hwf e1).
    rewrite Ea. reflexivity.
  - rewrite (bind_diverge _ _ _ _ Ea). discriminate.
Qed.

(** The outer loop raises nothing when its first probe is at least
    three days for every remaining candidate day before the end of the
    calendar. *)
Lemma scan_days_up fuel :
  forall limit probe out days w e,
  wf_datetime probe -> on_grid probe ->
  ordinal probe + 3 * (8 - days) <= max_ordinal ->
  fst (scan_days fuel limit probe out days w) <> Raise e.
Proof.
  induction fuel as [| fuel IH];
    intros limit probe out days w e Hwf Hg Hmargin;
    cbn [scan_days];
    destruct ((Z.of_nat (length out) <? limit) && (days <? 8)) eqn:C;
    try discriminate.
  apply andb_prop in C as [_ C]. apply Z.ltb_lt in C.
  destruct (scan_day 40 limit (replace_hour probe 18 0 0 0) probe out w)
    as [[[p1 out1] | e1 |] w1] eqn:E.
  - rewrite (bind_run _ _ _ _ _ E).
    apply scan_day_full in E; [| assumption | assumption].
    destruct E as (_ & _ & _ & _ & _ & _ & _ & _ & Hwf1 & Hg1 & Htz1
                   & Hle1 & Hend1 & _).
    assert (Ho1 : ordinal p1 = ordinal probe).
    { destruct Hend1 as [-> | Hend1]; [reflexivity |].
      pose proof (to_us_day_bounds p1 (wf_datetime_time _ Hwf1)) as Hb.
      pose proof (to_us_day_bounds probe (wf_datetime_time _ Hwf)) as Hb0.
      unfold utc_us in Hend1. rewrite Htz1 in Hend1.
      cbn [tzinfo replace_hour] in Hend1.
      unfold to_us at 2 in Hend1.
      cbn [ordinal hour minute second microsecond replace_hour] in Hend1.
      unfold td_minutes in Hend1. lia. }
    cbv zeta. rewrite (next_day_run p1 _ w1 Hwf1).
    pose proof (skip_weekend_ordinal_ge (ordinal p1 + 1)) as Hge1.
    pose proof (skip_weekend_ordinal_le (ordinal p1 + 1)) as Hle2.
    destruct (Z.leb_spec (skip_weekend_ordinal (ordinal p1 + 1))
                max_ordinal) as [Hmax | Hmax]; [| lia].
    apply IH; [| unfold on_grid; simpl; lia | simpl; lia].
    destruct Hwf1 as (_ & _ & _ & _ & Ho).
    unfold wf_datetime; simpl. lia.
  - exfalso.
    apply (scan_day_up 40 limit (replace_hour probe 18 0 0 0) probe out w e1);
      try assumption; try reflexivity.
    + apply wf_replace_hour; [exact Hwf | lia].
    + rewrite E. reflexivity.
  - rewrite (bind_diverge _ _ _ _ E). discriminate.
Qed.

(** [top_slots] returns when anchor and clock are aware datetimes a
    month before the end of the calendar. *)
Lemma top_slots_up anchor limit w :
  wf_datetime anchor -> is_Some (tzinfo anchor) ->
  wf_datetime (now w) -> is_Some (tzinfo (now w)) ->
  ordinal anchor + 30 <= max_ordinal ->
  ordinal (now w) + 30 <= max_ordinal ->
  forall e, fst (top_slots anchor limit w) <> Raise e.
Proof.
  intros Hwf Haw Hwn Hawn Hma Hmn e. rewrite top_slots_run.
  destruct (dt_add_in_calendar (now w) (td_minutes 60) Hwn)
    as (later & Hl & Hol); [unfold td_minutes, td_days; lia | lia |].
  rewrite Hl.
  pose proof (dt_add_wf _ _ _ Hl) as Hwl.
  assert (Hawl : is_Some (tzinfo later))
    by (rewrite (dt_add_tzinfo _ _ _ Hl); exact Hawn).
  rewrite (dt_max_aware anchor later Haw Hawl).
  set (clamped := if dt_ltb anchor later then later else anchor).
  assert (Hwc : wf_datetime clamped /\ ordinal clamped + 29 <= max_ordinal).
  { unfold clamped. destruct (dt_ltb anchor later); split;
      [exact Hwl | lia | exact Hwf | lia]. }
  destruct Hwc as [Hwc Hmc].
  destruct (round_in_calendar clamped Hwc) as (first & Hf & Hof); [lia |].
  rewrite Hf.
  apply scan_days_up;
    [exact (wf_round _ _ Hwc Hf) | exact (round_on_grid _ _ Hf) | lia].
Qed.

End ProvidersUp.

Lemma StronglySorted_impl_Forall {A} (R R' : A -> A -> Prop)
    (P : A -> Prop) (l : list A) :
  (forall x y, P x -> P y -> R x y -> R' x y) ->
  Forall P l -> StronglySorted R l -> StronglySorted R' l.
Proof.
  intros HR HP HS. induction HS as [| x l HS IH Hx]; [constructor |].
  inversion HP as [| ? ? Px Pl]; subst. constructor; [apply IH, Pl |].
  rewrite Forall_forall in Hx, Pl. apply Forall_forall.
  intros y Hy. apply HR; [exact Px | apply Pl, Hy | apply Hx, Hy].
Qed.

(** A stretch of a scan, read on the UTC time line. *)
Lemma scanned_utc cal (first : datetime) hi ps :
  scanned cal (tzinfo first) (to_us first) hi ps ->
  StronglySorted (fun p q => utc_us p < utc_us q) ps /\
  Forall (fun p => free_on cal p = true /\ on_grid p /\
                   tzinfo p = tzinfo first /\
                   utc_us first <= utc_us p) ps.
Proof.
  intros [Hs Hf]. split.
  - eapply StronglySorted_impl_Forall; [| exact Hf | exact Hs].
    cbn. intros x y (_ & _ & Hx & _) (_ & _ & Hy & _) Hlt.
    unfold utc_us. rewrite Hx, Hy. lia.
  - eapply Forall_impl; [exact Hf |]. cbn.
    intros p (Hfree & _ & Htz & Hg & Hlo & _).
    split; [exact Hfree |]. split; [exact Hg |]. split; [exact Htz |].
    unfold utc_us. rewrite Htz. lia.
Qed.

Lemma find_available_slots_run text limit a w :
  du_parse text = Some a ->
  let anchor := match tzinfo a with
                | None => tz_localize a
                | Some _ => astimezone a
                end in
  find_available_slots text limit w =
  match round_to_next_half_hour anchor with
  | None => (Raise OverflowError, w)
  | Some rounded =>
    bind (is_slot_available rounded)
      (fun avail =>
         if avail
         then let! preferred_slot := make_slot rounded in
              ret (FindSlotsRes.mk [preferred_slot]
                     (Some "preferred_time_available"%string))
         else let! slots := top_slots anchor limit in
              ret (FindSlotsRes.mk slots
                     (Some (match slots with
                            | [] => "no_slots_available"
                            | _ :: _ => "preferred_time_busy"
                            end)%string))) w
  end.
Proof.
  intros Hparse anchor. unfold find_available_slots.
  unfold bind at 1. rewrite Hparse. cbn [expect ret]. cbv zeta.
  fold anchor.
  destruct (round_to_next_half_hour anchor) as [rounded |]; [| reflexivity].
  cbn [expect]. rewrite bind_ret_l. reflexivity.
Qed.


(** ** More on the helpers *)


(** X4. The shape of a booking reference: when the digest has at least
    six characters, the reference has seven, the fourth is a hyphen,
    the other six are the first six of the digest in upper case, and
    the reference holds no lower-case letter. *)
Theorem booking_ref_key_format (n c s t : string) :
  let digest := sha1_hexdigest
                  (n +:+ "|" +:+ c +:+ "|" +:+ s +:+ "|" +:+ t) in
  (6 <= String.length digest)%nat ->
  let r := booking_ref_key n c s t in
  String.length r = 7%nat /\
  String.get 3 r = Some "-"%char /\
  str_take 3 r +:+ str_drop 4 r = upper (str_take 6 digest) /\
  upper r = r.
Proof.
  intros digest Hlen r. unfold r, booking_ref_key. fold digest.
  set (h := upper (str_take 6 digest)).
  assert (Hh : String.length h = 6%nat).
  { unfold h, upper. rewrite length_str_map, length_str_take. lia. }
  assert (Hup : upper h = h) by apply upper_idem.
  destruct h as [| c1 [| c2 [| c3 [| c4 [| c5 [| c6 [| c7 h']]]]]]];
    try discriminate Hh.
  unfold upper in Hup. cbn [str_map] in Hup.
  injection Hup as U1 U2 U3 U4 U5 U6.
  change (str_take 3 (String c1 (String c2 (String c3 (String c4
            (String c5 (String c6 EmptyString))))))
          +:+ "-" +:+
          str_drop 3 (String c1 (String c2 (String c3 (String c4
            (String c5 (String c6 EmptyString)))))))
    with (String c1 (String c2 (String c3 (String "-" (String c4
            (String c5 (String c6 EmptyString))))))).
  repeat split; try reflexivity.
  unfold upper. cbn [str_map].
  change (ascii_upper "-") with "-"%char.
  rewrite U1, U2, U3, U4, U5, U6. reflexivity.
Qed.

(** X5. The reference does not keep the fields apart: the digest is
    taken of the fields joined by a bar, so moving a bar-separated part
    from the end of the name to the front of the contact gives the same
    reference. *)
Theorem booking_ref_key_joins_fields (n x c s t : string) :
  booking_ref_key (n +:+ "|" +:+ x) c s t
  = booking_ref_key n (x +:+ "|" +:+ c) s t.
Proof.
  unfold booking_ref_key. rewrite !append_assoc. reflexivity.
Qed.

(** X6. Lookup by reference never fails and only reads: it answers
    after one request; a failing request reads as "not found";
    otherwise the answer is the first event of the calendar tagged with
    the reference, so a hit is an event of the calendar that carries
    the reference. *)
Theorem find_booking_by_ref_spec (ref : string) (w : world) :
  exists r,
    find_booking_by_ref ref w = (Ret r, record_call (events_list_ref ref) w) /\
    (fails w (events_list_ref ref) = true -> r = None) /\
    (fails w (events_list_ref ref) = false ->
     r = head (filter (fun ev => has_ref ref ev = true) (calendar w))) /\
    (forall ev, r = Some ev -> ev ∈ calendar w /\ ev_bookingRef ev = Some ref).
Proof.
  unfold find_booking_by_ref, try_except, bind.
  rewrite events_list_ref_run.
  destruct (fails w (events_list_ref ref)) eqn:Hf.
  - exists None. repeat split; try reflexivity; try discriminate.
  - set (l := filter (fun ev => has_ref ref ev = true) (calendar w)).
    exists (head l). split; [| split; [discriminate | split; [reflexivity |]]].
    + destruct l; reflexivity.
    + intros ev Hev. apply head_Some_elem_of in Hev.
      apply list_elem_of_filter in Hev as [Href Hin]. split; [exact Hin |].
      unfold has_ref in Href. apply bool_decide_eq_true in Href. exact Href.
Qed.

(** X7. Lookup by patient never fails and only reads; without a
    failure the answer is the first of the (at most 50) events the
    text search returns whose description contains the contact and
    whose summary contains the name, all four lower-cased by
    [str.lower]; so a hit is an event whose lower-cased description
    holds the lower-cased contact and whose lower-cased summary holds
    the lower-cased name, a missing description or summary counting as
    the empty text. *)
Theorem find_booking_by_patient_spec (name contact : string) (w : world) :
  let c := events_list_text name (isoformat (utcnow w) +:+ "Z") in
  exists r,
    find_booking_by_patient name contact w = (Ret r, record_call c w) /\
    (fails w c = true -> r = None) /\
    (fails w c = false ->
     r = head (filter (fun ev => patient_matches name contact ev = true)
                 (take 50 (search_of (calendar w) name
                             (isoformat (utcnow w) +:+ "Z"))))) /\
    (forall ev, r = Some ev ->
       str_in (lower contact)
         (lower (default ""%string (ev_description ev))) = true /\
       str_in (lower name)
         (lower (default ""%string (ev_summary ev))) = true).
Proof.
  intros c. unfold find_booking_by_patient, try_except.
  rewrite (bind_run get_utcnow _ w (utcnow w) w eq_refl).
  unfold bind, events_list_text_execute, request. fold c.
  destruct (fails w c) eqn:Hf.
  - exists None. repeat split; try reflexivity; try discriminate.
  - eexists. split; [reflexivity |].
    split; [discriminate |]. split; [reflexivity |].
    intros ev Hev. apply head_Some_elem_of in Hev.
    apply list_elem_of_filter in Hev as [Hm _].
    unfold patient_matches in Hm. apply andb_prop in Hm. exact Hm.
Qed.

(** ** More on the ledger updates *)

Lemma set_cells_one (row : list string) i v :
  (i < length row)%nat -> set_cells row i [v] = <[i := v]> row.
Proof.
  intros Hi. unfold set_cells.
  replace (i - length row)%nat with 0%nat by lia.
  cbn [replicate]. rewrite app_nil_r, insert_take_drop by exact Hi.
  cbn [length app]. replace (i + 1)%nat with (S i) by lia. reflexivity.
Qed.

Lemma set_row_cells_insert sh i col vals row :
  sh !! i = Some row ->
  set_row_cells sh i col vals = <[i := set_cells row col vals]> sh.
Proof.
  intros Hi. unfold set_row_cells. rewrite Hi. cbn [default].
  apply lookup_lt_Some in Hi.
  replace (S i - length sh)%nat with 0%nat by lia.
  cbn [replicate]. rewrite app_nil_r. reflexivity.
Qed.

Lemma row_is_open_length row : row_is_open row = true -> (10 < length row)%nat.
Proof.
  unfold row_is_open. destruct (row !! 10%nat) eqn:E; [| discriminate].
  intros _. apply lookup_lt_Some in E. exact E.
Qed.

Section LedgerUp.

Hypothesis providers_up : forall w c, fails w c = false.

Lemma values_update_run i col vals w row :
  sheet w !! i = Some row ->
  values_update_execute i col vals w =
  (Ret tt, set_sheet (<[i := set_cells row col vals]> (sheet w))
             (record_call (values_update i col vals) w)).
Proof.
  intros Hi. unfold values_update_execute, request.
  rewrite providers_up. cbn [sheet record_call].
  rewrite (set_row_cells_insert _ _ _ _ _ Hi). reflexivity.
Qed.

(** The row [update_sheet_status] leaves in place of [row]. *)
Lemma update_sheet_status_rows_run ref ns notes rows :
  forall i w,
  (forall k row, rows !! k = Some row -> sheet w !! (i + k)%nat = Some row) ->
  match list_find (fun row => row_has_ref row ref && row_is_open row = true)
          rows with
  | None => update_sheet_status_rows ref ns notes i rows w = (Ret false, w)
  | Some (k, row) =>
    exists w',
      update_sheet_status_rows ref ns notes i rows w = (Ret true, w') /\
      calendar w' = calendar w /\
      sheet w' =
        <[(i + k)%nat :=
            if String.eqb notes "" then <[10%nat := ns]> row
            else <[9%nat :=
                     if String.eqb (default ""%string (row !! 9%nat)) ""
                     then "Cancelled: " +:+ notes
                     else default ""%string (row !! 9%nat)
                          +:+ ". Cancelled: " +:+ notes]>
                   (<[10%nat := ns]> row)]> (sheet w)
  end.
Proof.
  induction rows as [| row rest IH]; intros i w Hrows; [reflexivity |].
  cbn [list_find]. cbn [update_sheet_status_rows].
  destruct (decide (row_has_ref row ref && row_is_open row = true))
    as [E | E].
  - rewrite E. apply andb_prop in E as [E1 E2].
    pose proof (Hrows 0%nat row eq_refl) as Hi.
    rewrite Nat.add_0_r in Hi |- *.
    pose proof (row_is_open_length _ E2) as Hlen.
    rewrite (bind_run _ _ _ _ _ (values_update_run i 10 [ns] w row Hi)).
    rewrite (set_cells_one row 10 ns Hlen).
    set (w1 := set_sheet _ _).
    assert (Hi1 : sheet w1 !! i = Some (<[10%nat := ns]> row)).
    { unfold w1. cbn [sheet set_sheet].
      apply list_lookup_insert_eq. apply lookup_lt_Some in Hi. exact Hi. }
    destruct (String.eqb notes "") eqn:En; cbn [negb].
    + rewrite bind_ret_l. eexists. split; [reflexivity |].
      split; reflexivity.
    + rewrite (bind_run _ _ _ _ _
                 (values_update_run i 9 _ w1 _ Hi1)).
      eexists. split; [reflexivity |]. split; [reflexivity |].
      cbn [sheet set_sheet w1 record_call].
      rewrite list_insert_insert_eq.
      rewrite set_cells_one by (rewrite length_insert; lia).
      destruct (String.eqb (default ""%string (row !! 9%nat)) "");
        reflexivity.
  - apply not_true_is_false in E. rewrite E.
    specialize (IH (S i) w).
    destruct (list_find _ rest) as [[k r] |] eqn:Ef; cbn [fmap option_fmap
      option_map prod_map fst snd id].
    + replace (i + S k)%nat with (S i + k)%nat by lia. apply IH.
      intros k' r' Hk'. replace (S i + k')%nat with (i + S k')%nat by lia.
      apply Hrows. exact Hk'.
    + apply IH.
      intros k' r' Hk'. replace (S i + k')%nat with (i + S k')%nat by lia.
      apply Hrows. exact Hk'.
Qed.


Lemma update_sheet_status_run ref ns notes w :
  exists ok w',
    update_sheet_status ref ns notes w = (Ret ok, w') /\
    calendar w' = calendar w /\
    match list_find (fun row => row_has_ref row ref && row_is_open row = true)
            (sheet w) with
    | None => ok = false /\ sheet w' = sheet w
    | Some (i, row) =>
      ok = true /\
      sheet w' =
        <[i := if String.eqb notes "" then <[10%nat := ns]> row
               else <[9%nat :=
                        if String.eqb (default ""%string (row !! 9%nat)) ""
                        then "Cancelled: " +:+ notes
                        else default ""%string (row !! 9%nat)
                             +:+ ". Cancelled: " +:+ notes]>
                      (<[10%nat := ns]> row)]> (sheet w)
    end.
Proof.
  unfold update_sheet_status, try_except.
  assert (Hget : values_get_execute w
                 = (Ret (sheet w), record_call values_get w)).
  { rewrite values_get_run, providers_up. reflexivity. }
  rewrite (bind_run _ _ _ _ _ Hget).
  pose proof (update_sheet_status_rows_run ref ns notes (sheet w) 0
                (record_call values_get w) (fun k row H => H)) as Hrun.
  destruct (list_find _ (sheet w)) as [[k row] |].
  - destruct Hrun as (w' & -> & Hc & Hs). exists true, w'.
    split; [reflexivity |]. split; [exact Hc |]. split; [reflexivity |].
    exact Hs.
  - rewrite Hrun. exists false, (record_call values_get w).
    repeat split; reflexivity.
Qed.

(** X8. With the ledger answering, [update_sheet_status] works on the
    first row that carries the reference and is open ([confirmed] or
    [rescheduled]): it returns True and that row gets the new status
    in its last column and, for non-empty notes, the notes cell
    extended with ["Cancelled: ..."], every other cell and row being
    kept; without such a row it returns False and the ledger is as it
    was. Closed rows with the reference are passed over. *)
Theorem update_sheet_status_spec ref ns notes w :
  exists ok w',
    update_sheet_status ref ns notes w = (Ret ok, w') /\
    calendar w' = calendar w /\
    match list_find (fun row => row_has_ref row ref && row_is_open row = true)
            (sheet w) with
    | None => ok = false /\ sheet w' = sheet w
    | Some (i, row) =>
      ok = true /\
      sheet w' =
        <[i := if String.eqb notes "" then <[10%nat := ns]> row
               else <[9%nat :=
                        if String.eqb (default ""%string (row !! 9%nat)) ""
                        then "Cancelled: " +:+ notes
                        else default ""%string (row !! 9%nat)
                             +:+ ". Cancelled: " +:+ notes]>
                      (<[10%nat := ns]> row)]> (sheet w)
    end.
Proof. apply update_sheet_status_run. Qed.

Lemma set_cells_within (row : list string) col vals :
  (col <= length row)%nat ->
  set_cells row col vals = take col row ++ vals ++ drop (col + length vals) row.
Proof.
  intros Hc. unfold set_cells.
  replace (col - length row)%nat with 0%nat by lia.
  cbn [replicate]. rewrite app_nil_r. reflexivity.
Qed.

Lemma update_sheet_reschedule_rows_run ref s e notes rows :
  forall i w,
  (forall k row, rows !! k = Some row -> sheet w !! (i + k)%nat = Some row) ->
  exists o w',
    update_sheet_reschedule_rows ref s e notes i rows w = (o, w') /\
    calendar w' = calendar w /\
    match list_find (fun row => row_has_ref row ref = true) rows with
    | None => o = Ret false /\ sheet w' = sheet w
    | Some (k, row) =>
      if row_is_open row then
        match du_isoparse s, du_isoparse e with
        | Some ds, Some de =>
          o = Ret true /\
          sheet w' =
            <[(i + k)%nat :=
                take 4 row ++
                [strftime (astimezone ds) "%m/%d/%Y %I:%M %p";
                 strftime (astimezone de) "%m/%d/%Y %I:%M %p";
                 default ""%string (row !! 6%nat);
                 default ""%string (row !! 7%nat);
                 default ""%string (row !! 8%nat);
                 if str_in "Rescheduled" (default ""%string (row !! 9%nat))
                 then default ""%string (row !! 9%nat)
                      +:+ ". Rescheduled again: " +:+ notes
                 else "Rescheduled. " +:+ notes;
                 "rescheduled"%string] ++ drop 11 row]> (sheet w)
        | _, _ => o = Raise ValueError /\ sheet w' = sheet w
        end
      else o = Ret false /\ sheet w' = sheet w
    end.
Proof.
  induction rows as [| row rest IH]; intros i w Hrows.
  { exists (Ret false), w. repeat split; reflexivity. }
  cbn [list_find]. cbn [update_sheet_reschedule_rows].
  destruct (decide (row_has_ref row ref = true)) as [E | E].
  - rewrite E.
    pose proof (Hrows 0%nat row eq_refl) as Hi.
    rewrite Nat.add_0_r in Hi |- *.
    destruct (row_is_open row) eqn:E2;
      [| exists (Ret false), w; repeat split; reflexivity].
    pose proof (row_is_open_length _ E2) as Hlen.
    unfold bind at 1. rewrite fmt_local_run.
    destruct (du_isoparse s) as [ds |];
      [| exists (Raise ValueError), w; repeat split; reflexivity].
    unfold bind at 1. rewrite fmt_local_run.
    destruct (du_isoparse e) as [de |];
      [| exists (Raise ValueError), w; repeat split; reflexivity].
    rewrite (bind_run _ _ _ _ _ (values_update_run i 4 _ w row Hi)).
    eexists. eexists. split; [reflexivity |]. split; [reflexivity |].
    split; [reflexivity |]. cbn [sheet set_sheet].
    rewrite set_cells_within by lia. reflexivity.
  - apply not_true_is_false in E. rewrite E.
    specialize (IH (S i) w).
    destruct IH as (o & w' & Hrun & Hc & Hm).
    { intros k' r' Hk'. replace (S i + k')%nat with (i + S k')%nat by lia.
      apply Hrows. exact Hk'. }
    exists o, w'. split; [exact Hrun |]. split; [exact Hc |].
    destruct (list_find _ rest) as [[k r] |]; cbn [fmap option_fmap
      option_map prod_map fst snd id].
    + replace (i + S k)%nat with (S i + k)%nat by lia. exact Hm.
    + exact Hm.
Qed.

Lemma update_sheet_reschedule_run ref s e notes w :
  exists ok w',
    update_sheet_reschedule ref s e notes w = (Ret ok, w') /\
    calendar w' = calendar w /\
    match list_find (fun row => row_has_ref row ref = true) (sheet w) with
    | None => ok = false /\ sheet w' = sheet w
    | Some (i, row) =>
      if row_is_open row then
        match du_isoparse s, du_isoparse e with
        | Some ds, Some de =>
          ok = true /\
          sheet w' =
            <[i :=
                take 4 row ++
                [strftime (astimezone ds) "%m/%d/%Y %I:%M %p";
                 strftime (astimezone de) "%m/%d/%Y %I:%M %p";
                 default ""%string (row !! 6%nat);
                 default ""%string (row !! 7%nat);
                 default ""%string (row !! 8%nat);
                 if str_in "Rescheduled" (default ""%string (row !! 9%nat))
                 then default ""%string (row !! 9%nat)
                      +:+ ". Rescheduled again: " +:+ notes
                 else "Rescheduled. " +:+ notes;
                 "rescheduled"%string] ++ drop 11 row]> (sheet w)
        | _, _ => ok = false /\ sheet w' = sheet w
        end
      else ok = false /\ sheet w' = sheet w
    end.
Proof.
  unfold update_sheet_reschedule, try_except.
  assert (Hget : values_get_execute w
                 = (Ret (sheet w), record_call values_get w)).
  { rewrite values_get_run, providers_up. reflexivity. }
  rewrite (bind_run _ _ _ _ _ Hget).
  destruct (update_sheet_reschedule_rows_run ref s e notes (sheet w) 0
              (record_call values_get w) (fun k row H => H))
    as (o & w' & -> & Hc & Hm).
  cbn [Nat.add] in Hm.
  destruct (list_find _ (sheet w)) as [[k row] |].
  - destruct (row_is_open row).
    + destruct (du_isoparse s) as [ds |]; [destruct (du_isoparse e) as [de |] |].
      * destruct Hm as [-> Hs]. exists true, w'. repeat split; assumption.
      * destruct Hm as [-> Hs]. exists false, w'. repeat split; assumption.
      * destruct Hm as [-> Hs]. exists false, w'. repeat split; assumption.
    + destruct Hm as [-> Hs]. exists false, w'. repeat split; assumption.
  - destruct Hm as [-> Hs]. exists false, w'. repeat split; assumption.
Qed.

(** X9. With the ledger answering, [update_sheet_reschedule] looks at
    the first row that carries the reference, open or not. If that row
    is open and both timestamps parse, it returns True and the row
    keeps its first four cells and the cells after the eleventh, gets
    the two local times, its old name, contact and source cells, the
    notes ("Rescheduled. ..." or the old notes extended) and the status
    [rescheduled]. In every other case it returns False and the ledger
    is as it was. *)
Theorem update_sheet_reschedule_spec ref s e notes w :
  exists ok w',
    update_sheet_reschedule ref s e notes w = (Ret ok, w') /\
    calendar w' = calendar w /\
    match list_find (fun row => row_has_ref row ref = true) (sheet w) with
    | None => ok = false /\ sheet w' = sheet w
    | Some (i, row) =>
      if row_is_open row then
        match du_isoparse s, du_isoparse e with
        | Some ds, Some de =>
          ok = true /\
          sheet w' =
            <[i :=
                take 4 row ++
                [strftime (astimezone ds) "%m/%d/%Y %I:%M %p";
                 strftime (astimezone de) "%m/%d/%Y %I:%M %p";
                 default ""%string (row !! 6%nat);
                 default ""%string (row !! 7%nat);
                 default ""%string (row !! 8%nat);
                 if str_in "Rescheduled" (default ""%string (row !! 9%nat))
                 then default ""%string (row !! 9%nat)
                      +:+ ". Rescheduled again: " +:+ notes
                 else "Rescheduled. " +:+ notes;
                 "rescheduled"%string] ++ drop 11 row]> (sheet w)
        | _, _ => ok = false /\ sheet w' = sheet w
        end
      else ok = false /\ sheet w' = sheet w
    end.
Proof. apply update_sheet_reschedule_run. Qed.

(** X10. The two ledger updates disagree on a reference that has a
    closed row before an open one (a booking cancelled and made again):
    [update_sheet_status] passes over the closed row, writes the new
    status into the open one and returns True;
    [update_sheet_reschedule] stops at the closed row, returns False
    and changes nothing. *)
Theorem ledger_updates_disagree_after_rebooking
    ref ns notes s e notes' w i row j row' :
  list_find (fun row => row_has_ref row ref = true) (sheet w)
    = Some (i, row) ->
  row_is_open row = false ->
  list_find (fun row => row_has_ref row ref && row_is_open row = true)
    (sheet w) = Some (j, row') ->
  (i < j)%nat /\
  (exists w1 r, update_sheet_status ref ns notes w = (Ret true, w1) /\
                sheet w1 !! j = Some r /\ row_status r = Some ns) /\
  (exists w2, update_sheet_reschedule ref s e notes' w = (Ret false, w2) /\
              sheet w2 = sheet w).
Proof.
  intros Hfirst Hclosed Hopen. split; [| split].
  - pose proof Hfirst as Hf. pose proof Hopen as Ho.
    apply list_find_Some in Hf as (Hi & Hr & Hleast').
    apply list_find_Some in Ho as (Hj & Hp & Hleast).
    apply andb_prop in Hp as [Hp1 Hp2].
    destruct (Nat.lt_trichotomy i j) as [Hlt | [-> | Hgt]]; [exact Hlt | |].
    + rewrite Hi in Hj. inversion Hj; subst. congruence.
    + exfalso. apply (Hleast' j row' Hj Hgt). exact Hp1.
  - destruct (update_sheet_status_run ref ns notes w)
      as (ok & w1 & Hrun & _ & Hm).
    rewrite Hopen in Hm. destruct Hm as [-> Hs].
    apply list_find_Some in Hopen as (Hj & Hp & _).
    apply andb_prop in Hp as [_ Hp2].
    pose proof (row_is_open_length _ Hp2) as Hlen.
    eexists w1, _. split; [exact Hrun |]. rewrite Hs. split.
    + apply list_lookup_insert_eq. apply lookup_lt_Some in Hj. exact Hj.
    + unfold row_status. destruct (String.eqb notes "").
      * apply list_lookup_insert_eq. exact Hlen.
      * rewrite list_lookup_insert_ne by lia.
        apply list_lookup_insert_eq. exact Hlen.
  - destruct (update_sheet_reschedule_run ref s e notes' w)
      as (ok & w2 & Hrun & _ & Hm).
    rewrite Hfirst, Hclosed in Hm. destruct Hm as [-> Hs].
    exists w2. split; [exact Hrun | exact Hs].
Qed.

End LedgerUp.

(** ** More on the handlers *)

Lemma values_append_run row w :
  values_append_execute row w =
  if fails w (values_append row)
  then (Raise HttpError, record_call (values_append row) w)
  else (Ret tt, set_sheet (sheet w ++ [row])
                  (record_call (values_append row) w)).
Proof.
  unfold values_append_execute, request. destruct (fails w _); reflexivity.
Qed.

Lemma append_sheet_row_run st ty s e n c r no w :
  append_sheet_row st ty s e n c r no w =
  match du_isoparse s, du_isoparse e with
  | Some ds, Some de =>
    values_append_execute
      [strftime (utcnow w) "%m/%d/%Y %H:%M:%S UTC"; r; "book"%string; ty;
       strftime (astimezone ds) "%m/%d/%Y %I:%M %p";
       strftime (astimezone de) "%m/%d/%Y %I:%M %p";
       n; c; "retell-chat"%string; no; st] w
  | _, _ => (Raise ValueError, w)
  end.
Proof.
  unfold append_sheet_row.
  rewrite (bind_run get_utcnow _ w (utcnow w) w eq_refl).
  unfold bind at 1. rewrite fmt_local_run.
  destruct (du_isoparse s); [| destruct (du_isoparse e); reflexivity].
  unfold bind at 1. rewrite fmt_local_run.
  destruct (du_isoparse e); reflexivity.
Qed.


Lemma row_has_ref_None row : row_has_ref row None = false.
Proof.
  unfold row_has_ref. destruct (row !! 1%nat); [| reflexivity].
  apply bool_decide_eq_false. discriminate.
Qed.

(** X12. A booking without a reference never touches the ledger: with
    [None] for the reference (an event found by patient that carries no
    tag), both ledger updates leave every row as it is, whatever the
    ledger holds and whatever fails. *)
Theorem ledger_updates_without_reference (ns notes s e notes' : string)
    (w : world) :
  sheet (snd (update_sheet_status None ns notes w)) = sheet w /\
  sheet (snd (update_sheet_reschedule None s e notes' w)) = sheet w.
Proof.
  split.
  - destruct (update_sheet_status_post None ns notes w) as [_ [H | H]];
      [exact H |].
    destruct H as (j & row & _ & Hr & _). rewrite row_has_ref_None in Hr.
    discriminate Hr.
  - destruct (update_sheet_reschedule_post None s e notes' w)
      as [_ [H | H]]; [exact H |].
    destruct H as (j & row & _ & Hr & _). rewrite row_has_ref_None in Hr.
    discriminate Hr.
Qed.

Lemma scan_days_nothing_to_collect fuel limit probe out days w :
  Z.of_nat (length out) >= limit ->
  scan_days fuel limit probe out days w = (Ret out, w).
Proof.
  intros Hl. destruct fuel; cbn [scan_days];
    destruct (Z.ltb_spec (Z.of_nat (length out)) limit); try lia;
    reflexivity.
Qed.

(** X13. A limit below one switches the scan off: [top_slots] makes no
    request and leaves the world as it is, and all it can return is the
    empty list. It still computes its first probe: it raises
    [OverflowError] when now + 60 minutes or the rounding leaves the
    calendar, [TypeError] when one of anchor and clock is naive and the
    other aware, and returns the empty list otherwise. So when the
    preferred time is not available [find_available_slots] makes no
    request after its one availability check, and answers
    [no_slots_available] unless the first probe cannot be computed. *)
Theorem top_slots_without_limit (text : string) (limit : Z)
    (a anchor rounded : datetime) (w w1 : world) :
  limit <= 0 ->
  top_slots anchor limit w =
    (match dt_add (now w) (td_minutes 60) with
     | None => Raise OverflowError
     | Some later =>
       match dt_max anchor later with
       | None => Raise TypeError
       | Some clamped =>
         match round_to_next_half_hour clamped with
         | None => Raise OverflowError
         | Some _ => Ret []
         end
       end
     end, w) /\
  (forall out, fst (top_slots anchor limit w) = Ret out -> out = []) /\
  (du_parse text = Some a ->
   let localized := match tzinfo a with
                    | None => tz_localize a
                    | Some _ => astimezone a
                    end in
   round_to_next_half_hour localized = Some rounded ->
   is_slot_available rounded w = (Ret false, w1) ->
   find_available_slots text limit w =
     (match dt_add (now w1) (td_minutes 60) with
      | None => Raise OverflowError
      | Some later =>
        match dt_max localized later with
        | None => Raise TypeError
        | Some clamped =>
          match round_to_next_half_hour clamped with
          | None => Raise OverflowError
          | Some _ =>
            Ret (FindSlotsRes.mk [] (Some "no_slots_available"%string))
          end
        end
      end, w1)).
Proof.
  intros Hl.
  assert (Htop : forall anchor w, top_slots anchor limit w =
    (match dt_add (now w) (td_minutes 60) with
     | None => Raise OverflowError
     | Some later =>
       match dt_max anchor later with
       | None => Raise TypeError
       | Some clamped =>
         match round_to_next_half_hour clamped with
         | None => Raise OverflowError
         | Some _ => Ret []
         end
       end
     end, w)).
  { intros anchor0 w0. rewrite top_slots_run.
    destruct (dt_add (now w0) (td_minutes 60)) as [later |]; [| reflexivity].
    destruct (dt_max anchor0 later) as [clamped |]; [| reflexivity].
    destruct (round_to_next_half_hour clamped) as [first |]; [| reflexivity].
    apply scan_days_nothing_to_collect. cbn [length]. lia. }
  split; [apply Htop |]. split.
  - intros out. rewrite Htop. cbn [fst].
    destruct (dt_add (now w) (td_minutes 60)) as [later |]; [| discriminate].
    destruct (dt_max anchor later) as [clamped |]; [| discriminate].
    destruct (round_to_next_half_hour clamped) as [first |];
      [| discriminate].
    intros H. inversion H. reflexivity.
  - intros Hparse localized Hr Hav.
    pose proof (find_available_slots_run text limit a w Hparse) as Hrun.
    cbv zeta in Hrun. fold localized in Hrun. rewrite Hrun, Hr.
    rewrite (bind_run _ _ _ _ _ Hav).
    unfold bind. rewrite Htop.
    destruct (dt_add (now w1) (td_minutes 60)) as [later |]; [| reflexivity].
    destruct (dt_max localized later) as [clamped |]; [| reflexivity].
    destruct (round_to_next_half_hour clamped) as [first |]; reflexivity.
Qed.

(** X14. The fallback of [find_slots_endpoint] for a payload that does
    not validate makes no request at all: it answers with reason
    [bad_payload] and one sample slot, built for now + 2 hours rounded
    to the grid, without asking whether that slot is a business slot
    or free. It raises [OverflowError] when one of the three sums
    leaves the calendar. *)
Theorem find_slots_endpoint_bad_payload (msg : string) (w : world) :
  snd (find_slots_endpoint (Invalid msg) w) = w /\
  fst (find_slots_endpoint (Invalid msg) w) =
    match dt_add (now w) (td_hours 2) with
    | None => Raise OverflowError
    | Some later =>
      match round_to_next_half_hour later with
      | None => Raise OverflowError
      | Some s =>
        match dt_add s (td_minutes 30) with
        | None => Raise OverflowError
        | Some e =>
          match speakable_text (isoformat s) (isoformat e) with
          | None => Raise ValueError
          | Some sp =>
            Ret (FindSlotsRes.mk [mkSlot (isoformat s) (isoformat e) sp]
                   (Some "bad_payload"%string))
          end
        end
      end
    end /\
  (forall later s e,
     dt_add (now w) (td_hours 2) = Some later ->
     round_to_next_half_hour later = Some s ->
     dt_add s (td_minutes 30) = Some e ->
     is_Some (speakable_text (isoformat s) (isoformat e)) ->
     exists sample,
       fst (find_slots_endpoint (Invalid msg) w) =
         Ret (FindSlotsRes.mk [sample] (Some "bad_payload"%string)) /\
       probe_of sample s).
Proof.
  assert (Hrun : find_slots_endpoint (Invalid msg) w =
    (match dt_add (now w) (td_hours 2) with
     | None => Raise OverflowError
     | Some later =>
       match round_to_next_half_hour later with
       | None => Raise OverflowError
       | Some s =>
         match dt_add s (td_minutes 30) with
         | None => Raise OverflowError
         | Some e =>
           match speakable_text (isoformat s) (isoformat e) with
           | None => Raise ValueError
           | Some sp =>
             Ret (FindSlotsRes.mk [mkSlot (isoformat s) (isoformat e) sp]
                    (Some "bad_payload"%string))
           end
         end
       end
     end, w)).
  { unfold find_slots_endpoint.
    rewrite (bind_run get_now _ w (now w) w eq_refl).
    destruct (dt_add (now w) (td_hours 2)) as [later |]; [| reflexivity].
    cbn [expect]. rewrite bind_ret_l.
    destruct (round_to_next_half_hour later) as [s |]; [| reflexivity].
    cbn [expect]. rewrite bind_ret_l.
    unfold bind. rewrite make_slot_run.
    destruct (dt_add s (td_minutes 30)) as [e |]; [| reflexivity].
    destruct (speakable_text _ _); reflexivity. }
  rewrite Hrun. cbn [fst snd].
  split; [reflexivity |]. split; [reflexivity |].
  intros later s e Hl Hs He [sp Hsp]. rewrite Hl, Hs, He, Hsp.
  eexists. split; [reflexivity |]. split; [reflexivity |].
  rewrite He. reflexivity.
Qed.

Lemma events_insert_run (body : EventBody) w :
  events_insert_execute body w =
  if fails w (events_insert body)
  then (Raise HttpError, record_call (events_insert body) w)
  else (Ret (event_of_body (new_event_id (calendar w) body) body),
        set_calendar
          (calendar w ++ [event_of_body (new_event_id (calendar w) body) body])
          (record_call (events_insert body) w)).
Proof.
  unfold events_insert_execute, request. destruct (fails w _); reflexivity.
Qed.

(** The run of [create_event] up to and including the insert. *)
Lemma create_event_insert_run (req : CreateEventReq.t) (w wa : world)
    (s_dt : datetime) :
  fails w (events_list_ref (request_ref req)) = false ->
  (forall ev, ev ∈ calendar w -> ev_bookingRef ev <> Some (request_ref req)) ->
  du_isoparse (start (CreateEventReq.slot req)) = Some s_dt ->
  is_slot_available s_dt (record_call (events_list_ref (request_ref req)) w)
    = (Ret true, wa) ->
  fails wa (events_insert (created_body req)) = false ->
  let created := event_of_body (new_event_id (calendar w) (created_body req))
                   (created_body req) in
  let wb := set_calendar (calendar w ++ [created])
              (record_call (events_insert (created_body req)) wa) in
  create_event (Valid req) w =
  bind (append_sheet_row "confirmed" (CreateEventReq.appointment_type req)
          (start (CreateEventReq.slot req)) (end_ (CreateEventReq.slot req))
          (name (CreateEventReq.patient req))
          (contact (CreateEventReq.patient req)) (request_ref req)
          (str_or (CreateEventReq.notes req) ""))
    (fun _ =>
       let! sp := speakable_range (start (CreateEventReq.slot req))
                    (end_ (CreateEventReq.slot req)) in
       ret (CreateEventRes.mk true (Some (request_ref req))
              (Some (ev_id created)) (Some sp) None None)) wb.
Proof.
  intros Hlist Hnone Hparse Hav Hins created wb.
  pose proof (is_slot_available_ret _ _ _ _ Hav) as [_ Hca].
  cbn [calendar record_call] in Hca.
  create_event_start req;
    unfold bind at 1; rewrite events_list_ref_run, Hlist;
    rewrite (filter_has_ref_nil _ _ Hnone); cbn [take];
    unfold bind at 1; rewrite Hparse; cbn [expect ret];
    rewrite (bind_run _ _ _ _ _ Hav); cbn [negb];
    fold (created_body req);
    unfold bind at 1; rewrite events_insert_run, Hins;
    unfold wb, created; rewrite Hca; reflexivity.
Qed.

(** X15. A create request that goes through: no event carries the
    reference, both timestamps of the slot parse, the slot is free at
    the re-check and nothing fails. Then the calendar gains one event,
    the last, with the identifier the provider gave it, the summary
    "type - name", the start and end of the slot and the reference as
    its tag; the ledger gains one row, the last, with the reference in
    its second and [confirmed] in its last cell; and the response is a
    success that carries the reference and that identifier. *)
Theorem create_event_books (req : CreateEventReq.t) (w : world)
    (s_dt de : datetime) :
  (forall w c, fails w c = false) ->
  (forall ev, ev ∈ calendar w -> ev_bookingRef ev <> Some (request_ref req)) ->
  du_isoparse (start (CreateEventReq.slot req)) = Some s_dt ->
  du_isoparse (end_ (CreateEventReq.slot req)) = Some de ->
  free_on (calendar w) s_dt = true ->
  let created := event_of_body (new_event_id (calendar w) (created_body req))
                   (created_body req) in
  exists w' sp logged,
    create_event (Valid req) w =
      (Ret (CreateEventRes.mk true (Some (request_ref req))
              (Some (ev_id created)) (Some sp) None None), w') /\
    calendar w' = calendar w ++ [created] /\
    sheet w' = sheet w ++ [created_row req logged s_dt de] /\
    speakable_text (start (CreateEventReq.slot req))
      (end_ (CreateEventReq.slot req)) = Some sp.
Proof.
  intros Hup Hnone Hs He Hfree created.
  set (w1 := record_call (events_list_ref (request_ref req)) w).
  assert (Hav : exists wa, is_slot_available s_dt w1 = (Ret true, wa)).
  { rewrite is_slot_available_run.
    pose proof Hfree as Hf. unfold free_on in Hf.
    apply andb_prop in Hf as [Hb Hf]. rewrite Hb. cbn [negb].
    destruct (dt_add s_dt (td_minutes 30)) as [e_dt |]; [| discriminate Hf].
    cbv zeta. rewrite Hup.
    change (calendar w1) with (calendar w). rewrite Hfree.
    eexists. reflexivity. }
  destruct Hav as [wa Hav].
  rewrite (create_event_insert_run req w _ s_dt (Hup _ _) Hnone Hs Hav
             (Hup _ _)).
  fold created. set (wb := set_calendar _ _).
  assert (Hrow : append_sheet_row "confirmed"
                   (CreateEventReq.appointment_type req)
                   (start (CreateEventReq.slot req))
                   (end_ (CreateEventReq.slot req))
                   (name (CreateEventReq.patient req))
                   (contact (CreateEventReq.patient req)) (request_ref req)
                   (str_or (CreateEventReq.notes req) "") wb
                 = (Ret tt,
                    set_sheet
                      (sheet wb ++ [created_row req (utcnow wb) s_dt de])
                      (record_call
                         (values_append (created_row req (utcnow wb) s_dt de))
                         wb))).
  { rewrite append_sheet_row_run, Hs, He, values_append_run.
    fold (created_row req (utcnow wb) s_dt de). rewrite Hup. reflexivity. }
  rewrite (bind_run _ _ _ _ _ Hrow).
  unfold bind at 1. rewrite speakable_range_run.
  unfold speakable_text. rewrite Hs, He.
  pose proof (read_only_is_slot_available s_dt w1) as Hro.
  rewrite Hav in Hro. destruct Hro as (_ & Hsh & _).
  cbn [snd sheet record_call w1] in Hsh.
  eexists. eexists. exists (utcnow wb).
  split; [reflexivity |]. split; [reflexivity |].
  split; [| reflexivity].
  cbn [sheet set_sheet record_call set_calendar wb]. rewrite Hsh. reflexivity.
Qed.

(** X16. Calendar and ledger are not written together: when the insert
    has succeeded and the ledger append fails, [create_event] ends with
    the [HttpError] and no response, the new event stays in the
    calendar and the ledger has no row for it. A retry is then an
    idempotent replay: it answers success with that event's identifier
    and again appends nothing, so the row is never written. *)
Theorem create_event_ledger_failure (req : CreateEventReq.t)
    (w wa : world) (s_dt de : datetime) (sp : string) :
  fails w (events_list_ref (request_ref req)) = false ->
  (forall ev, ev ∈ calendar w -> ev_bookingRef ev <> Some (request_ref req)) ->
  du_isoparse (start (CreateEventReq.slot req)) = Some s_dt ->
  du_isoparse (end_ (CreateEventReq.slot req)) = Some de ->
  is_slot_available s_dt (record_call (events_list_ref (request_ref req)) w)
    = (Ret true, wa) ->
  fails wa (events_insert (created_body req)) = false ->
  let created := event_of_body (new_event_id (calendar w) (created_body req))
                   (created_body req) in
  let wb := set_calendar (calendar w ++ [created])
              (record_call (events_insert (created_body req)) wa) in
  fails wb (values_append (created_row req (utcnow wb) s_dt de)) = true ->
  speakable_text (start (CreateEventReq.slot req))
    (end_ (CreateEventReq.slot req)) = Some sp ->
  exists w',
    create_event (Valid req) w = (Raise HttpError, w') /\
    calendar w' = calendar w ++ [created] /\
    sheet w' = sheet w /\
    (fails w' (events_list_ref (request_ref req)) = false ->
     create_event (Valid req) w' =
       (Ret (CreateEventRes.mk true (Some (request_ref req))
               (Some (ev_id created)) (Some sp) None None),
        record_call (events_list_ref (request_ref req)) w')).
Proof.
  intros Hlist Hnone Hs He Hav Hins created wb Happ Hsp.
  pose proof (is_slot_available_ret _ _ _ _ Hav) as [_ Hca].
  pose proof (read_only_is_slot_available s_dt
                (record_call (events_list_ref (request_ref req)) w)) as Hro.
  rewrite Hav in Hro. destruct Hro as (_ & Hsa & _).
  cbn [snd sheet record_call calendar] in Hsa, Hca.
  rewrite (create_event_insert_run req w wa s_dt Hlist Hnone Hs Hav Hins).
  fold created. fold wb.
  assert (Hrow : append_sheet_row "confirmed"
                   (CreateEventReq.appointment_type req)
                   (start (CreateEventReq.slot req))
                   (end_ (CreateEventReq.slot req))
                   (name (CreateEventReq.patient req))
                   (contact (CreateEventReq.patient req)) (request_ref req)
                   (str_or (CreateEventReq.notes req) "") wb
                 = (Raise HttpError,
                    record_call
                      (values_append (created_row req (utcnow wb) s_dt de))
                      wb)).
  { rewrite append_sheet_row_run, Hs, He, values_append_run.
    fold (created_row req (utcnow wb) s_dt de). rewrite Happ. reflexivity. }
  rewrite (bind_raise _ _ _ _ _ Hrow).
  eexists. split; [reflexivity |].
  split; [reflexivity |]. split; [exact Hsa |].
  intros Hlist'. apply create_event_replay; [exact Hlist' | | exact Hsp].
  cbn [calendar record_call set_calendar wb]. unfold created.
  rewrite filter_app, (filter_has_ref_nil _ _ Hnone).
  rewrite (filter_has_ref_created (request_ref req) _ (created_body req)
             eq_refl).
  reflexivity.
Qed.

Lemma find_booking_by_ref_run ref w :
  find_booking_by_ref ref w =
  (Ret (if fails w (events_list_ref ref) then None
        else head (filter (fun ev => has_ref ref ev = true) (calendar w))),
   record_call (events_list_ref ref) w).
Proof.
  unfold find_booking_by_ref, try_except, bind.
  rewrite events_list_ref_run. destruct (fails w _); [reflexivity |].
  destruct (filter _ (calendar w)); reflexivity.
Qed.

Lemma resolve_booking_by_ref bref n c w :
  truthy bref = true ->
  resolve_booking bref n c w =
  (Ret (if fails w (events_list_ref (default ""%string bref)) then None
        else head (filter (fun ev => has_ref (default ""%string bref) ev = true)
                     (calendar w)), bref),
   record_call (events_list_ref (default ""%string bref)) w).
Proof.
  intros Ht. unfold resolve_booking. rewrite Ht.
  unfold bind. rewrite find_booking_by_ref_run. reflexivity.
Qed.

(** X17. A reference wins over name and contact: when the request
    carries a non-empty reference, the booking is resolved by one
    lookup of that reference, name and contact are not used at all
    (the event found is not compared with them), a hit carries the
    reference, and the reference handed on is the one of the request. *)
Theorem resolve_booking_prefers_reference
    (bref n c n' c' : option string) (w : world) :
  truthy bref = true ->
  resolve_booking bref n c w = resolve_booking bref n' c' w /\
  exists found,
    resolve_booking bref n c w =
      (Ret (found, bref),
       record_call (events_list_ref (default ""%string bref)) w) /\
    forall ev, found = Some ev -> ev ∈ calendar w /\ ev_bookingRef ev = bref.
Proof.
  intros Ht. rewrite !(resolve_booking_by_ref _ _ _ _ Ht).
  split; [reflexivity |]. eexists. split; [reflexivity |].
  intros ev Hev. destruct (fails w _); [discriminate Hev |].
  apply head_Some_elem_of in Hev.
  apply list_elem_of_filter in Hev as [Href Hin]. split; [exact Hin |].
  unfold has_ref in Href. apply bool_decide_eq_true in Href.
  destruct bref as [r |]; [exact Href | discriminate Ht].
Qed.

(** X18. A booking that does not exist: when the request names a
    reference and the lookup fails or finds no event with that tag, or
    when it names neither a reference nor both name and contact, then
    [cancel_booking] and [reschedule_booking] (with or without the
    confirmation flag) answer [booking_not_found]; the only request
    made is the lookup, if any, and nothing is written. *)
Theorem nonexistent_booking
    (creq : CancelReq.t) (rreq : RescheduleReq.t) (w : world) :
  RescheduleReq.booking_ref rreq = CancelReq.booking_ref creq ->
  RescheduleReq.name rreq = CancelReq.name creq ->
  RescheduleReq.contact rreq = CancelReq.contact creq ->
  let bref := CancelReq.booking_ref creq in
  let c := events_list_ref (default ""%string bref) in
  (if truthy bref
   then fails w c = true \/
        forall ev, ev ∈ calendar w -> ev_bookingRef ev <> bref
   else truthy (CancelReq.name creq) && truthy (CancelReq.contact creq)
        = false) ->
  let w' := if truthy bref then record_call c w else w in
  cancel_booking (Valid creq) w = (Ret cancel_not_found, w') /\
  reschedule_booking (Valid rreq) w = (Ret reschedule_not_found, w').
Proof.
  intros Hb Hn Hc bref c Hcase w'.
  assert (Hres : resolve_booking bref (CancelReq.name creq)
                   (CancelReq.contact creq) w = (Ret (None, None), w') \/
                 resolve_booking bref (CancelReq.name creq)
                   (CancelReq.contact creq) w = (Ret (None, bref), w')).
  { unfold w'. destruct (truthy bref) eqn:Ht.
    - right. rewrite (resolve_booking_by_ref _ _ _ _ Ht). fold c.
      destruct Hcase as [-> | Hnone]; [reflexivity |].
      destruct (fails w c); [reflexivity |].
      rewrite filter_has_ref_nil; [reflexivity |].
      intros ev Hin. destruct bref as [r |]; [| discriminate Ht].
      apply Hnone, Hin.
    - left. unfold resolve_booking. rewrite Ht, Hcase. reflexivity. }
  split.
  - unfold cancel_booking. fold bref.
    destruct Hres as [Hres | Hres]; rewrite (bind_run _ _ _ _ _ Hres);
      reflexivity.
  - unfold reschedule_booking. rewrite Hb, Hn, Hc. fold bref.
    destruct Hres as [Hres | Hres]; rewrite (bind_run _ _ _ _ _ Hres);
      reflexivity.
Qed.

Lemma events_delete_run id w :
  events_delete_execute id w =
  if fails w (events_delete id)
  then (Raise HttpError, record_call (events_delete id) w)
  else if existsb (has_id id) (calendar w)
  then (Ret tt,
        set_calendar (filter (fun ev => has_id id ev = false) (calendar w))
          (record_call (events_delete id) w))
  else (Raise HttpError, record_call (events_delete id) w).
Proof.
  unfold events_delete_execute, request. destruct (fails w _); reflexivity.
Qed.

Lemma spares_of_post booking_ref (sh sh' : list (list string)) w w' :
  sheet w = sh -> sheet w' = sh' ->
  (sh' = sh \/
   exists j row, sh !! j = Some row /\ row_has_ref row booking_ref = true /\
                 row_is_open row = true /\ same_except j sh sh') ->
  spares_closed_rows booking_ref w w'.
Proof.
  intros <- <- Hpost.
  assert (Hchanged : forall i row, sheet w !! i = Some row ->
            sheet w' !! i <> Some row ->
            row_has_ref row booking_ref = true /\ row_is_open row = true).
  { intros i row Hi Hne. destruct Hpost as [Heq | (j & r & Hj & Hr & Ho & Hs)].
    - rewrite Heq in Hne. contradiction.
    - destruct (decide (i = j)) as [-> | Hij].
      + rewrite Hj in Hi. inversion Hi; subst. auto.
      + destruct Hs as [_ Hs]. rewrite (Hs i Hij) in Hne. contradiction. }
  split; [| split].
  - destruct Hpost as [-> | (j & r & _ & _ & _ & [Hl _])];
      [reflexivity | exact Hl].
  - intros i row Hi Hne. destruct (Hchanged i row Hi Hne) as [Hr Ho].
    split; [exact Hr | apply row_is_open_status, Ho].
  - intros i row Hi Hst.
    destruct (decide (sheet w' !! i = Some row)) as [Heq | Hne];
      [exact Heq |].
    destruct (Hchanged i row Hi Hne) as [_ Ho].
    apply row_is_open_status in Ho. rewrite Hst in Ho.
    destruct Ho as [Ho | Ho]; discriminate Ho.
Qed.

(** The run of [cancel_booking] once the booking is resolved. *)
Lemma cancel_booking_resolved (req : CancelReq.t) (w w1 : world)
    (ev : Event) (bref : option string) (s e sp : string) :
  resolve_booking (CancelReq.booking_ref req) (CancelReq.name req)
    (CancelReq.contact req) w = (Ret (Some ev, bref), w1) ->
  ev_start ev = Some s -> ev_end ev = Some e ->
  speakable_text s e = Some sp ->
  let c := events_delete (ev_id ev) in
  let deleted :=
    set_calendar (filter (fun x => has_id (ev_id ev) x = false) (calendar w1))
      (record_call c w1) in
  (fails w1 c = false ->
   existsb (has_id (ev_id ev)) (calendar w1) = true ->
   exists ok w',
     update_sheet_status bref "cancelled"
       (str_or (CancelReq.reason req) "No reason provided") deleted
       = (Ret ok, w') /\
     cancel_booking (Valid req) w =
       (Ret (CancelRes.mk true bref (Some sp) None None), w')) /\
  (fails w1 c = true \/ existsb (has_id (ev_id ev)) (calendar w1) = false ->
   cancel_booking (Valid req) w =
     (Ret (CancelRes.mk false None None (Some "cancellation_failed"%string)
             (Some ("Failed to cancel booking: "
                    +:+ str_exn (record_call c w1) HttpError))),
      record_call c w1)).
Proof.
  intros Hres Hs He Hsp c deleted.
  assert (Hrun : cancel_booking (Valid req) w =
    try_except
      (let! _ := events_delete_execute (ev_id ev) in
       let! _ := update_sheet_status bref "cancelled"
                   (str_or (CancelReq.reason req) "No reason provided") in
       ret (CancelRes.mk true bref (Some sp) None None))
      (fun e0 =>
         let! msg := exn_message e0 in
         ret (CancelRes.mk false None None
                (Some "cancellation_failed"%string)
                (Some ("Failed to cancel booking: " +:+ msg))))
      w1).
  { unfold cancel_booking. rewrite (bind_run _ _ _ _ _ Hres).
    cbv beta iota. rewrite Hs, He. cbn [expect]. rewrite !bind_ret_l.
    unfold bind at 1. rewrite speakable_range_run, Hsp. reflexivity. }
  rewrite Hrun. unfold try_except.
  pose proof (events_delete_run (ev_id ev) w1) as Hdel. fold c in Hdel.
  split.
  - intros Hf Hex. rewrite Hf, Hex in Hdel. fold deleted in Hdel.
    destruct (update_sheet_status_returns bref "cancelled"
                (str_or (CancelReq.reason req) "No reason provided") deleted)
      as (ok & w' & Hup).
    exists ok, w'. split; [exact Hup |].
    rewrite (bind_run _ _ _ _ _ Hdel). rewrite (bind_run _ _ _ _ _ Hup).
    reflexivity.
  - intros Hfail.
    assert (Hdel' : events_delete_execute (ev_id ev) w1
                    = (Raise HttpError, record_call c w1)).
    { rewrite Hdel. destruct Hfail as [-> | Hex]; [reflexivity |].
      rewrite Hex. destruct (fails w1 c); reflexivity. }
    rewrite (bind_raise _ _ _ _ _ Hdel'). reflexivity.
Qed.

(** X19. Cancelling a resolved booking. When the delete goes through,
    every event with the identifier of the booking is gone from the
    calendar and the others are kept, the response is a success with
    the reference and the spoken slot, and a ledger row that changed
    carried that reference and was open (whether or not the ledger
    update worked). When the delete fails, the response is
    [cancellation_failed], its error text is "Failed to cancel
    booking: " followed by the message of the exception the delete
    raised, and calendar and ledger are as they were. *)
Theorem cancel_booking_spec (req : CancelReq.t) (w w1 : world)
    (ev : Event) (bref : option string) (s e sp : string) :
  resolve_booking (CancelReq.booking_ref req) (CancelReq.name req)
    (CancelReq.contact req) w = (Ret (Some ev, bref), w1) ->
  ev_start ev = Some s -> ev_end ev = Some e ->
  speakable_text s e = Some sp ->
  let c := events_delete (ev_id ev) in
  (fails w1 c = false ->
   existsb (has_id (ev_id ev)) (calendar w1) = true ->
   exists w',
     cancel_booking (Valid req) w =
       (Ret (CancelRes.mk true bref (Some sp) None None), w') /\
     calendar w' = filter (fun x => has_id (ev_id ev) x = false) (calendar w1) /\
     spares_closed_rows bref w1 w') /\
  (fails w1 c = true \/ existsb (has_id (ev_id ev)) (calendar w1) = false ->
   exists w',
     cancel_booking (Valid req) w =
       (Ret (CancelRes.mk false None None (Some "cancellation_failed"%string)
               (Some ("Failed to cancel booking: "
                      +:+ str_exn (record_call c w1) HttpError))), w') /\
     calendar w' = calendar w1 /\ sheet w' = sheet w1).
Proof.
  intros Hres Hs He Hsp c.
  destruct (cancel_booking_resolved req w w1 ev bref s e sp Hres Hs He Hsp)
    as [Hok Hfail]. fold c in Hok, Hfail.
  split.
  - intros Hf Hex. destruct (Hok Hf Hex) as (ok & w' & Hup & Hrun).
    exists w'. split; [exact Hrun |].
    match type of Hup with
    | update_sheet_status _ ?st ?no ?wd = _ =>
        pose proof (update_sheet_status_post bref st no wd) as Hpost
    end.
    rewrite Hup in Hpost. cbn [snd] in Hpost. destruct Hpost as [Hc Hp].
    split; [rewrite Hc; reflexivity |].
    eapply spares_of_post; [reflexivity | reflexivity | exact Hp].
  - intros Hf. exists (record_call c w1).
    split; [apply Hfail, Hf | split; reflexivity].
Qed.

Lemma filter_has_id_tagged (cal : list Event) ref ev :
  filter (fun x => has_ref ref x = true) cal = [ev] ->
  filter (fun x => has_ref ref x = true)
    (filter (fun x => has_id (ev_id ev) x = false) cal) = [].
Proof.
  intros Hone. apply filter_has_ref_nil. intros x Hx Href.
  apply list_elem_of_filter in Hx as [Hid Hin].
  assert (Hx : x ∈ filter (fun x => has_ref ref x = true) cal).
  { apply list_elem_of_filter. split; [| exact Hin].
    unfold has_ref. apply bool_decide_eq_true. exact Href. }
  rewrite Hone in Hx. apply list_elem_of_singleton in Hx. subst x.
  unfold has_id in Hid. rewrite String.eqb_refl in Hid. discriminate Hid.
Qed.

(** X20. Cancelling twice: with nothing failing, when exactly one event
    carries the reference of the request, the first cancel succeeds and
    the same request again answers [booking_not_found], after its
    lookup alone. *)
Theorem cancel_booking_twice (req : CancelReq.t) (w : world)
    (ev : Event) (s e sp : string) :
  (forall w c, fails w c = false) ->
  let bref := CancelReq.booking_ref req in
  truthy bref = true ->
  filter (fun x => has_ref (default ""%string bref) x = true) (calendar w)
    = [ev] ->
  ev_start ev = Some s -> ev_end ev = Some e ->
  speakable_text s e = Some sp ->
  exists w1,
    cancel_booking (Valid req) w =
      (Ret (CancelRes.mk true bref (Some sp) None None), w1) /\
    cancel_booking (Valid req) w1 =
      (Ret cancel_not_found,
       record_call (events_list_ref (default ""%string bref)) w1).
Proof.
  intros Hup bref Ht Hone Hs He Hsp.
  set (c0 := events_list_ref (default ""%string bref)).
  assert (Hres : resolve_booking bref (CancelReq.name req)
                   (CancelReq.contact req) w
                 = (Ret (Some ev, bref), record_call c0 w)).
  { rewrite (resolve_booking_by_ref _ _ _ _ Ht). rewrite Hup, Hone.
    reflexivity. }
  assert (Hin : ev ∈ calendar w).
  { assert (Hx : ev ∈ filter (fun x => has_ref (default ""%string bref) x = true)
                        (calendar w)) by (rewrite Hone; left).
    apply list_elem_of_filter in Hx as [_ Hx]. exact Hx. }
  destruct (cancel_booking_resolved req w (record_call c0 w) ev bref s e sp
              Hres Hs He Hsp) as [Hok _].
  destruct Hok as (ok & w1 & Hupd & Hrun); [apply Hup | |].
  { cbn [calendar record_call]. apply existsb_exists. exists ev.
    split; [apply list_elem_of_In, Hin |].
    unfold has_id. apply String.eqb_refl. }
  exists w1. split; [exact Hrun |].
  match type of Hupd with
  | update_sheet_status _ ?st ?no ?wd = _ =>
      pose proof (update_sheet_status_post bref st no wd) as Hpost
  end.
  rewrite Hupd in Hpost. cbn [snd] in Hpost. destruct Hpost as [Hc _].
  cbn [calendar set_calendar record_call] in Hc.
  unfold cancel_booking. fold bref.
  rewrite (bind_run _ _ _ _ _ (resolve_booking_by_ref _ _ _ w1 Ht)).
  rewrite Hup, Hc, (filter_has_id_tagged _ _ _ Hone). reflexivity.
Qed.

Lemma find_available_slots_available_single text limit :
  returns (find_available_slots text limit)
    (fun sr =>
       FindSlotsRes.reason sr = Some "preferred_time_available"%string ->
       exists s0, FindSlotsRes.slots sr = [s0]).
Proof.
  unfold find_available_slots. repeat returns_step; cbn; intros H;
    try discriminate H; eauto.
  match goal with
  | H : Some (match ?l with [] => _ | _ :: _ => _ end) = _ |- _ =>
      destruct l; discriminate H
  end.
Qed.

(** The run of [reschedule_booking] up to the answer of the finder. *)
Lemma reschedule_booking_found (req : RescheduleReq.t) (w w1 w2 : world)
    (ev : Event) (bref : option string)
    (summary old_start old_end old : string) (sr : FindSlotsRes.t) :
  resolve_booking (RescheduleReq.booking_ref req) (RescheduleReq.name req)
    (RescheduleReq.contact req) w = (Ret (Some ev, bref), w1) ->
  ev_summary ev = Some summary -> ev_start ev = Some old_start ->
  ev_end ev = Some old_end -> speakable_text old_start old_end = Some old ->
  find_available_slots (RescheduleReq.new_preferred_datetime_text req) 3 w1
    = (Ret sr, w2) ->
  reschedule_booking (Valid req) w =
  bind
    (if bool_decide (FindSlotsRes.reason sr
                     = Some "preferred_time_available"%string)
     then
       let! new_slot := expect IndexError (head (FindSlotsRes.slots sr)) in
       if negb (RescheduleReq.confirm_reschedule req) then
         ret (inl (RescheduleRes.mk true bref (Some old) (Some new_slot)
                     None None None
                     (Some "preferred_time_available"%string)))
       else ret (inr new_slot)
     else if bool_decide (FindSlotsRes.reason sr
                          = Some "preferred_time_busy"%string)
     then
       if negb (RescheduleReq.confirm_reschedule req) then
         ret (inl (RescheduleRes.mk false bref (Some old) None
                     (Some (FindSlotsRes.slots sr)) None None
                     (Some "preferred_time_busy"%string)))
       else
         let! new_slot := expect IndexError (head (FindSlotsRes.slots sr)) in
         ret (inr new_slot)
     else
       ret (inl (RescheduleRes.mk false None None None None None
                   (Some "no_slots_available"%string)
                   (Some "No available slots found for the requested time period"%string))))
    (fun choice =>
       match choice with
       | inl response => ret response
       | inr new_slot =>
         if RescheduleReq.confirm_reschedule req then
           commit_reschedule req ev bref old new_slot
         else
           ret (RescheduleRes.mk false None None None None None
                  (Some "unexpected_error"%string)
                  (Some "Unexpected flow in reschedule logic"%string))
       end) w2.
Proof.
  intros Hres Hsum Hs He Hold Hfind.
  destruct (find_available_slots_parsed _ _ _ _ _ Hfind) as [anchor Hparse].
  unfold reschedule_booking. unfold bind at 1. rewrite Hres.
  cbv beta iota. rewrite Hsum, Hs, He, Hparse.
  unfold bind at 1.
  assert (Hty : forall b : bool,
    (if b then ret (default ""%string (RescheduleReq.appointment_type req))
     else let! summary0 := expect KeyError (Some summary) in
          ret (split_head " - " summary0)) w1
    = (Ret (if b then default ""%string (RescheduleReq.appointment_type req)
            else split_head " - " summary), w1)).
  { intros []; reflexivity. }
  rewrite Hty. unfold bind at 1. cbn [expect ret].
  unfold bind at 1. cbn [expect ret].
  unfold bind at 1. rewrite speakable_range_run, Hold.
  unfold bind at 1. rewrite Hfind. reflexivity.
Qed.

(** The run of [commit_reschedule] on an event with a summary. *)
Lemma commit_reschedule_run (req : RescheduleReq.t) (ev : Event)
    (bref : option string) (summary old : string) (s0 : Slot) (w2 : world) :
  ev_summary ev = Some summary ->
  let original_desc := default ""%string (ev_description ev) in
  let body :=
    {| b_summary := summary;
       b_description :=
         if truthy (RescheduleReq.notes req)
         then original_desc +:+ nl +:+ "Rescheduled: "
              +:+ default ""%string (RescheduleReq.notes req)
         else original_desc;
       b_start := start s0;
       b_end := end_ s0;
       b_bookingRef := ev_bookingRef ev |} in
  let c := events_update (ev_id ev) body in
  let note := str_or (RescheduleReq.notes req)
                ("Rescheduled from " +:+ old +:+ " to " +:+ speakable s0) in
  let moved :=
    set_calendar
      (map (fun e => if has_id (ev_id ev) e
                     then event_of_body (ev_id ev) body else e)
           (calendar w2))
      (record_call c w2) in
  (fails w2 c = false ->
   existsb (has_id (ev_id ev)) (calendar w2) = true ->
   exists ok w4,
     update_sheet_reschedule bref (start s0) (end_ s0) note moved
       = (Ret ok, w4) /\
     commit_reschedule req ev bref old s0 w2 =
       (Ret (RescheduleRes.mk true bref (Some old) (Some s0) None
               (Some (speakable s0)) None
               (Some ("Updated successfully. Sheet update: "
                      +:+ bool_str ok))), w4)) /\
  (fails w2 c = true \/
   existsb (has_id (ev_id ev)) (calendar w2) = false ->
   commit_reschedule req ev bref old s0 w2 =
     (Ret (RescheduleRes.mk false None None None None None
             (Some "update_failed"%string)
             (Some ("Failed to update booking: "
                    +:+ str_exn (record_call c w2) HttpError))),
      record_call c w2)).
Proof.
  intros Hsum original_desc body c note moved.
  unfold commit_reschedule, try_except.
  rewrite Hsum. cbn [expect]. rewrite bind_ret_l.
  fold original_desc. fold body.
  pose proof (events_update_run (ev_id ev) body w2) as Hupd. fold c in Hupd.
  split.
  - intros Hf Hex. rewrite Hf, Hex in Hupd. fold moved in Hupd.
    destruct (update_sheet_reschedule_returns bref (start s0) (end_ s0)
                note moved) as (ok & w4 & Hup).
    exists ok, w4. split; [exact Hup |].
    rewrite (bind_run _ _ _ _ _ Hupd). fold note.
    rewrite (bind_run _ _ _ _ _ Hup). reflexivity.
  - intros Hfail.
    assert (Hupd' : events_update_execute (ev_id ev) body w2
                    = (Raise HttpError, record_call c w2)).
    { rewrite Hupd. destruct Hfail as [-> | Hex]; [reflexivity |].
      rewrite Hex. destruct (fails w2 c); reflexivity. }
    rewrite (bind_raise _ _ _ _ _ Hupd'). reflexivity.
Qed.


(** X21. A confirmed reschedule whose preferred time is free: the
    handler asks the calendar to move the event to the single slot the
    finder returned; the event keeps its identifier, its summary and
    its reference tag and gets the start and end of that slot. When
    the update succeeds the calendar holds the moved event, a ledger
    row that changed carried the reference and was open, and the
    answer is a success, whatever the ledger update returned; when the
    update fails the answer is [update_failed], its error text is
    "Failed to update booking: " followed by the message of the
    exception the update raised, and nothing else was requested. *)
Theorem reschedule_confirm_moves_to_preferred
    (req : RescheduleReq.t) (w w1 w2 : world) (ev : Event)
    (bref : option string) (summary old_start old_end old : string)
    (sr : FindSlotsRes.t) :
  RescheduleReq.confirm_reschedule req = true ->
  resolve_booking (RescheduleReq.booking_ref req) (RescheduleReq.name req)
    (RescheduleReq.contact req) w = (Ret (Some ev, bref), w1) ->
  ev_summary ev = Some summary -> ev_start ev = Some old_start ->
  ev_end ev = Some old_end -> speakable_text old_start old_end = Some old ->
  find_available_slots (RescheduleReq.new_preferred_datetime_text req) 3 w1
    = (Ret sr, w2) ->
  FindSlotsRes.reason sr = Some "preferred_time_available"%string ->
  exists s0,
    FindSlotsRes.slots sr = [s0] /\
    let original_desc := default ""%string (ev_description ev) in
    let body :=
      {| b_summary := summary;
         b_description :=
           if truthy (RescheduleReq.notes req)
           then original_desc +:+ nl +:+ "Rescheduled: "
                +:+ default ""%string (RescheduleReq.notes req)
           else original_desc;
         b_start := start s0;
         b_end := end_ s0;
         b_bookingRef := ev_bookingRef ev |} in
    let c := events_update (ev_id ev) body in
    let note := str_or (RescheduleReq.notes req)
                  ("Rescheduled from " +:+ old +:+ " to " +:+ speakable s0) in
    (fails w2 c = false ->
     existsb (has_id (ev_id ev)) (calendar w2) = true ->
     exists ok w4,
       reschedule_booking (Valid req) w =
         (Ret (RescheduleRes.mk true bref (Some old) (Some s0) None
                 (Some (speakable s0)) None
                 (Some ("Updated successfully. Sheet update: "
                        +:+ bool_str ok))), w4) /\
       calendar w4 =
         map (fun x => if has_id (ev_id ev) x
                       then event_of_body (ev_id ev) body else x)
             (calendar w2) /\
       spares_closed_rows bref w2 w4) /\
    (fails w2 c = true \/
     existsb (has_id (ev_id ev)) (calendar w2) = false ->
     reschedule_booking (Valid req) w =
       (Ret (RescheduleRes.mk false None None None None None
               (Some "update_failed"%string)
               (Some ("Failed to update booking: "
                      +:+ str_exn (record_call c w2) HttpError))),
        record_call c w2)).
Proof.
  intros Hconf Hres Hsum Hs He Hold Hfind Hav.
  destruct (find_available_slots_available_single _ _ _ _ _ Hfind Hav)
    as (s0 & Hslots).
  exists s0. split; [exact Hslots |].
  intros original_desc body c note.
  assert (Hrun : reschedule_booking (Valid req) w =
                 commit_reschedule req ev bref old s0 w2).
  { rewrite (reschedule_booking_found req w w1 w2 ev bref summary old_start
               old_end old sr Hres Hsum Hs He Hold Hfind).
    rewrite Hav, Hslots, Hconf.
    rewrite bool_decide_eq_true_2 by reflexivity.
    cbn [negb head expect]. reflexivity. }
  rewrite Hrun.
  destruct (commit_reschedule_run req ev bref summary old s0 w2 Hsum)
    as [Hok Hfail].
  fold original_desc in Hok, Hfail. fold body in Hok, Hfail.
  fold c in Hok, Hfail. fold note in Hok.
  split; [| exact Hfail].
  intros Hf Hex. destruct (Hok Hf Hex) as (ok & w4 & Hup & Hcommit).
  exists ok, w4. split; [exact Hcommit |].
  match type of Hup with
  | update_sheet_reschedule _ _ _ _ ?wm = _ =>
      pose proof (update_sheet_reschedule_post bref (start s0) (end_ s0) note
                    wm) as Hpost
  end.
  rewrite Hup in Hpost. cbn [snd] in Hpost. destruct Hpost as [Hc Hp].
  split; [rewrite Hc; reflexivity |].
  eapply spares_of_post; [reflexivity | reflexivity | exact Hp].
Qed.

(** X22. A reschedule for which the finder has no slot: whatever the
    confirmation flag, when the finder answers [no_slots_available]
    the handler answers [no_slots_available] too and nothing was
    written on the way. *)
Theorem reschedule_no_slots
    (req : RescheduleReq.t) (w w1 w2 : world) (ev : Event)
    (bref : option string) (summary old_start old_end old : string)
    (sr : FindSlotsRes.t) :
  resolve_booking (RescheduleReq.booking_ref req) (RescheduleReq.name req)
    (RescheduleReq.contact req) w = (Ret (Some ev, bref), w1) ->
  ev_summary ev = Some summary -> ev_start ev = Some old_start ->
  ev_end ev = Some old_end -> speakable_text old_start old_end = Some old ->
  find_available_slots (RescheduleReq.new_preferred_datetime_text req) 3 w1
    = (Ret sr, w2) ->
  FindSlotsRes.reason sr = Some "no_slots_available"%string ->
  reschedule_booking (Valid req) w =
    (Ret (RescheduleRes.mk false None None None None None
            (Some "no_slots_available"%string)
            (Some "No available slots found for the requested time period"%string)),
     w2) /\
  only_reads w w2.
Proof.
  intros Hres Hsum Hs He Hold Hfind Hno. split.
  - rewrite (reschedule_booking_found req w w1 w2 ev bref summary old_start
               old_end old sr Hres Hsum Hs He Hold Hfind).
    rewrite Hno.
    rewrite bool_decide_eq_false_2 by discriminate.
    rewrite bool_decide_eq_false_2 by discriminate.
    rewrite bind_ret_l. reflexivity.
  - eapply only_reads_trans.
    + pose proof (read_only_resolve_booking (RescheduleReq.booking_ref req)
                    (RescheduleReq.name req) (RescheduleReq.contact req) w)
        as H. rewrite Hres in H. exact H.
    + pose proof (read_only_find_available_slots
                    (RescheduleReq.new_preferred_datetime_text req) 3 w1)
        as H. rewrite Hfind in H. exact H.
Qed.

(** ** The scan leaves out no free slot *)

(** X23. The scan of [top_slots] takes the earliest free slots. When
    it returns, now + 60 minutes, the clamped anchor and its rounding,
    the first probe, were all computed; the slots it returns are the
    probes [ps], each a free business slot on the half-hour grid in the
    time zone of the first probe. No free slot of that grid from the
    first probe up to a returned one is left out; and when fewer than
    [limit] slots come back, no free slot on any of the eight candidate
    days is left out. *)
Theorem top_slots_takes_earliest anchor limit w out w' :
  wf_datetime anchor ->
  top_slots anchor limit w = (Ret out, w') ->
  exists later clamped first,
    dt_add (now w) (td_minutes 60) = Some later /\
    dt_max anchor later = Some clamped /\
    round_to_next_half_hour clamped = Some first /\
    exists ps,
      Forall2 probe_of out ps /\
      Forall (fun p => free_on (calendar w) p = true /\ on_grid p /\
                       tzinfo p = tzinfo first) ps /\
      (forall p q, q ∈ ps -> wf_datetime p -> on_grid p ->
         tzinfo p = tzinfo first -> to_us first <= to_us p <= to_us q ->
         free_on (calendar w) p = true -> p ∈ ps) /\
      (Z.of_nat (length out) < limit ->
       forall p, wf_datetime p -> on_grid p -> tzinfo p = tzinfo first ->
         to_us first <= to_us p ->
         ordinal p ∈ candidate_days 8 (ordinal first) ->
         free_on (calendar w) p = true -> p ∈ ps).
Proof.
  intros Hwf H.
  apply top_slots_full in H; [| exact Hwf].
  destruct H as (later & clamped & first & ps & hi & Hl & Hc & Hf1 & _ & Hf
                 & Hsc & _ & _ & Hearly & Hfull).
  exists later, clamped, first.
  split; [exact Hl |]. split; [exact Hc |]. split; [exact Hf1 |].
  exists ps. split; [exact Hf |].
  split.
  { destruct Hsc as [_ Hsc]. eapply Forall_impl; [exact Hsc |].
    cbn. intros p (Hfree & _ & Htz & Hg & _).
    split; [exact Hfree |]. split; [exact Hg | exact Htz]. }
  split.
  { intros p q Hq Hwp Hgp Htp Hr Hfree.
    apply (Hearly q Hq); try assumption. lia. }
  exact Hfull.
Qed.

End Properties.

(** ** The properties on the concrete instance *)

Lemma demo_laws : @ExternalsLaws Demo.demo_ext.
Proof.
  split.
  - intros s d. cbn. unfold Demo.parse_table.
    repeat case_match; intros Hsome; inversion Hsome; subst;
      unfold wf_datetime, min_ordinal, max_ordinal; cbn; lia.
  - intros d (Hh & Hm & Hs & Hu & Ho). unfold wf_datetime; cbn. lia.
  - intros d. cbn. eauto.
  - intros d Hwf. cbn. unfold Demo.to_service_zone. cbv zeta.
    destruct (in_calendar _) eqn:E.
    + apply wf_datetime_intro; [apply wf_time_of_us |].
      apply in_calendar_spec, E.
    + destruct Hwf as (Hh & Hm & Hs & Hu & Ho). unfold wf_datetime; cbn. lia.
  - intros d. cbn. unfold Demo.to_service_zone. cbv zeta.
    destruct (in_calendar _); cbn; eauto.
  - intros w. unfold wf_datetime, min_ordinal, max_ordinal; cbn. lia.
  - intros w. cbn. eauto.
  - intros d. cbn. unfold Demo.isoparse_table, Demo.show. cbn. eauto.
Qed.

Lemma create_event_idempotent_witness :
  let req := Demo.create_req None in
  let r1 := create_event (ext := Demo.demo_ext) (Valid req) Demo.w0 in
  exists res1 w2,
    fst r1 = Ret res1 /\
    create_event (ext := Demo.demo_ext) (Valid req) (snd r1) = (Ret res1, w2) /\
    only_reads (snd r1) w2 /\
    length (filter (fun ev => has_ref Demo.ref10 ev = true) (calendar w2))
    = 1%nat.
Proof.
  intros req r1.
  destruct (create_event_idempotent (ext := Demo.demo_ext) req Demo.w0)
    as [_ Htwice].
  destruct r1 as [o1 w1] eqn:E1.
  assert (Ho : exists res1, o1 = Ret res1 /\ CreateEventRes.success res1 = true).
  { vm_compute in E1. inversion E1; subst. eexists. split; reflexivity. }
  destruct Ho as (res1 & -> & Hs).
  destruct (Htwice res1 w1 E1 Hs) as (w2 & Hrun & Hro & _ & _ & Hone).
  { vm_compute in E1. inversion E1; subst. reflexivity. }
  exists res1, w2. split; [reflexivity |]. split; [exact Hrun |].
  split; [exact Hro |]. apply Hone.
  intros ev Hin. inversion Hin.
Defined.

Lemma is_slot_available_spec_witness :
  is_slot_available (ext := Demo.demo_ext) Demo.sat12 Demo.w0
    = (Ret false, Demo.w0) /\
  fst (is_slot_available (ext := Demo.demo_ext) Demo.mon10 Demo.w_walk_in)
    = Ret false /\
  fst (is_slot_available (ext := Demo.down_ext) Demo.mon10 Demo.w0)
    = Raise HttpError.
Proof.
  split; [| split].
  - apply (is_slot_available_spec (ext := Demo.demo_ext) Demo.sat12 Demo.w0).
    reflexivity.
  - destruct (is_slot_available_spec (ext := Demo.demo_ext) Demo.mon10
                Demo.w_walk_in) as (_ & _ & Hrun).
    destruct (Hrun Demo.mon1030 eq_refl) as [Hok _].
    destruct Hok as (b & -> & Hb); [reflexivity | reflexivity |].
    cbn [fst]. destruct b; [| reflexivity].
    destruct Hb as [Hb _]. specialize (Hb eq_refl). vm_compute in Hb.
    discriminate Hb.
  - destruct (is_slot_available_spec (ext := Demo.down_ext) Demo.mon10
                Demo.w0) as (_ & _ & Hrun).
    destruct (Hrun Demo.mon1030 eq_refl) as [_ Hdown].
    rewrite Hdown; reflexivity.
Defined.

(** C2, as claimed, fails: with the free/busy query failing, a business
    slot does not come back as "not available"; the error reaches the
    caller. *)
Lemma is_slot_available_fetch_error_escapes :
  is_business_hours Demo.mon10 = true /\
  fst (is_slot_available (ext := Demo.down_ext) Demo.mon10 Demo.w0)
    = Raise HttpError /\
  fst (is_slot_available (ext := Demo.down_ext) Demo.mon10 Demo.w0)
    <> Ret false.
Proof.
  split; [reflexivity |]. split; [reflexivity |].
  vm_compute. discriminate.
Qed.

Lemma create_event_slot_taken_witness :
  let req := Demo.create_req None in
  let r := create_event (ext := Demo.demo_ext) (Valid req) Demo.w_walk_in in
  fst r = Ret (CreateEventRes.mk false None None None
                 (Some "slot_taken"%string)
                 (Some "slot_no_longer_available"%string)) /\
  only_reads Demo.w_walk_in (snd r).
Proof.
  intros req r.
  pose (w2 := snd (is_slot_available (ext := Demo.demo_ext) Demo.mon10
                     (record_call (events_list_ref Demo.ref10) Demo.w_walk_in))).
  destruct (create_event_slot_taken (ext := Demo.demo_ext) req
              Demo.w_walk_in w2 Demo.mon10) as (Hrun & Hro & _).
  - reflexivity.
  - intros ev Hin. apply list_elem_of_singleton in Hin. subst ev.
    discriminate.
  - vm_compute. reflexivity.
  - vm_compute. reflexivity.
  - unfold r. rewrite Hrun. split; [reflexivity | exact Hro].
Defined.

Lemma reschedule_without_confirmation_reads_only_witness :
  let req := Demo.reschedule_req "mon 10am" false in
  RescheduleReq.confirm_reschedule req = false /\
  only_reads Demo.w_booked
    (snd (reschedule_booking (ext := Demo.demo_ext) (Valid req) Demo.w_booked)).
Proof.
  intros req. split; [reflexivity |].
  apply (reschedule_without_confirmation_reads_only (ext := Demo.demo_ext)).
  reflexivity.
Defined.


Lemma unparseable_text_escapes_find_slots_witness :
  find_slots_endpoint (ext := Demo.demo_ext)
    (Valid (FindSlotsReq.mk "flu shot" "?" 3)) Demo.w_booked
    = (Raise ParserError, Demo.w_booked) /\
  fst (reschedule_booking (ext := Demo.demo_ext)
         (Valid (Demo.reschedule_req "?" false)) Demo.w_booked)
    = Ret (RescheduleRes.mk false None None None None None
             (Some "invalid_datetime"%string)
             (Some "Could not parse new preferred datetime"%string)).
Proof.
  pose (r := resolve_booking (ext := Demo.demo_ext) (Some Demo.ref10) None
               None Demo.w_booked).
  destruct (unparseable_text_escapes_find_slots (ext := Demo.demo_ext)
              (FindSlotsReq.mk "flu shot" "?" 3)
              (Demo.reschedule_req "?" false) Demo.w_booked (snd r)
              Demo.booked (Some Demo.ref10) "flu shot - Ada"
              (Demo.show Demo.mon10) (Demo.show Demo.mon1030)
              (default ""%string
                 (speakable_text (ext := Demo.demo_ext)
                    (Demo.show Demo.mon10) (Demo.show Demo.mon1030))))
    as [Hfind Hres]; try reflexivity.
  split; [exact Hfind |]. rewrite Hres. reflexivity.
Defined.

Lemma ledger_updates_spare_cancelled_rows_witness :
  sheet (snd (update_sheet_status (ext := Demo.demo_ext) (Some Demo.ref10)
                "cancelled" "again" Demo.w_cancelled))
    !! 0%nat = Some (Demo.ledger_row Demo.ref10 "cancelled") /\
  sheet (snd (update_sheet_reschedule (ext := Demo.demo_ext)
                (Some Demo.ref10) (Demo.show Demo.mon11)
                (Demo.show Demo.mon11) "moved" Demo.w_cancelled))
    !! 0%nat = Some (Demo.ledger_row Demo.ref10 "cancelled").
Proof.
  destruct (ledger_updates_spare_cancelled_rows (ext := Demo.demo_ext)
              (Some Demo.ref10) "cancelled" "again" (Demo.show Demo.mon11)
              (Demo.show Demo.mon11) "moved" Demo.w_cancelled)
    as [(_ & _ & H1) (_ & _ & H2)].
  split; [apply H1 | apply H2]; reflexivity.
Defined.

Lemma idempotency_key_has_no_effect_witness :
  create_event (ext := Demo.demo_ext) (Valid (Demo.create_req None)) Demo.w0
  = create_event (ext := Demo.demo_ext)
      (Valid (Demo.create_req (Some "client-key-1"%string))) Demo.w0.
Proof.
  apply (idempotency_key_has_no_effect (ext := Demo.demo_ext));
    reflexivity.
Defined.


(** ** The further properties on concrete cases *)


Lemma booking_ref_key_format_witness :
  String.length Demo.ref10 = 7%nat /\
  String.get 3 Demo.ref10 = Some "-"%char /\
  upper Demo.ref10 = Demo.ref10.
Proof.
  destruct (booking_ref_key_format (ext := Demo.demo_ext) "Ada" "555-0100"
              (Demo.show Demo.mon10) "flu shot") as (H1 & H2 & _ & H4).
  - vm_compute. lia.
  - split; [exact H1 |]. split; [exact H2 | exact H4].
Defined.

Lemma update_sheet_status_spec_witness :
  exists w',
    update_sheet_status (ext := Demo.demo_ext) (Some Demo.ref10) "cancelled"
      "" Demo.w_booked = (Ret true, w') /\
    sheet w' = [Demo.ledger_row Demo.ref10 "cancelled"].
Proof.
  destruct (update_sheet_status_spec (ext := Demo.demo_ext)
              (fun _ _ => eq_refl) (Some Demo.ref10) "cancelled" ""
              Demo.w_booked) as (ok & w' & Hrun & _ & Hm).
  vm_compute in Hm. destruct Hm as [-> Hm].
  exists w'. split; [exact Hrun |]. vm_compute. exact Hm.
Defined.

Lemma update_sheet_reschedule_spec_witness :
  exists w',
    update_sheet_reschedule (ext := Demo.demo_ext) (Some Demo.ref10)
      (Demo.show Demo.mon11) (Demo.show Demo.mon11) "moved" Demo.w_booked
      = (Ret true, w') /\
    row_status <$> sheet w' !! 0%nat = Some (Some "rescheduled"%string).
Proof.
  destruct (update_sheet_reschedule_spec (ext := Demo.demo_ext)
              (fun _ _ => eq_refl) (Some Demo.ref10) (Demo.show Demo.mon11)
              (Demo.show Demo.mon11) "moved" Demo.w_booked)
    as (ok & w' & Hrun & _ & Hm).
  vm_compute in Hm. destruct Hm as [-> Hm].
  exists w'. split; [exact Hrun |]. vm_compute. rewrite Hm. reflexivity.
Defined.

Lemma ledger_updates_disagree_after_rebooking_witness :
  fst (update_sheet_status (ext := Demo.demo_ext) (Some Demo.ref10)
         "cancelled" "" Cases.w_rebooked) = Ret true /\
  fst (update_sheet_reschedule (ext := Demo.demo_ext) (Some Demo.ref10)
         (Demo.show Demo.mon11) (Demo.show Demo.mon11) "moved"
         Cases.w_rebooked) = Ret false.
Proof.
  destruct (ledger_updates_disagree_after_rebooking (ext := Demo.demo_ext)
              (fun _ _ => eq_refl) (Some Demo.ref10) "cancelled" ""
              (Demo.show Demo.mon11) (Demo.show Demo.mon11) "moved"
              Cases.w_rebooked
              0%nat (Demo.ledger_row Demo.ref10 "cancelled")
              1%nat (Demo.ledger_row Demo.ref10 "confirmed"))
    as (_ & (w1 & r & H1 & _) & (w2 & H2 & _));
    try (vm_compute; reflexivity).
  rewrite H1, H2. split; reflexivity.
Defined.

Lemma top_slots_without_limit_witness :
  top_slots (ext := Demo.demo_ext) Demo.mon10 0 Demo.w_booked
    = (Ret [], Demo.w_booked) /\
  top_slots (ext := Demo.demo_ext) (mkdt 739257 10 0 0 0 None) 0
    Demo.w_booked = (Raise TypeError, Demo.w_booked) /\
  find_available_slots (ext := Demo.demo_ext) "mon 10am" 0 Demo.w_booked
    = (Ret (FindSlotsRes.mk [] (Some "no_slots_available"%string)),
       snd (is_slot_available (ext := Demo.demo_ext) Demo.mon10
              Demo.w_booked)).
Proof.
  split; [| split].
  - destruct (top_slots_without_limit (ext := Demo.demo_ext) "mon 10am" 0
                Demo.mon10 Demo.mon10 Demo.mon10 Demo.w_booked Demo.w_booked)
      as [H _]; [lia |].
    rewrite H. reflexivity.
  - destruct (top_slots_without_limit (ext := Demo.demo_ext) "mon 10am" 0
                Demo.mon10 (mkdt 739257 10 0 0 0 None) Demo.mon10
                Demo.w_booked Demo.w_booked) as [H _]; [lia |].
    rewrite H. reflexivity.
  - destruct (top_slots_without_limit (ext := Demo.demo_ext) "mon 10am" 0
                (mkdt 739257 10 0 0 0 None) Demo.mon10 Demo.mon10
                Demo.w_booked
                (snd (is_slot_available (ext := Demo.demo_ext) Demo.mon10
                        Demo.w_booked))) as (_ & _ & H); [lia |].
    rewrite H; reflexivity.
Defined.

Lemma create_event_books_witness :
  exists res w',
    create_event (ext := Demo.demo_ext) (Valid (Demo.create_req None))
      Demo.w0 = (Ret res, w') /\
    CreateEventRes.success res = true /\
    length (calendar w') = 1%nat /\ length (sheet w') = 1%nat.
Proof.
  destruct (create_event_books (ext := Demo.demo_ext) (Demo.create_req None)
              Demo.w0 Demo.mon10 Demo.mon1030)
    as (w' & sp & logged & Hrun & Hc & Hs & _).
  - intros w c. reflexivity.
  - intros ev Hin. inversion Hin.
  - vm_compute. reflexivity.
  - vm_compute. reflexivity.
  - vm_compute. reflexivity.
  - eexists. exists w'. split; [exact Hrun |].
    split; [reflexivity |]. rewrite Hc, Hs. split; reflexivity.
Defined.

Lemma create_event_ledger_failure_witness :
  exists w',
    create_event (ext := Cases.ledger_down_ext) (Valid (Demo.create_req None))
      Demo.w0 = (Raise HttpError, w') /\
    length (calendar w') = 1%nat /\ sheet w' = [].
Proof.
  pose (wa := snd (is_slot_available (ext := Cases.ledger_down_ext)
                     Demo.mon10
                     (record_call (events_list_ref Demo.ref10) Demo.w0))).
  destruct (create_event_ledger_failure (ext := Cases.ledger_down_ext)
              (Demo.create_req None) Demo.w0 wa Demo.mon10 Demo.mon1030
              (default ""%string
                 (speakable_text (ext := Cases.ledger_down_ext)
                    (Demo.show Demo.mon10) (Demo.show Demo.mon1030))))
    as (w' & Hrun & Hc & Hs & _); try (vm_compute; reflexivity).
  - intros ev Hin. inversion Hin.
  - exists w'. split; [exact Hrun |]. rewrite Hc, Hs.
    split; reflexivity.
Defined.

Lemma resolve_booking_prefers_reference_witness :
  resolve_booking (ext := Demo.demo_ext) (Some Demo.ref10) None None
    Demo.w_booked
  = resolve_booking (ext := Demo.demo_ext) (Some Demo.ref10)
      (Some "Grace"%string) (Some "555-0199"%string) Demo.w_booked.
Proof.
  apply (resolve_booking_prefers_reference (ext := Demo.demo_ext)).
  reflexivity.
Defined.

Lemma nonexistent_booking_witness :
  fst (cancel_booking (ext := Demo.demo_ext) (Valid Cases.cancel_req)
         Demo.w0) = Ret cancel_not_found /\
  fst (reschedule_booking (ext := Demo.demo_ext)
         (Valid (Demo.reschedule_req "mon 10am" true)) Demo.w0)
    = Ret reschedule_not_found.
Proof.
  destruct (nonexistent_booking (ext := Demo.demo_ext) Cases.cancel_req
              (Demo.reschedule_req "mon 10am" true) Demo.w0)
    as [H1 H2]; try reflexivity.
  - right. intros ev Hin. inversion Hin.
  - rewrite H1, H2. split; reflexivity.
Defined.

Lemma cancel_booking_spec_witness :
  let r := cancel_booking (ext := Demo.demo_ext) (Valid Cases.cancel_req)
             Demo.w_booked in
  (exists res,
     fst r = Ret res /\ CancelRes.success res = true /\
     calendar (snd r) = []) /\
  fst (cancel_booking (ext := Cases.writes_down_ext) (Valid Cases.cancel_req)
         Demo.w_booked)
  = Ret (CancelRes.mk false None None (Some "cancellation_failed"%string)
           (Some "Failed to cancel booking: write refused"%string)).
Proof.
  intros r. split.
  - pose (r1 := resolve_booking (ext := Demo.demo_ext) (Some Demo.ref10) None
                  None Demo.w_booked).
    destruct (cancel_booking_spec (ext := Demo.demo_ext) Cases.cancel_req
                Demo.w_booked (snd r1) Demo.booked (Some Demo.ref10)
                (Demo.show Demo.mon10) (Demo.show Demo.mon1030)
                (default ""%string
                   (speakable_text (ext := Demo.demo_ext)
                      (Demo.show Demo.mon10) (Demo.show Demo.mon1030))))
      as [Hok _]; [vm_compute; reflexivity ..|].
    destruct Hok as (w' & Hrun & Hc & _);
      [vm_compute; reflexivity | vm_compute; reflexivity |].
    unfold r. rewrite Hrun. eexists. split; [reflexivity |].
    split; [reflexivity |]. cbn [snd]. rewrite Hc. vm_compute. reflexivity.
  - pose (r1 := resolve_booking (ext := Cases.writes_down_ext)
                  (Some Demo.ref10) None None Demo.w_booked).
    destruct (cancel_booking_spec (ext := Cases.writes_down_ext)
                Cases.cancel_req Demo.w_booked (snd r1) Demo.booked
                (Some Demo.ref10)
                (Demo.show Demo.mon10) (Demo.show Demo.mon1030)
                (default ""%string
                   (speakable_text (ext := Cases.writes_down_ext)
                      (Demo.show Demo.mon10) (Demo.show Demo.mon1030))))
      as [_ Hfail]; [vm_compute; reflexivity ..|].
    destruct Hfail as (w' & Hrun & _); [left; vm_compute; reflexivity |].
    rewrite Hrun. vm_compute. reflexivity.
Defined.

Lemma cancel_booking_twice_witness :
  exists w1,
    fst (cancel_booking (ext := Demo.demo_ext) (Valid Cases.cancel_req)
           Demo.w_booked)
      = Ret (CancelRes.mk true (Some Demo.ref10)
               (speakable_text (ext := Demo.demo_ext)
                  (Demo.show Demo.mon10) (Demo.show Demo.mon1030))
               None None) /\
    snd (cancel_booking (ext := Demo.demo_ext) (Valid Cases.cancel_req)
           Demo.w_booked) = w1 /\
    fst (cancel_booking (ext := Demo.demo_ext) (Valid Cases.cancel_req) w1)
      = Ret cancel_not_found.
Proof.
  destruct (cancel_booking_twice (ext := Demo.demo_ext) Cases.cancel_req
              Demo.w_booked Demo.booked
              (Demo.show Demo.mon10) (Demo.show Demo.mon1030)
              (default ""%string
                 (speakable_text (ext := Demo.demo_ext)
                    (Demo.show Demo.mon10) (Demo.show Demo.mon1030))))
    as (w1 & H1 & H2);
    [intros w c; reflexivity | vm_compute; reflexivity ..|].
  exists w1. rewrite H1, H2. split; [vm_compute; reflexivity |].
  split; reflexivity.
Defined.

Lemma reschedule_confirm_moves_to_preferred_witness :
  let req := Demo.reschedule_req "mon 10:50" true in
  let r := reschedule_booking (ext := Demo.demo_ext) (Valid req)
             Demo.w_booked in
  (exists res,
     fst r = Ret res /\
     RescheduleRes.success res = true /\
     start <$> RescheduleRes.new_slot res = Some (Demo.show Demo.mon11) /\
     map ev_start (calendar (snd r)) = [Some (Demo.show Demo.mon11)]) /\
  fst (reschedule_booking (ext := Cases.writes_down_ext) (Valid req)
         Demo.w_booked)
  = Ret (RescheduleRes.mk false None None None None None
           (Some "update_failed"%string)
           (Some "Failed to update booking: write refused"%string)).
Proof.
  intros req r. split.
  - pose (r1 := resolve_booking (ext := Demo.demo_ext) (Some Demo.ref10) None
                  None Demo.w_booked).
    pose (r2 := find_available_slots (ext := Demo.demo_ext) "mon 10:50" 3
                  (snd r1)).
    pose (sr := match fst r2 with
                | Ret x => x
                | _ => FindSlotsRes.mk [] None
                end).
    destruct (reschedule_confirm_moves_to_preferred
                (ext := Demo.demo_ext) req Demo.w_booked (snd r1) (snd r2)
                Demo.booked (Some Demo.ref10) "flu shot - Ada"
                (Demo.show Demo.mon10) (Demo.show Demo.mon1030)
                (default ""%string
                   (speakable_text (ext := Demo.demo_ext)
                      (Demo.show Demo.mon10) (Demo.show Demo.mon1030)))
                sr)
      as (s0 & Hslots & Hok & _); [vm_compute; reflexivity ..|].
    vm_compute in Hslots. inversion Hslots; subst s0. clear Hslots.
    destruct Hok as (ok & w4 & Hrun & Hcal & _);
      [vm_compute; reflexivity | vm_compute; reflexivity |].
    unfold r. rewrite Hrun. eexists. split; [reflexivity |].
    split; [reflexivity |]. split; [vm_compute; reflexivity |].
    cbn [snd]. rewrite Hcal. vm_compute. reflexivity.
  - pose (r1 := resolve_booking (ext := Cases.writes_down_ext)
                  (Some Demo.ref10) None None Demo.w_booked).
    pose (r2 := find_available_slots (ext := Cases.writes_down_ext)
                  "mon 10:50" 3 (snd r1)).
    pose (sr := match fst r2 with
                | Ret x => x
                | _ => FindSlotsRes.mk [] None
                end).
    destruct (reschedule_confirm_moves_to_preferred
                (ext := Cases.writes_down_ext) req Demo.w_booked (snd r1)
                (snd r2) Demo.booked (Some Demo.ref10) "flu shot - Ada"
                (Demo.show Demo.mon10) (Demo.show Demo.mon1030)
                (default ""%string
                   (speakable_text (ext := Cases.writes_down_ext)
                      (Demo.show Demo.mon10) (Demo.show Demo.mon1030)))
                sr)
      as (s0 & Hslots & _ & Hfail); [vm_compute; reflexivity ..|].
    vm_compute in Hslots. inversion Hslots; subst s0. clear Hslots.
    rewrite Hfail; [vm_compute; reflexivity | left; vm_compute; reflexivity].
Defined.

Lemma reschedule_no_slots_witness :
  let req := Demo.reschedule_req "mon 10:50" true in
  let r := reschedule_booking (ext := Cases.booked_out_ext) (Valid req)
             Demo.w_booked in
  fst r = Ret (RescheduleRes.mk false None None None None None
                 (Some "no_slots_available"%string)
                 (Some "No available slots found for the requested time period"%string)) /\
  calendar (snd r) = calendar Demo.w_booked /\
  sheet (snd r) = sheet Demo.w_booked.
Proof.
  intros req r.
  pose (r1 := resolve_booking (ext := Cases.booked_out_ext)
                (Some Demo.ref10) None None Demo.w_booked).
  pose (r2 := find_available_slots (ext := Cases.booked_out_ext)
                "mon 10:50" 3 (snd r1)).
  pose (sr := match fst r2 with
              | Ret x => x
              | _ => FindSlotsRes.mk [] None
              end).
  destruct (reschedule_no_slots
              (ext := Cases.booked_out_ext) req Demo.w_booked (snd r1)
              (snd r2) Demo.booked (Some Demo.ref10) "flu shot - Ada"
              (Demo.show Demo.mon10) (Demo.show Demo.mon1030)
              (default ""%string
                 (speakable_text (ext := Cases.booked_out_ext)
                    (Demo.show Demo.mon10) (Demo.show Demo.mon1030)))
              sr)
    as (Hrun & Hro); try (vm_compute; reflexivity).
  unfold r. rewrite Hrun. split; [reflexivity |].
  cbn [snd]. split; vm_compute; reflexivity.
Defined.

Lemma top_slots_takes_earliest_witness :
  let r := top_slots (ext := Demo.demo_ext) Demo.mon10 3 Demo.w_booked in
  exists out ps,
    fst r = Ret out /\ length out = 3%nat /\
    Forall2 (probe_of (ext := Demo.demo_ext)) out ps /\
    Forall (fun p => free_on (ext := Demo.demo_ext) [Demo.booked] p = true)
      ps.
Proof.
  intros r. destruct r as [o w'] eqn:E.
  assert (Ho : exists out, o = Ret out /\ length out = 3%nat).
  { vm_compute in E. inversion E; subst. eexists. split; reflexivity. }
  destruct Ho as (out & -> & Hlen).
  destruct (top_slots_takes_earliest (ext := Demo.demo_ext) Demo.mon10 3
              Demo.w_booked out w')
    as (later & clamped & first & _ & _ & _ & ps & Hf & Hfree & _).
  - unfold wf_datetime, min_ordinal, max_ordinal, Demo.mon10; simpl; lia.
  - exact E.
  - exists out, ps. split; [reflexivity |]. split; [exact Hlen |].
    split; [exact Hf |].
    eapply Forall_impl; [exact Hfree |]. cbn. intros p Hp. apply Hp.
Defined.
